(** * Renewable portfolio analysis: settlement, aggregation and report model

    A shallow embedding of [epias_client.py] and [streamlit_app.py]:
    the monthly range partitioner, the time-key normaliser, the join and
    settlement derivation of [build_plant_dataframe], the monthly aggregation
    ([build_monthly_summary], [compute_monthly_extras]), the column-letter
    encoding and the formula block of the comparison sheet; further on, the
    request loop of the fetchers, the plant list ([load_plants]), the ticket
    cache, [slugify] and the column styles of the detail sheets.

    Conventions of the embedding.
    - A data frame is the list of its rows, in row order; a column
      assignment [df[c] = f(df)] is a map over the rows.
    - A numeric cell is [option Qc]: [None] is pandas' NaN ("unknown"),
      [Some q] a known number.  Arithmetic is exact rational arithmetic;
      binary64 rounding is outside the model.  The statements say which
      operations on which cells produce a value; where one equates sums
      taken in different groupings, it is a statement about exact sums.
    - A Python [int] is a [Z]; a Python [str] is a [string] of bytes. *)

From Stdlib Require Import ZArith QArith Qcanon List String Ascii Lia Bool DecimalString.
From stdpp Require Import gmap strings.
Import ListNotations.

#[local] Arguments String.append !_ _ / : simpl nomatch.

#[local] Open Scope string_scope.
#[local] Open Scope list_scope.
#[local] Open Scope Z_scope.

(** ** NaN-aware numbers *)

Module Num.

(** A float cell of a data frame. *)
Definition num : Type := option Qc.

Definition nan : num := None.
Definition of_Z (z : Z) : num := Some (Q2Qc (inject_Z z)).

(** [pd.isna]. *)
Definition isna (x : num) : bool :=
  match x with None => true | Some _ => false end.

(** Binary float operators propagate NaN. *)
Definition lift2 (f : Qc -> Qc -> Qc) (x y : num) : num :=
  match x, y with
  | Some a, Some b => Some (f a b)
  | _, _ => None
  end.

Definition add : num -> num -> num := lift2 Qcplus.
Definition sub : num -> num -> num := lift2 Qcminus.
Definition mul : num -> num -> num := lift2 Qcmult.
(** Division is only ever reached behind a guard on the denominator. *)
Definition div : num -> num -> num := lift2 Qcdiv.

Definition Qcltb (a b : Qc) : bool :=
  match (a ?= b)%Qc with Lt => true | _ => false end.
Definition Qcleb (a b : Qc) : bool :=
  match (a ?= b)%Qc with Gt => false | _ => true end.
Definition Qceqb (a b : Qc) : bool :=
  match (a ?= b)%Qc with Eq => true | _ => false end.

Definition Qcmin (a b : Qc) : Qc := if Qcleb a b then a else b.
Definition Qcmax (a b : Qc) : Qc := if Qcleb a b then b else a.

(** Comparisons against NaN are false. *)
Definition gtb (x : num) (c : Qc) : bool :=
  match x with Some a => Qcltb c a | None => false end.
Definition ltb (x : num) (c : Qc) : bool :=
  match x with Some a => Qcltb a c | None => false end.
Definition geb (x : num) (c : Qc) : bool :=
  match x with Some a => Qcleb c a | None => false end.

(** Row-wise [min(axis=1)] and [max(axis=1)] over two columns: pandas
    skips NaN ([skipna=True]) and yields NaN only when both are NaN. *)
Definition row_min (x y : num) : num :=
  match x, y with
  | Some a, Some b => Some (Qcmin a b)
  | Some a, None => Some a
  | None, Some b => Some b
  | None, None => None
  end.
Definition row_max (x y : num) : num :=
  match x, y with
  | Some a, Some b => Some (Qcmax a b)
  | Some a, None => Some a
  | None, Some b => Some b
  | None, None => None
  end.

(** [Series.sum()]: NaN entries are skipped, the empty sum is 0. *)
Definition sum (xs : list num) : Qc :=
  fold_right (fun x acc => match x with Some a => (a + acc)%Qc | None => acc end) 0%Qc xs.

(** What a cell adds to such a sum. *)
Definition nan_to_zero (x : num) : Qc :=
  match x with Some a => a | None => 0%Qc end.

(** [Series.max()]: NaN entries are skipped; NaN when nothing is left. *)
Definition max (xs : list num) : num :=
  fold_right (fun x acc => match x with
                           | Some a => row_max (Some a) acc
                           | None => acc
                           end) None xs.

(** [Series.abs()]. *)
Definition abs (x : num) : num :=
  match x with Some a => Some (Qcmax a (- a)%Qc) | None => None end.

(** [Series.clip(lower=c)]: NaN stays NaN. *)
Definition clip_lower (c : Qc) (x : num) : num :=
  match x with Some a => Some (Qcmax a c) | None => None end.

(** [pd.to_numeric(errors="coerce")] on a float column: the cells already
    are numbers or NaN and stay as they are. *)
Definition to_numeric (x : num) : num := x.

End Num.

(** ** Calendar dates and timestamps (Python's [datetime]) *)

Module Calendar.

(** The exceptions the embedded functions can raise. *)
Inductive exn : Type :=
| ValueError (msg : string)
| KeyError (key : string).

(** A tz-naive [datetime.datetime] at second resolution. *)
Record datetime : Type := mk_datetime {
  year : Z; month : Z; day : Z; hour : Z; minute : Z; second : Z
}.

Definition MINYEAR : Z := 1.
Definition MAXYEAR : Z := 9999.

Definition is_leap (y : Z) : bool :=
  (y mod 4 =? 0) && (negb (y mod 100 =? 0) || (y mod 400 =? 0)).

Definition days_in_month (y m : Z) : Z :=
  if m =? 2 then (if is_leap y then 29 else 28)
  else if (m =? 4) || (m =? 6) || (m =? 9) || (m =? 11) then 30
  else 31.

Definition valid_date (y m d : Z) : bool :=
  (MINYEAR <=? y) && (y <=? MAXYEAR) && (1 <=? m) && (m <=? 12)
  && (1 <=? d) && (d <=? days_in_month y m).

Definition valid_time (h mi s : Z) : bool :=
  (0 <=? h) && (h <=? 23) && (0 <=? mi) && (mi <=? 59) && (0 <=? s) && (s <=? 59).

Definition valid (dt : datetime) : bool :=
  valid_date (year dt) (month dt) (day dt)
  && valid_time (hour dt) (minute dt) (second dt).

(** The constructor [datetime(y, m, d)]: midnight of that day, or
    [ValueError] (here [None]) when the date does not exist. *)
Definition make_datetime (y m d : Z) : option datetime :=
  if valid_date y m d then Some (mk_datetime y m d 0 0 0) else None.

(** Timestamps compare as the tuples of their fields. *)
Definition lex (c1 c2 : comparison) : comparison :=
  match c1 with Eq => c2 | _ => c1 end.

Definition date_compare (a b : datetime) : comparison :=
  lex (year a ?= year b) (lex (month a ?= month b) (day a ?= day b)).

Definition dt_compare (a b : datetime) : comparison :=
  lex (date_compare a b)
    (lex (hour a ?= hour b) (lex (minute a ?= minute b) (second a ?= second b))).

Definition dt_ltb (a b : datetime) : bool :=
  match dt_compare a b with Lt => true | _ => false end.
Definition dt_leb (a b : datetime) : bool :=
  match dt_compare a b with Gt => false | _ => true end.
Definition dt_eqb (a b : datetime) : bool :=
  match dt_compare a b with Eq => true | _ => false end.

(** The built-ins [max(a, b)] and [min(a, b)]: the first argument wins
    unless the second is strictly larger (smaller). *)
Definition dt_max (a b : datetime) : datetime := if dt_ltb a b then b else a.
Definition dt_min (a b : datetime) : datetime := if dt_ltb b a then b else a.

(** Calendar-day order, ignoring the time of day. *)
Definition date_leb (a b : datetime) : bool :=
  match date_compare a b with Gt => false | _ => true end.
Definition date_ltb (a b : datetime) : bool :=
  match date_compare a b with Lt => true | _ => false end.

(** [dt - timedelta(days=1)]: the same time on the previous calendar day. *)
Definition minus_one_day (dt : datetime) : datetime :=
  if 1 <? day dt then
    mk_datetime (year dt) (month dt) (day dt - 1) (hour dt) (minute dt) (second dt)
  else if 1 <? month dt then
    mk_datetime (year dt) (month dt - 1) (days_in_month (year dt) (month dt - 1))
                (hour dt) (minute dt) (second dt)
  else
    mk_datetime (year dt - 1) 12 31 (hour dt) (minute dt) (second dt).

(** The calendar day after [dt]'s, kept at [dt]'s time of day. *)
Definition plus_one_day (dt : datetime) : datetime :=
  if day dt <? days_in_month (year dt) (month dt) then
    mk_datetime (year dt) (month dt) (day dt + 1) (hour dt) (minute dt) (second dt)
  else if month dt <? 12 then
    mk_datetime (year dt) (month dt + 1) 1 (hour dt) (minute dt) (second dt)
  else
    mk_datetime (year dt + 1) 1 1 (hour dt) (minute dt) (second dt).

(** Months counted from year 0: the position of a calendar month. *)
Definition month_index (dt : datetime) : Z := year dt * 12 + (month dt - 1).

(** *** Decimal text *)

Definition digit_char (d : Z) : ascii := ascii_of_N (Z.to_N (48 + d)).

(** [n] printed with exactly [width] decimal digits, zero padded. *)
Fixpoint pad (width : nat) (n : Z) : string :=
  match width with
  | O => EmptyString
  | S w => (pad w (n / 10) ++ String (digit_char (n mod 10)) EmptyString)%string
  end.

Definition is_digit (c : ascii) : bool :=
  let n := Z.of_N (N_of_ascii c) in (48 <=? n) && (n <=? 57).

Definition digit_val (c : ascii) : Z := Z.of_N (N_of_ascii c) - 48.

(** The number a string of decimal digits denotes. *)
Definition number_of (s : string) : Z :=
  fold_left (fun acc c => acc * 10 + digit_val c) (list_ascii_of_string s) 0.

(** [%Y] under [strftime]: the year in decimal as the C library prints it.
    glibc does not pad, so a year below 1000 has fewer than four digits
    (years are 1 to 9999); from 1000 on every C library prints the same
    four digits. *)
Definition year_text (y : Z) : string :=
  if y <? 10 then pad 1 y
  else if y <? 100 then pad 2 y
  else if y <? 1000 then pad 3 y
  else pad 4 y.

(** [ISO_FMT = "%Y-%m-%dT%H:%M:%S+03:00"] under [strftime]: the year as
    [%Y] prints it, every other field zero padded to two digits. *)
Definition strftime_ISO_FMT (dt : datetime) : string :=
  (year_text (year dt) ++ "-" ++ pad 2 (month dt) ++ "-" ++ pad 2 (day dt) ++ "T"
   ++ pad 2 (hour dt) ++ ":" ++ pad 2 (minute dt) ++ ":" ++ pad 2 (second dt)
   ++ "+03:00")%string.

End Calendar.

(** ** [epias_client.py] *)

Module EpiasClient.
Import Calendar.

(** *** RangePartitioner: [month_start_end_strings] *)

(** The [while cursor <= end_dt] loop.  [fuel] bounds the number of
    iterations; [None] stands for a loop that has not finished within it. *)
Fixpoint month_loop (fuel : nat) (start_dt end_dt cursor : datetime)
    (ranges : list (string * string)) : option (exn + list (string * string)) :=
  match fuel with
  | O => None
  | S fuel' =>
      if dt_leb cursor end_dt then
        match (if month cursor =? 12
               then make_datetime (year cursor + 1) 1 1
               else make_datetime (year cursor) (month cursor + 1) 1) with
        | None => Some (inl (ValueError "year 10000 is out of range"))
        | Some next_month =>
            let period_start := dt_max start_dt cursor in
            let period_end := dt_min end_dt (minus_one_day next_month) in
            month_loop fuel' start_dt end_dt next_month
              (ranges ++ [(strftime_ISO_FMT period_start, strftime_ISO_FMT period_end)])
        end
      else Some (inr ranges)
  end.

(** One iteration per calendar month from [start_dt]'s to [end_dt]'s, and
    the final test of the loop condition. *)
Definition month_fuel (start_dt end_dt : datetime) : nat :=
  Z.to_nat (month_index end_dt - month_index start_dt + 2).

Definition month_start_end_strings (start_dt end_dt : datetime)
    : option (exn + list (string * string)) :=
  if dt_ltb end_dt start_dt then
    Some (inl (ValueError "end_dt must be >= start_dt"))
  else
    match make_datetime (year start_dt) (month start_dt) 1 with
    | None => Some (inl (ValueError "day is out of range for month"))
    | Some cursor0 =>
        let cursor := if dt_ltb cursor0 cursor0 then cursor0 else cursor0 in
        month_loop (month_fuel start_dt end_dt) start_dt end_dt cursor []
    end.

(** *** MarketDataSource: the request loop shared by the four fetchers *)

(** One item of a response: the raw date and hour fields and the value. *)
Record RawItem : Type := mk_item {
  it_date : option string;
  it_hour : option string;
  it_value : Num.num
}.

(** [for s, e in month_start_end_strings(...): data = self._post_json(...)].
    [post_json] is the transport; the first component of the result is the
    list of request windows sent, in order. *)
Definition fetch_items (post_json : string * string -> list RawItem)
    (start_dt end_dt : datetime)
    : option (list (string * string) * (exn + list RawItem)) :=
  match month_start_end_strings start_dt end_dt with
  | None => None
  | Some (inl e) => Some ([], inl e)
  | Some (inr ranges) => Some (ranges, inr (flat_map post_json ranges))
  end.

(** *** TimeKeyNormalizer: [_build_datetime] *)

(** The regular expressions used are sequences of [\d] and literal
    characters.  Texts are sequences of ASCII characters, on which [\d] is
    one of the digits 0 to 9. *)
Inductive pat : Type := PDigit | PLit (c : ascii).

Definition accepts (p : pat) (c : ascii) : bool :=
  match p with
  | PDigit => is_digit c
  | PLit l => Ascii.eqb l c
  end.

(** The text matched by the pattern at the start of [s], if it matches. *)
Fixpoint match_prefix (p : list pat) (s : string) : option string :=
  match p with
  | [] => Some EmptyString
  | x :: p' =>
      match s with
      | EmptyString => None
      | String c s' =>
          if accepts x c
          then option_map (String c) (match_prefix p' s')
          else None
      end
  end.

(** [s] is, character by character, an instance of the pattern. *)
Fixpoint has_shape (p : list pat) (s : string) : bool :=
  match p, s with
  | [], EmptyString => true
  | x :: p', String c s' => accepts x c && has_shape p' s'
  | _, _ => false
  end.

(** [\d{4}-\d{2}-\d{2}] *)
Definition day_pattern : list pat :=
  [PDigit; PDigit; PDigit; PDigit; PLit "-"; PDigit; PDigit; PLit "-"; PDigit; PDigit].
(** [\d{2}:\d{2}] *)
Definition hm_pattern : list pat :=
  [PDigit; PDigit; PLit ":"; PDigit; PDigit].

(** [str.extract(r'^(\d{4}-\d{2}-\d{2})')] *)
Definition extract_day (s : string) : option string := match_prefix day_pattern s.
(** [str.extract(r'^(\d{2}:\d{2})')] *)
Definition extract_hm (s : string) : option string := match_prefix hm_pattern s.
(** [str.extract(r'T(\d{2}:\d{2})')]: the leftmost match anywhere. *)
Fixpoint extract_T_hm (s : string) : option string :=
  match s with
  | EmptyString => None
  | String c s' =>
      match (if Ascii.eqb c "T" then match_prefix hm_pattern s' else None) with
      | Some h => Some h
      | None => extract_T_hm s'
      end
  end.

(** [astype(str)]: a missing field prints as the text [None]. *)
Definition astype_str (v : option string) : string :=
  match v with Some s => s | None => "None" end.

(** [Series.fillna]. *)
Definition fillna {A : Type} (x : option A) (y : option A) : option A :=
  match x with Some _ => x | None => y end.

(** [pd.to_datetime(text, format="%Y-%m-%d %H:%M", errors="coerce")]:
    the timestamp written in [text], or NaT ([None]) when [text] is NaN or
    does not denote an existing minute.  The range is that of [datetime],
    years 1 to 9999; timestamps of nanosecond resolution reach from 1677 to
    2262 only and a text outside is NaT there, so a statement that a text
    is accepted is made for the years 1678 to 2261. *)
Definition to_datetime (text : option string) : option datetime :=
  match text with
  | None => None
  | Some s =>
      match match_prefix (day_pattern ++ PLit " " :: hm_pattern) s with
      | Some m =>
          if String.eqb m s then
            let y := number_of (substring 0 4 s) in
            let mo := number_of (substring 5 2 s) in
            let d := number_of (substring 8 2 s) in
            let h := number_of (substring 11 2 s) in
            let mi := number_of (substring 14 2 s) in
            if valid_date y mo d && valid_time h mi 0
            then Some (mk_datetime y mo d h mi 0) else None
          else None
      | None => None
      end
  end.

(** The text of a timestamp under the format ["%Y-%m-%d %H:%M"]. *)
Definition strftime_minute (dt : datetime) : string :=
  (pad 4 (year dt) ++ "-" ++ pad 2 (month dt) ++ "-" ++ pad 2 (day dt) ++ " "
   ++ pad 2 (hour dt) ++ ":" ++ pad 2 (minute dt))%string.

(** A row after time-key normalisation: the added columns [datetime],
    [Tarih], [Saat] and the series value. *)
Record TimedRow : Type := mk_timed {
  t_datetime : option datetime;
  t_Tarih : option string;
  t_Saat : string;
  t_value : Num.num
}.

Definition _build_datetime_row (it : RawItem) : TimedRow :=
  let day := extract_day (astype_str (it_date it)) in
  let hour_raw := astype_str (it_hour it) in
  let hour_norm := extract_hm hour_raw in
  let derived_from_date := extract_T_hm (astype_str (it_date it)) in
  let hour_final :=
    match fillna (fillna hour_norm derived_from_date) (Some "00:00") with
    | Some h => h
    | None => "00:00"
    end in
  let dt := to_datetime (option_map (fun d => (d ++ " " ++ hour_final)%string) day) in
  mk_timed dt day hour_final (it_value it).

Definition _build_datetime (df : list RawItem) : list TimedRow :=
  map _build_datetime_row df.

(** What a fetcher returns for the accumulated items: the empty frame
    when there are none, else the normalised rows. *)
Definition frame_of_items (rows : list RawItem) : list TimedRow :=
  match rows with
  | [] => []
  | _ => _build_datetime rows
  end.

(** *** SettlementCalculator: [build_plant_dataframe] *)

(** A row of the merged frame.  [PTF] and [SMF] are NaN where the left
    join found no partner. *)
Record JoinedRow : Type := mk_joined {
  j_datetime : option datetime;
  j_Tarih : option string;
  j_Saat : string;
  j_KGUP : Num.num;
  j_URETIM : Num.num;
  j_PTF : Num.num;
  j_SMF : Num.num
}.

(** The merged frame with the columns it really has: [PTF] and [SMF]
    exist only once the corresponding merge has run. *)
Record JoinedFrame : Type := mk_frame {
  has_PTF : bool;
  has_SMF : bool;
  rows : list JoinedRow
}.

(** Join keys: pandas matches null keys with each other. *)
Definition key_eqb (a b : option datetime) : bool :=
  match a, b with
  | Some x, Some y => dt_eqb x y
  | None, None => true
  | _, _ => false
  end.

(** [kgup_df.merge(uretim_df, on="datetime", how="inner")]: in the order
    of the left rows, one output row per matching right row. *)
Definition merge_inner (kgup_df uretim_df : list TimedRow) : list JoinedRow :=
  flat_map (fun k =>
    map (fun u => mk_joined (t_datetime k) (t_Tarih k) (t_Saat k)
                            (t_value k) (t_value u) Num.nan Num.nan)
        (List.filter (fun u => key_eqb (t_datetime k) (t_datetime u)) uretim_df))
    kgup_df.

(** [df.merge(right, on="datetime", how="left")]: every left row is kept;
    without a partner the new column is NaN. *)
Definition merge_left (set : JoinedRow -> Num.num -> JoinedRow)
    (df : list JoinedRow) (right : list TimedRow) : list JoinedRow :=
  flat_map (fun r =>
    match List.filter (fun p => key_eqb (j_datetime r) (t_datetime p)) right with
    | [] => [set r Num.nan]
    | ms => map (fun p => set r (t_value p)) ms
    end) df.

(** The rows of a frame whose timestamp is valid (not NaT). *)
Definition valid_rows (df : list TimedRow) : list TimedRow :=
  List.filter (fun r => match t_datetime r with Some _ => true | None => false end) df.

Definition set_PTF (r : JoinedRow) (v : Num.num) : JoinedRow :=
  mk_joined (j_datetime r) (j_Tarih r) (j_Saat r) (j_KGUP r) (j_URETIM r) v (j_SMF r).
Definition set_SMF (r : JoinedRow) (v : Num.num) : JoinedRow :=
  mk_joined (j_datetime r) (j_Tarih r) (j_Saat r) (j_KGUP r) (j_URETIM r) (j_PTF r) v.

(** The per-plant hourly table, in the column order of [cols]. *)
Record HourlyRow : Type := mk_hourly {
  Tarih : option string;
  Ay : option Z;
  Saat : string;
  PTF : Num.num;
  SMF : Num.num;
  Poz_DF : Num.num;
  Neg_DF : Num.num;
  KGUP : Num.num;
  URETIM : Num.num;
  Dengesizlik : Num.num;
  GOP_Geliri : Num.num;
  Dengesizlik_Tutarı : Num.num;
  Net_Gelir : Num.num;
  Dengesizlik_Maliyeti : Num.num;
  Birim_DM : Num.num
}.

(** [_imbalance_amount] *)
Definition _imbalance_amount (dengesizlik poz_df neg_df : Num.num) : Num.num :=
  if Num.isna dengesizlik then Some 0%Qc
  else Num.mul dengesizlik (if Num.geb dengesizlik 0%Qc then poz_df else neg_df).

(** [_unit_cost] *)
Definition _unit_cost (uretim dengesizlik_maliyeti : Num.num) : Num.num :=
  match uretim with
  | None => Some 0%Qc
  | Some u =>
      if Num.Qceqb u 0%Qc then Some 0%Qc
      else Num.div dengesizlik_maliyeti (Some u)
  end.

(** The derived columns, assigned in the order of the source. *)
Definition derive (r : JoinedRow) : HourlyRow :=
  let ay := option_map month (j_datetime r) in
  let poz_df := Num.mul (Num.row_min (j_PTF r) (j_SMF r)) (Some (Q2Qc 0.97)) in
  let neg_df := Num.mul (Num.row_max (j_PTF r) (j_SMF r)) (Some (Q2Qc 1.03)) in
  let kgup := Num.to_numeric (j_KGUP r) in
  let uretim := Num.to_numeric (j_URETIM r) in
  let ptf := Num.to_numeric (j_PTF r) in
  let smf := Num.to_numeric (j_SMF r) in
  let dengesizlik := Num.sub uretim kgup in
  let gop_geliri := Num.mul kgup ptf in
  let dengesizlik_tutari := _imbalance_amount dengesizlik poz_df neg_df in
  let net_gelir := Num.add gop_geliri dengesizlik_tutari in
  let dengesizlik_maliyeti :=
    Num.clip_lower 0%Qc (Num.sub (Num.mul uretim ptf) net_gelir) in
  let birim_dm := _unit_cost uretim dengesizlik_maliyeti in
  mk_hourly (j_Tarih r) ay (j_Saat r) ptf smf poz_df neg_df kgup uretim
            dengesizlik gop_geliri dengesizlik_tutari net_gelir
            dengesizlik_maliyeti birim_dm.

(** [build_plant_dataframe], given the four frames its fetchers return.
    Selecting [df[["PTF", "SMF"]]] raises [KeyError] when a merge was
    skipped and the column is missing.  On a joined frame without rows the
    two [apply(..., axis=1)] calls are taken to yield no values, as pandas 2
    does; statements about the table are made for joined frames with rows. *)
Definition build_plant_dataframe
    (kgup_df uretim_df ptf_df smf_df : list TimedRow) : exn + list HourlyRow :=
  match kgup_df, uretim_df with
  | [], _ | _, [] => inr []
  | _, _ =>
      let df := mk_frame false false (merge_inner kgup_df uretim_df) in
      let df := match ptf_df with
                | [] => df
                | _ => mk_frame true (has_SMF df) (merge_left set_PTF (rows df) ptf_df)
                end in
      let df := match smf_df with
                | [] => df
                | _ => mk_frame (has_PTF df) true (merge_left set_SMF (rows df) smf_df)
                end in
      if has_PTF df && has_SMF df
      then inr (map derive (rows df))
      else inl (KeyError (if has_PTF df then "SMF" else "PTF"))
  end.

End EpiasClient.

(** ** [streamlit_app.py] *)

Module StreamlitApp.
Import Calendar EpiasClient.

(** *** MonthlyAggregator: [build_monthly_summary] *)

(** [range(1, 12 + 1)] *)
Definition months : list Z := map Z.of_nat (seq 1 12).

(** The rows of month [m]: the mask [df["Ay"] == m]. *)
Definition in_month (m : Z) (r : HourlyRow) : bool :=
  match Ay r with Some a => a =? m | None => false end.

(** One cell of [groupby("Ay").agg(sum).reindex(range(1, 13), fill_value=0)]:
    the NaN-skipping sum of the group, or the fill value when the month has
    no group. *)
Definition group_sum (df : list HourlyRow) (col : HourlyRow -> Num.num) (m : Z) : Qc :=
  if existsb (in_month m) df
  then Num.sum (map col (List.filter (in_month m) df))
  else 0%Qc.

(** [num / den if den not in (0, 0.0) else 0.0] *)
Definition unit_ratio (num den : Qc) : Qc :=
  if Num.Qceqb den 0%Qc then 0%Qc else (num / den)%Qc.

Inductive AyLabel : Type := AyMonth (m : Z) | AyToplam.

(** A row of the summary, in the order of its nine columns. *)
Record SummaryRow : Type := mk_summary {
  s_Ay : AyLabel;
  s_URETIM : Qc;
  s_Dengesizlik : Qc;
  s_GOP_Geliri : Qc;
  s_Dengesizlik_Tutarı : Qc;
  s_Net_Gelir : Qc;
  s_Birim_Gelir : Qc;
  s_Dengesizlik_Maliyeti : Qc;
  s_Birim_Deng_Mal : Qc
}.

Definition month_row (df : list HourlyRow) (m : Z) : SummaryRow :=
  let uretim := group_sum df URETIM m in
  let net := group_sum df Net_Gelir m in
  let dm := group_sum df Dengesizlik_Maliyeti m in
  mk_summary (AyMonth m) uretim (group_sum df Dengesizlik m)
    (group_sum df GOP_Geliri m) (group_sum df Dengesizlik_Tutarı m) net
    (unit_ratio net uretim) dm (unit_ratio dm uretim).

(** [Series.sum()] of a column without NaN. *)
Definition Qc_sum (xs : list Qc) : Qc := fold_right Qcplus 0%Qc xs.

Definition total_row (out : list SummaryRow) : SummaryRow :=
  let uretim := Qc_sum (map s_URETIM out) in
  let net := Qc_sum (map s_Net_Gelir out) in
  let dm := Qc_sum (map s_Dengesizlik_Maliyeti out) in
  let nonzero := negb (Num.Qceqb uretim 0%Qc) in
  mk_summary AyToplam uretim
    (Qc_sum (map s_Dengesizlik out))
    (Qc_sum (map s_GOP_Geliri out))
    (Qc_sum (map s_Dengesizlik_Tutarı out))
    net
    (if nonzero then (net / uretim)%Qc else 0%Qc)
    dm
    (if nonzero then (dm / uretim)%Qc else 0%Qc).

Definition build_monthly_summary (df : list HourlyRow) : list SummaryRow :=
  let out := map (month_row df) months in
  out ++ [total_row out].

(** *** Column letters: [_col_letter] *)

(** [chr] on the code points used here (below 256). *)
Definition chr (n : Z) : ascii := ascii_of_N (Z.to_N n).

(** The [while True] loop; [None] when [fuel] iterations do not reach the
    [break]. *)
Fixpoint col_letter_loop (fuel : nat) (idx : Z) (letters : string) : option string :=
  match fuel with
  | O => None
  | S fuel' =>
      let (idx, rem) := (idx / 26, idx mod 26) in
      let letters := String (chr (65 + rem)) letters in
      if idx =? 0 then Some letters
      else col_letter_loop fuel' (idx - 1) letters
  end.

Definition _col_letter (idx_zero_based : Z) : option string :=
  col_letter_loop (S (Z.to_nat idx_zero_based)) idx_zero_based EmptyString.

(** The column names of a spreadsheet, as a sequence: the name after [s].
    Names are kept with the last letter first. *)
Fixpoint next_name (s : list ascii) : list ascii :=
  match s with
  | [] => ["A"%char]
  | c :: rest =>
      if Ascii.eqb c "Z" then "A"%char :: next_name rest
      else chr (Z.of_N (N_of_ascii c) + 1) :: rest
  end.

(** The [n]-th name of the sequence A, B, ..., Z, AA, AB, ... ([n] from 0). *)
Definition standard_name (n : nat) : string :=
  string_of_list_ascii (rev (Nat.iter n next_name ["A"%char])).

(** Bijective base 26: the letters A..Z are the digits 1..26, there is no
    digit zero; the zero-based column index is the value minus one. *)
Definition letter_value (c : ascii) : Z := Z.of_N (N_of_ascii c) - 64.
Definition bijective26 (s : string) : Z :=
  fold_left (fun acc c => acc * 26 + letter_value c) (list_ascii_of_string s) 0.
Definition col_index (s : string) : Z := bijective26 s - 1.

Definition is_upper (c : ascii) : bool :=
  let n := Z.of_N (N_of_ascii c) in (65 <=? n) && (n <=? 90).

(** *** Extended KPIs: [compute_monthly_extras] *)

Definition days_2024 : list Z := [31; 29; 31; 30; 31; 30; 31; 31; 30; 31; 30; 31].

(** A value stored in a KPI vector: a float, an int or [None]. *)
Inductive kpi : Type := KFloat (q : Qc) | KInt (n : Z) | KNone.

Definition pos_imb (r : HourlyRow) : bool := Num.gtb (Dengesizlik r) 0%Qc.
Definition neg_imb (r : HourlyRow) : bool := Num.ltb (Dengesizlik r) 0%Qc.
Definition producing (r : HourlyRow) : bool := Num.gtb (URETIM r) 0%Qc.
Definition abs_imb (r : HourlyRow) : Num.num := Num.abs (Dengesizlik r).

(** [float(df2.loc[mask, col].sum())] *)
Definition sum_where (mask : HourlyRow -> bool) (col : HourlyRow -> Num.num)
    (df : list HourlyRow) : Qc :=
  Num.sum (map col (List.filter mask df)).

(** [int(mask.sum())] *)
Definition count_where (mask : HourlyRow -> bool) (df : list HourlyRow) : Z :=
  Z.of_nat (length (List.filter mask df)).

Definition total_revenue (df : list HourlyRow) : Qc := Num.sum (map Net_Gelir df).
Definition total_production (df : list HourlyRow) : Qc := Num.sum (map URETIM df).
Definition total_prod_hours (df : list HourlyRow) : Z := count_where producing df.
Definition total_pos_vol (df : list HourlyRow) : Qc := sum_where pos_imb Dengesizlik df.
Definition total_neg_vol (df : list HourlyRow) : Qc := sum_where neg_imb abs_imb df.

Definition hundred : Qc := Q2Qc 100.

(** [(num / den) * 100.0 if den > 0 else 0.0] *)
Definition pct_of (num den : Qc) : Qc :=
  if Num.Qcltb 0%Qc den then (num / den * hundred)%Qc else 0%Qc.

Definition accuracy (df : list HourlyRow) (m : Z) : Qc :=
  let sum_kgup := sum_where (in_month m) KGUP df in
  let sum_abs_imb := sum_where (in_month m) abs_imb df in
  if Num.Qcltb 0%Qc sum_kgup
  then ((1 - sum_abs_imb / sum_kgup) * hundred)%Qc else 0%Qc.

Definition pos_dm (df : list HourlyRow) (m : Z) : Qc :=
  sum_where (fun r => in_month m r && pos_imb r) Dengesizlik_Maliyeti df.
Definition neg_dm (df : list HourlyRow) (m : Z) : Qc :=
  sum_where (fun r => in_month m r && neg_imb r) Dengesizlik_Maliyeti df.

Definition asym (df : list HourlyRow) (m : Z) : option Qc :=
  if negb (Num.Qceqb (neg_dm df m) 0%Qc)
  then Some (pos_dm df m / neg_dm df m)%Qc else None.

Definition max_kgup (df : list HourlyRow) (m : Z) : Num.num :=
  if existsb (in_month m) df
  then Num.max (map KGUP (List.filter (in_month m) df))
  else Some 0%Qc.

Definition potential (df : list HourlyRow) (m : Z) : Num.num :=
  Num.mul (Num.mul (max_kgup df m) (Num.of_Z 24))
          (Num.of_Z (nth (Z.to_nat (m - 1)) days_2024 0)).

Definition month_prod (df : list HourlyRow) (m : Z) : Qc :=
  sum_where (in_month m) URETIM df.

Definition capacity_factor (df : list HourlyRow) (m : Z) : Qc :=
  match potential df m with
  | Some p => if Num.Qcltb 0%Qc p then (month_prod df m / p * hundred)%Qc else 0%Qc
  | None => 0%Qc
  end.

(** The distinct non-null values of [Tarih], in order of first appearance. *)
Fixpoint distinct_days (df : list HourlyRow) (seen : list string) : list string :=
  match df with
  | [] => []
  | r :: rest =>
      match Tarih r with
      | Some d =>
          if existsb (String.eqb d) seen then distinct_days rest seen
          else d :: distinct_days rest (d :: seen)
      | None => distinct_days rest seen
      end
  end.

Definition on_day (d : string) (r : HourlyRow) : bool :=
  match Tarih r with Some d' => String.eqb d d' | None => false end.

(** [monthly.groupby("Tarih")["Dengesizlik_Maliyeti"].sum()]: null days
    are dropped, one sum per day.  The days are compared as written; the
    hourly table carries them in the one form [YYYY-MM-DD]. *)
Definition daily_dm (monthly : list HourlyRow) : list Qc :=
  map (fun d => sum_where (on_day d) Dengesizlik_Maliyeti monthly)
      (distinct_days monthly []).

Fixpoint insert_desc (x : Qc) (l : list Qc) : list Qc :=
  match l with
  | [] => [x]
  | y :: l' => if Num.Qcleb y x then x :: l else y :: insert_desc x l'
  end.

(** [sort_values(ascending=False)] *)
Definition sort_desc (l : list Qc) : list Qc := fold_right insert_desc [] l.

Definition top5 (df : list HourlyRow) (m : Z) : Qc :=
  match List.filter (in_month m) df with
  | [] => 0%Qc
  | monthly => Qc_sum (firstn 5 (sort_desc (daily_dm monthly)))
  end.

Definition top5_share (df : list HourlyRow) (m : Z) : Qc :=
  match List.filter (in_month m) df with
  | [] => 0%Qc
  | monthly => pct_of (top5 df m) (Num.sum (map Dengesizlik_Maliyeti monthly))
  end.

Definition revenue_share (df : list HourlyRow) (m : Z) : Qc :=
  pct_of (sum_where (in_month m) Net_Gelir df) (total_revenue df).

Definition pos_share (df : list HourlyRow) (m : Z) : Qc :=
  pct_of (sum_where (fun r => in_month m r && pos_imb r) Dengesizlik df) (total_pos_vol df).
Definition neg_share (df : list HourlyRow) (m : Z) : Qc :=
  pct_of (sum_where (fun r => in_month m r && neg_imb r) abs_imb df) (total_neg_vol df).

Definition prod_h (df : list HourlyRow) (m : Z) : Z :=
  count_where producing (List.filter (in_month m) df).

Definition Qc_of_Z (z : Z) : Qc := Q2Qc (inject_Z z).

Definition prod_hours_share (df : list HourlyRow) (m : Z) : Qc :=
  if 0 <? total_prod_hours df
  then (Qc_of_Z (prod_h df m) / Qc_of_Z (total_prod_hours df) * hundred)%Qc
  else 0%Qc.

Definition prod_share (df : list HourlyRow) (m : Z) : Qc :=
  pct_of (month_prod df m) (total_production df).

Definition opt_kpi (o : option Qc) : kpi :=
  match o with Some q => KFloat q | None => KNone end.

(** The returned dict: each list holds what the loop over [months]
    appended, one value per month in order. *)
Definition compute_monthly_extras (df : list HourlyRow) : gmap string (list kpi) :=
  let per (f : Z -> kpi) := map f months in
  <["prod_share_pct" := per (fun m => KFloat (prod_share df m))]> (
  <["prod_hours_share_pct" := per (fun m => KFloat (prod_hours_share df m))]> (
  <["prod_hours" := per (fun m => KInt (prod_h df m))]> (
  <["neg_share_pct" := per (fun m => KFloat (neg_share df m))]> (
  <["pos_share_pct" := per (fun m => KFloat (pos_share df m))]> (
  <["revenue_share_pct" := per (fun m => KFloat (revenue_share df m))]> (
  <["top5_dm_share_pct" := per (fun m => KFloat (top5_share df m))]> (
  <["top5_dm_tl" := per (fun m => KFloat (top5 df m))]> (
  <["capacity_factor_pct" := per (fun m => KFloat (capacity_factor df m))]> (
  <["asym_ratio" := per (fun m => opt_kpi (asym df m))]> (
  <["accuracy_pct" := per (fun m => KFloat (accuracy df m))]> ∅)))))))))).

(** The value every vector but two holds for a month without rows. *)
Definition default_kpi (k : string) : kpi :=
  if String.eqb k "asym_ratio" then KNone
  else if String.eqb k "prod_hours" then KInt 0
  else KFloat 0.

(** [extras[k][i]]: the entry of month [i + 1] in the vector stored under [k]. *)
Definition extras_entry (df : list HourlyRow) (k : string) (i : nat) : option kpi :=
  match compute_monthly_extras df !! k with
  | Some v => nth_error v i
  | None => None
  end.

(** The capacity factor as the specification words it: the month's
    production over the potential of the month's real length in the
    analysis year [y]. *)
Definition capacity_factor_in_year (y : Z) (df : list HourlyRow) (m : Z) : Qc :=
  match max_kgup df m with
  | Some k =>
      let den := (k * Qc_of_Z 24 * Qc_of_Z (days_in_month y m))%Qc in
      if Num.Qceqb den 0%Qc then 0%Qc else (month_prod df m / den * hundred)%Qc
  | None => 0%Qc
  end.

(** *** ReportBuilder: the workbook *)

(** A cell reference such as [B4]: column letters and 1-based row. *)
Definition cellref : Type := (string * nat)%type.

(** The three shapes of formula text the report writes. *)
Inductive formula : Type :=
| FSumIf (sheet col_month : string) (last_row : nat) (criterion : cellref) (col : string)
| FIfZeroDiv (den num : cellref)
| FSum (col : string) (first last : nat).

Definition nat_text (n : nat) : string := NilZero.string_of_uint (Nat.to_uint n).
Definition ref_text (r : cellref) : string := (fst r ++ nat_text (snd r))%string.

(** The formula as the f-string spells it. *)
Definition formula_text (f : formula) : string :=
  match f with
  | FSumIf sheet cm last crit col =>
      ("=SUMIF('" ++ sheet ++ "'!$" ++ cm ++ "$2:$" ++ cm ++ "$" ++ nat_text last ++ ","
       ++ ref_text crit ++ ",'" ++ sheet ++ "'!$" ++ col ++ "$2:$" ++ col ++ "$"
       ++ nat_text last ++ ")")%string
  | FIfZeroDiv den num =>
      ("=IF(" ++ ref_text den ++ "=0,0," ++ ref_text num ++ "/" ++ ref_text den ++ ")")%string
  | FSum col first last =>
      ("=SUM(" ++ col ++ nat_text first ++ ":" ++ col ++ nat_text last ++ ")")%string
  end.

(** What a worksheet cell holds. *)
Inductive cell : Type :=
| Blank
| Number (q : Qc)
| Text (s : string)
| Formula (f : formula).

(** A worksheet filled by [write(row, col, ...)] calls, rows and columns
    counted from 0. *)
Abbreviation worksheet := (gmap (nat * nat) cell).

Definition write (row col : nat) (c : cell) (ws : worksheet) : worksheet :=
  <[(row, col) := c]> ws.

Definition write_all (cells : list (nat * nat * cell)) (ws : worksheet) : worksheet :=
  fold_left (fun ws w => write (fst (fst w)) (snd (fst w)) (snd w) ws) cells ws.

(** The cell a sequence of writes leaves at [key]: the last one written
    there, or [before] when none goes there. *)
Fixpoint last_write (key : nat * nat) (cells : list (nat * nat * cell))
    (before : option cell) : option cell :=
  match cells with
  | [] => before
  | w :: rest =>
      last_write key rest
        (if (fst (fst w) =? fst key)%nat && (snd (fst w) =? snd key)%nat
         then Some (snd w) else before)
  end.

Definition sheet1 : string := "Santral_1".
Definition sheet2 : string := "Santral_2".
Definition sheetc : string := "Karşılaştırma".

(** The column order of [rename_to_turkish]. *)
Definition order : list string :=
  [ "Tarih"; "Ay"; "Saat"; "PTF"; "SMF";
    "Pozitif Dengesizlik Fiyatı"; "Negatif Dengesizlik Fiyatı";
    "Gün Öncesi Üretim Tahmini (KGÜP)"; "Gerçekleşen Üretim"; "Dengesizlik Miktarı";
    "GÖP Geliri"; "Dengesizlik Tutarı"; "Toplam (Net) Gelir";
    "Dengesizlik Maliyeti"; "Birim Dengesizlik Maliyeti" ].

(** A float cell written by [to_excel]: NaN becomes an empty cell. *)
Definition num_cell (x : Num.num) : cell :=
  match x with Some q => Number q | None => Blank end.

Definition text_cell (x : option string) : cell :=
  match x with Some s => Text s | None => Blank end.

(** The cells of one hourly row after [rename_to_turkish], in [order]. *)
Definition detail_cells (r : HourlyRow) : list cell :=
  [ text_cell (Tarih r);
    match Ay r with Some a => Number (Qc_of_Z a) | None => Blank end;
    Text (Saat r);
    num_cell (PTF r); num_cell (SMF r); num_cell (Poz_DF r); num_cell (Neg_DF r);
    num_cell (KGUP r); num_cell (URETIM r); num_cell (Dengesizlik r);
    num_cell (GOP_Geliri r); num_cell (Dengesizlik_Tutarı r); num_cell (Net_Gelir r);
    num_cell (Dengesizlik_Maliyeti r); num_cell (Birim_DM r) ].

(** A detail sheet, [rename_to_turkish(df).to_excel(..., index=False)]: the
    header in row 0, the hourly rows below it. *)
Definition to_excel (df : list HourlyRow) (row col : nat) : cell :=
  match row with
  | O => match nth_error order col with Some h => Text h | None => Blank end
  | S i => match nth_error df i with
           | Some r => nth col (detail_cells r) Blank
           | None => Blank
           end
  end.

(** [headers.index(name)] *)
Fixpoint index_of (name : string) (headers : list string) : option nat :=
  match headers with
  | [] => None
  | h :: rest => if String.eqb h name then Some O else option_map S (index_of name rest)
  end.

(** [col_map[name]], with [col_map = {name: _col_letter(headers.index(name))}]. *)
Definition col_map (name : string) : option string :=
  match index_of name order with
  | Some i => _col_letter (Z.of_nat i)
  | None => None
  end.

(** The helper [sumif(sheet, col_name, month_cell_ref)]. *)
Definition sumif (last_row1 last_row2 : nat) (sheet col_name : string)
    (month_cell_ref : cellref) : option formula :=
  match col_map col_name, col_map "Ay" with
  | Some col, Some col_month =>
      Some (FSumIf sheet col_month
              (if String.eqb sheet sheet1 then last_row1 else last_row2)
              month_cell_ref col)
  | _, _ => None
  end.

Definition base_headers : list string :=
  [ "Ay"; "Gerçekleşen Üretim  (MWh)"; "Dengesizlik Miktarı  (MWh)"; "GÖP Geliri (TL)";
    "Dengesizlik Tutarı (TL)"; "Toplam Gelir (TL)"; "Birim Gelir (TL/MWh)";
    "Dengesizlik Maliyeti (TL)"; "Birim Deng Mal. (TL/MWh)" ].

Definition extra_headers : list string :=
  [ "Tahmin Doğruluğu (%)"; "Maliyet Asimetrisi (Poz/Neg)"; "Kapasite Faktörü (%)";
    "En Maliyetli 5 Gün (TL)"; "Top 5 Gün DM Payı (%)"; "Gelir Payı (%)";
    "Yıllık Pozitif Deng. Payı (%)"; "Yıllık Negatif Deng. Payı (%)";
    "Üretim Saati (saat)"; "Üretim Saat Payı (%)"; "Üretim Payı (%)" ].

Definition headers_comp : list string := base_headers ++ extra_headers.

(** The keys of the extras in the order of the extra columns. *)
Definition extra_keys : list string :=
  [ "accuracy_pct"; "asym_ratio"; "capacity_factor_pct"; "top5_dm_tl";
    "top5_dm_share_pct"; "revenue_share_pct"; "pos_share_pct"; "neg_share_pct";
    "prod_hours"; "prod_hours_share_pct"; "prod_share_pct" ].

(** A pre-computed KPI as written: [None] is written as the empty text,
    which leaves the cell blank. *)
Definition kpi_cell (k : option kpi) : cell :=
  match k with
  | Some (KFloat q) => Number q
  | Some (KInt n) => Number (Qc_of_Z n)
  | Some KNone | None => Blank
  end.

Definition extra_cell (extras : gmap string (list kpi)) (key : string) (i : nat) : cell :=
  kpi_cell (match extras !! key with Some v => nth_error v i | None => None end).

Definition enumerate {A : Type} (l : list A) : list (nat * A) :=
  combine (seq 0 (length l)) l.

(** The writes of one month row of a block ([for i in range(12)]). *)
Definition month_row_writes (last_row1 last_row2 : nat) (sheet : string)
    (extras : gmap string (list kpi)) (start i : nat)
    : option (list (nat * nat * cell)) :=
  let row := (start + 3 + i)%nat in
  let month_num := (i + 1)%nat in
  let mref : cellref := ("A", S row) in
  match sumif last_row1 last_row2 sheet "Gerçekleşen Üretim" mref,
        sumif last_row1 last_row2 sheet "Dengesizlik Miktarı" mref,
        sumif last_row1 last_row2 sheet "GÖP Geliri" mref,
        sumif last_row1 last_row2 sheet "Dengesizlik Tutarı" mref,
        sumif last_row1 last_row2 sheet "Toplam (Net) Gelir" mref,
        sumif last_row1 last_row2 sheet "Dengesizlik Maliyeti" mref with
  | Some f1, Some f2, Some f3, Some f4, Some f5, Some f7 =>
      Some ([ (row, 0%nat, Number (Qc_of_Z (Z.of_nat month_num)));
              (row, 1%nat, Formula f1);
              (row, 2%nat, Formula f2);
              (row, 3%nat, Formula f3);
              (row, 4%nat, Formula f4);
              (row, 5%nat, Formula f5);
              (row, 6%nat, Formula (FIfZeroDiv ("B", S row) ("F", S row)));
              (row, 7%nat, Formula f7);
              (row, 8%nat, Formula (FIfZeroDiv ("B", S row) ("H", S row))) ]
            ++ map (fun jk => (row, (length base_headers + fst jk)%nat,
                               extra_cell extras (snd jk) i))
                   (enumerate extra_keys))
  | _, _, _, _, _, _ => None
  end.

(** The writes of the totals row of a block. *)
Definition total_row_writes (start : nat) : option (list (nat * nat * cell)) :=
  let total_row := (start + 3 + 12)%nat in
  let first := (start + 4)%nat in
  let last := (start + 15)%nat in
  match _col_letter (Z.of_nat (length base_headers + 3)),
        _col_letter (Z.of_nat (length base_headers + 8)) with
  | Some top5_col_letter, Some prod_hours_col_letter =>
      Some [ (total_row, 0%nat, Text "Toplam");
             (total_row, 1%nat, Formula (FSum "B" first last));
             (total_row, 2%nat, Formula (FSum "C" first last));
             (total_row, 3%nat, Formula (FSum "D" first last));
             (total_row, 4%nat, Formula (FSum "E" first last));
             (total_row, 5%nat, Formula (FSum "F" first last));
             (total_row, 6%nat, Formula (FIfZeroDiv ("B", S total_row) ("F", S total_row)));
             (total_row, 7%nat, Formula (FSum "H" first last));
             (total_row, 8%nat, Formula (FIfZeroDiv ("B", S total_row) ("H", S total_row)));
             (total_row, (length base_headers + 3)%nat,
              Formula (FSum top5_col_letter first last));
             (total_row, (length base_headers + 8)%nat,
              Formula (FSum prod_hours_col_letter first last)) ]
  | _, _ => None
  end.

(** All the writes of one optional list after the other. *)
Fixpoint concat_writes (l : list (option (list (nat * nat * cell))))
    : option (list (nat * nat * cell)) :=
  match l with
  | [] => Some []
  | None :: _ => None
  | Some ws :: rest => option_map (app ws) (concat_writes rest)
  end.

(** One plant block of the comparison sheet: title, header row, twelve month
    rows and the totals row.  The first block starts at row 0 and its
    formulas read [B4:B15]; the second starts at [start2 = 18]. *)
Definition block_writes (last_row1 last_row2 : nat) (sheet title : string)
    (extras : gmap string (list kpi)) (start : nat)
    : option (list (nat * nat * cell)) :=
  concat_writes
    ( Some [ (start, 0%nat, Text title) ]
      :: Some (map (fun jh => ((start + 2)%nat, fst jh, Text (snd jh))) (enumerate headers_comp))
      :: map (month_row_writes last_row1 last_row2 sheet extras start) (seq 0 12)
      ++ [ total_row_writes start ] ).

(** The comparison sheet [wsC]. *)
Definition comparison_sheet (last_row1 last_row2 : nat)
    (pp1_extras pp2_extras : gmap string (list kpi)) : option worksheet :=
  let total_row_1 := (3 + 12)%nat in
  let start2 := (total_row_1 + 3)%nat in
  match block_writes last_row1 last_row2 sheet1 "Santral 1" pp1_extras 0,
        block_writes last_row1 last_row2 sheet2 "Santral 2" pp2_extras start2 with
  | Some b1, Some b2 => Some (write_all b2 (write_all b1 ∅))
  | _, _ => None
  end.

(** The cell of the comparison sheet at [key], read off the writes. *)
Definition comparison_cell (last_row1 last_row2 : nat)
    (pp1_extras pp2_extras : gmap string (list kpi)) (key : nat * nat)
    : option (option cell) :=
  match block_writes last_row1 last_row2 sheet1 "Santral 1" pp1_extras 0,
        block_writes last_row1 last_row2 sheet2 "Santral 2" pp2_extras 18 with
  | Some b1, Some b2 => Some (last_write key b2 (last_write key b1 None))
  | _, _ => None
  end.

(** The workbook: the two detail sheets and the comparison sheet. *)
Record workbook : Type := mk_workbook {
  ws1 : nat -> nat -> cell;
  ws2 : nat -> nat -> cell;
  wsC : worksheet
}.

Definition build_report (pp1_df pp2_df : list HourlyRow) : option workbook :=
  let last_row1 := (length pp1_df + 1)%nat in
  let last_row2 := (length pp2_df + 1)%nat in
  match comparison_sheet last_row1 last_row2
          (compute_monthly_extras pp1_df) (compute_monthly_extras pp2_df) with
  | Some ws => Some (mk_workbook (to_excel pp1_df) (to_excel pp2_df) ws)
  | None => None
  end.

(** *** Formula recalculation *)

Inductive value : Type := VNum (q : Qc) | VText (s : string) | VBlank | VErr.

Definition sheet_grid (wb : workbook) (name : string) : option (nat -> nat -> cell) :=
  if String.eqb name sheet1 then Some (ws1 wb)
  else if String.eqb name sheet2 then Some (ws2 wb)
  else None.

Definition comp_cell (ws : worksheet) (row col : nat) : cell :=
  match ws !! (row, col) with Some c => c | None => Blank end.

(** The zero-based column a column name stands for. *)
Definition col_number (letters : string) : nat := Z.to_nat (col_index letters).

(** A numeric criterion selects the cells holding that number. *)
Definition criterion_matches (c : cell) (crit : Qc) : bool :=
  match c with Number q => Num.Qceqb q crit | _ => false end.

(** What a cell adds to a sum: text and empty cells add nothing. *)
Definition cell_number (c : cell) : Qc :=
  match c with Number q => q | _ => 0%Qc end.

(** [SUMIF(range, criterion, sum_range)] over the rows [first..last]
    (1-based) of a sheet of values. *)
Definition sumif_value (g : nat -> nat -> cell) (col_month col : string)
    (first last : nat) (crit : Qc) : Qc :=
  Qc_sum (map (fun r => if criterion_matches (g (r - 1)%nat (col_number col_month)) crit
                        then cell_number (g (r - 1)%nat (col_number col))
                        else 0%Qc)
              (seq first (S last - first))).

Definition value_number (v : value) : Qc :=
  match v with VNum q => q | _ => 0%Qc end.

Definition is_error (v : value) : bool :=
  match v with VErr => true | _ => false end.

(** [SUM] over evaluated cells: an error in the range is the result;
    otherwise the numbers are added, text and empty cells add nothing. *)
Definition sum_values (vs : list value) : value :=
  if existsb is_error vs then VErr else VNum (Qc_sum (map value_number vs)).

(** The value of a cell of the comparison sheet.  [fuel] bounds the depth
    of references between formula cells. *)
Fixpoint eval_cell (fuel : nat) (wb : workbook) (c : cell) : value :=
  match c with
  | Blank => VBlank
  | Number q => VNum q
  | Text s => VText s
  | Formula f =>
      match fuel with
      | O => VErr
      | S fuel' =>
          let get (r : cellref) : value :=
            eval_cell fuel' wb (comp_cell (wsC wb) (snd r - 1)%nat (col_number (fst r))) in
          match f with
          | FSumIf sheet col_month last_row criterion col =>
              match sheet_grid wb sheet, get criterion with
              | Some g, VNum crit => VNum (sumif_value g col_month col 2 last_row crit)
              | _, _ => VErr
              end
          | FIfZeroDiv den num =>
              match get den, get num with
              | VNum d, VNum n => VNum (if Num.Qceqb d 0%Qc then 0%Qc else (n / d)%Qc)
              | _, _ => VErr
              end
          | FSum col first last =>
              sum_values (map (fun r => get (col, r)) (seq first (S last - first)))
          end
      end
  end.

Definition is_formula (c : cell) : bool :=
  match c with Formula _ => true | _ => false end.

(** The nine summary cells of a month row (0-based [row]) of a block over
    the detail sheet [sheet]: the month number, six SUMIFs keyed by it and
    two guarded ratios of cells of the same row. *)
Definition month_row_layout (ws : worksheet) (sheet : string) (last_row row : nat)
    (month : Z) : Prop :=
  let sumif_of col := Formula (FSumIf sheet "B" last_row ("A", S row) col) in
  comp_cell ws row 0 = Number (Qc_of_Z month)
  /\ comp_cell ws row 1 = sumif_of "I"
  /\ comp_cell ws row 2 = sumif_of "J"
  /\ comp_cell ws row 3 = sumif_of "K"
  /\ comp_cell ws row 4 = sumif_of "L"
  /\ comp_cell ws row 5 = sumif_of "M"
  /\ comp_cell ws row 6 = Formula (FIfZeroDiv ("B", S row) ("F", S row))
  /\ comp_cell ws row 7 = sumif_of "N"
  /\ comp_cell ws row 8 = Formula (FIfZeroDiv ("B", S row) ("H", S row)).

(** The nine summary cells of the totals row of a block whose month rows
    are the 1-based rows [first..last]: the label, six SUMs over the cells
    above and two guarded ratios of cells of the totals row. *)
Definition total_row_layout (ws : worksheet) (first last row : nat) : Prop :=
  let sum_of col := Formula (FSum col first last) in
  comp_cell ws row 0 = Text "Toplam"
  /\ comp_cell ws row 1 = sum_of "B"
  /\ comp_cell ws row 2 = sum_of "C"
  /\ comp_cell ws row 3 = sum_of "D"
  /\ comp_cell ws row 4 = sum_of "E"
  /\ comp_cell ws row 5 = sum_of "F"
  /\ comp_cell ws row 6 = Formula (FIfZeroDiv ("B", S row) ("F", S row))
  /\ comp_cell ws row 7 = sum_of "H"
  /\ comp_cell ws row 8 = Formula (FIfZeroDiv ("B", S row) ("H", S row)).

(** The nine summary columns of a row of [build_monthly_summary], as cell
    values. *)
Definition summary_value (row : SummaryRow) (j : nat) : value :=
  match j with
  | 0%nat => match s_Ay row with
             | AyMonth m => VNum (Qc_of_Z m)
             | AyToplam => VText "Toplam"
             end
  | 1%nat => VNum (s_URETIM row)
  | 2%nat => VNum (s_Dengesizlik row)
  | 3%nat => VNum (s_GOP_Geliri row)
  | 4%nat => VNum (s_Dengesizlik_Tutarı row)
  | 5%nat => VNum (s_Net_Gelir row)
  | 6%nat => VNum (s_Birim_Gelir row)
  | 7%nat => VNum (s_Dengesizlik_Maliyeti row)
  | 8%nat => VNum (s_Birim_Deng_Mal row)
  | _ => VBlank
  end.

End StreamlitApp.

(** ** Concrete inputs used in examples *)

Module Examples.
Import Calendar EpiasClient StreamlitApp.

(** A joined row whose four inputs are all known. *)
Definition known_row (dt : option datetime) (tarih : option string) (saat : string)
    (ptf smf kgup uretim : Qc) : JoinedRow :=
  mk_joined dt tarih saat (Some kgup) (Some uretim) (Some ptf) (Some smf).

(** One normalised stream row: 5 March 2024, 14:00, value 2. *)
Definition example_hour : TimedRow :=
  mk_timed (Some (mk_datetime 2024 3 5 14 0 0)) (Some "2024-03-05") "14:00" (Some (Q2Qc 2)).

(** An hourly row with the given month, production, net revenue and cost;
    the remaining numeric columns are unknown. *)
Definition hourly (tarih : string) (ay : Z) (kgup uretim deng net dm : Num.num) : HourlyRow :=
  mk_hourly (Some tarih) (Some ay) "00:00" None None None None kgup uretim deng
            None None net dm None.

(** January: 1 MWh earning 1; February: 3 MWh earning 9. *)
Definition two_month_table : list HourlyRow :=
  [ hourly "2024-01-10" 1 None (Some (Q2Qc 1)) None (Some (Q2Qc 1)) None;
    hourly "2024-02-10" 2 None (Some (Q2Qc 3)) None (Some (Q2Qc 9)) None ].

(** January: one over-generation hour costing 5.  February: an
    over-generation hour costing 8 and an under-generation hour costing 4. *)
Definition asymmetry_table : list HourlyRow :=
  [ hourly "2024-01-10" 1 (Some (Q2Qc 10)) (Some (Q2Qc 12)) (Some (Q2Qc 2)) None (Some (Q2Qc 5));
    hourly "2024-02-10" 2 (Some (Q2Qc 10)) (Some (Q2Qc 13)) (Some (Q2Qc 3)) None (Some (Q2Qc 8));
    hourly "2024-02-11" 2 (Some (Q2Qc 10)) (Some (Q2Qc 9)) (Some (- Q2Qc 1)%Qc) None
           (Some (Q2Qc 4)) ].

(** February 2023 in one row: plan 1 MW, production 672 MWh = 24 x 28. *)
Definition feb_2023_table : list HourlyRow :=
  [ hourly "2023-02-10" 2 (Some (Q2Qc 1)) (Some (Q2Qc 672)) None None None ].

(** Raw items of the four streams.  The second plan item names a day that
    does not exist and the second realized item carries no date at all. *)
Definition plan_items : list RawItem :=
  [ mk_item (Some "2024-03-05") (Some "14:00") (Some (Q2Qc 100));
    mk_item (Some "2024-02-30") (Some "10:00") (Some (Q2Qc 50)) ].
Definition realized_items : list RawItem :=
  [ mk_item (Some "2024-03-05T14:00:00+03:00") None (Some (Q2Qc 120));
    mk_item (Some "bad") None (Some (Q2Qc 60)) ].
Definition price_items : list RawItem :=
  [ mk_item (Some "2024-03-05T00:00:00+03:00") (Some "14:00") (Some (Q2Qc 500)) ].
Definition smp_items : list RawItem :=
  [ mk_item (Some "2024-03-05T00:00:00+03:00") (Some "14:00") (Some (Q2Qc 520)) ].

(** Timestamps of 2024 used for the range partitioner. *)
Definition jan_1 : datetime := mk_datetime 2024 1 1 0 0 0.
Definition jan_15_0830 : datetime := mk_datetime 2024 1 15 8 30 0.
Definition jan_31 : datetime := mk_datetime 2024 1 31 0 0 0.
Definition jan_31_noon : datetime := mk_datetime 2024 1 31 12 0 0.
Definition feb_1 : datetime := mk_datetime 2024 2 1 0 0 0.
Definition feb_15 : datetime := mk_datetime 2024 2 15 0 0 0.
Definition feb_29 : datetime := mk_datetime 2024 2 29 0 0 0.
Definition mar_10 : datetime := mk_datetime 2024 3 10 0 0 0.

End Examples.

(** ** Calendar months as a number line *)

Module Partition.
Import Calendar EpiasClient.

(** The day of a timestamp on a line with 31 slots per month, and the
    timestamp itself in seconds on that line: for timestamps with fields in
    range these numbers order as the timestamps do. *)
Definition date_key (dt : datetime) : Z := month_index dt * 31 + (day dt - 1).
Definition ord (dt : datetime) : Z :=
  ((date_key dt * 24 + hour dt) * 60 + minute dt) * 60 + second dt.

(** Fields in range: what ordering by [ord] needs. *)
Definition in_range (dt : datetime) : Prop :=
  1 <= month dt <= 12 /\ 1 <= day dt <= 31
  /\ 0 <= hour dt <= 23 /\ 0 <= minute dt <= 59 /\ 0 <= second dt <= 59.

(** Midnight of the first and of the last day of the month at position [k]. *)
Definition first_of_month (k : Z) : datetime :=
  mk_datetime (k / 12) (k mod 12 + 1) 1 0 0 0.
Definition last_of_month (k : Z) : datetime :=
  mk_datetime (k / 12) (k mod 12 + 1) (days_in_month (k / 12) (k mod 12 + 1)) 0 0 0.

(** The period emitted for the month at position [k]. *)
Definition period (start_dt end_dt : datetime) (k : Z) : datetime * datetime :=
  (dt_max start_dt (first_of_month k), dt_min end_dt (last_of_month k)).

(** The periods of the months from position [k], [n] of them. *)
Definition periods_from (start_dt end_dt : datetime) (k : Z) (n : nat)
    : list (datetime * datetime) :=
  map (fun i => period start_dt end_dt (k + Z.of_nat i)) (seq 0 n).

Definition format_period (p : datetime * datetime) : string * string :=
  (strftime_ISO_FMT (fst p), strftime_ISO_FMT (snd p)).

(** The shape [YYYY-MM-DDTHH:MM:SS+03:00]. *)
Definition iso_pattern : list pat :=
  day_pattern ++ [PLit "T"] ++ hm_pattern ++ [PLit ":"; PDigit; PDigit]
  ++ [PLit "+"; PLit "0"; PLit "3"; PLit ":"; PLit "0"; PLit "0"].

(** The timestamp [t] lies in the closed interval of the period. *)
Definition in_period (t : datetime) (p : datetime * datetime) : bool :=
  dt_leb (fst p) t && dt_leb t (snd p).

(** The day of [d] lies between the days of the period's ends. *)
Definition day_in_period (d : datetime) (p : datetime * datetime) : bool :=
  date_leb (fst p) d && date_leb d (snd p).

(** 00:00:00 of the day of [dt]. *)
Definition midnight_of (dt : datetime) : datetime :=
  mk_datetime (year dt) (month dt) (day dt) 0 0 0.

(** [dt] is on the last day of its month, later than 00:00:00. *)
Definition late_on_last_day (dt : datetime) : bool :=
  (day dt =? days_in_month (year dt) (month dt))
  && negb ((hour dt =? 0) && (minute dt =? 0) && (second dt =? 0)).

(** The last month the constructor [datetime] can step over: November 9999. *)
Definition last_steppable_month : Z := MAXYEAR * 12 + 10.

End Partition.

(** Closed equalities between rationals, by evaluation. *)
Ltac qc_eval :=
  vm_compute;
  repeat match goal with
         | |- Some _ = Some _ => f_equal
         | |- @eq Qc _ _ => apply Qc_is_canon; reflexivity
         end.

(** ** Further definitions: lookups, calendar days, the KPI cells *)

Module Lookup.
Import Calendar EpiasClient.

(** The value a frame stores under a timestamp: that of the first row with
    this key, NaN when there is none. *)
Definition value_at (right : list TimedRow) (k : option datetime) : Num.num :=
  match find (fun p => key_eqb k (t_datetime p)) right with
  | Some p => t_value p
  | None => Num.nan
  end.

End Lookup.

Module Totals.
Import Calendar EpiasClient StreamlitApp.

(** The hour belongs to one of the months 1..12. *)
Definition has_month (r : HourlyRow) : Prop := exists a, Ay r = Some a /\ 1 <= a <= 12.

(** The built-in [sum] over integers. *)
Definition Z_sum (l : list Z) : Z := fold_right Z.add 0 l.

End Totals.

Module Days.
Import Calendar.

(** [start_of_day] and [end_of_day]: both are [datetime(dt.year, dt.month,
    dt.day, 0, 0, 0)], midnight at the start of the day; [None] stands for
    the constructor's [ValueError].  The app's
    [datetime.combine(d, datetime.min.time())] is the same timestamp. *)
Definition start_of_day (dt : datetime) : option datetime :=
  make_datetime (year dt) (month dt) (day dt).
Definition end_of_day (dt : datetime) : option datetime :=
  make_datetime (year dt) (month dt) (day dt).

Definition is_midnight (dt : datetime) : bool :=
  (hour dt =? 0) && (minute dt =? 0) && (second dt =? 0).

(** The last element of a list. *)
Definition last_error {A : Type} (l : list A) : option A :=
  nth_error l (length l - 1).

End Days.

Module Kpi.
Import Calendar EpiasClient StreamlitApp.

(** The eleven KPI cells of a month row of the comparison sheet, in the
    order of [extra_headers]: what the values of [compute_monthly_extras]
    look like once written. *)
Definition kpi_cells (df : list HourlyRow) (m : Z) : list cell :=
  [ Number (accuracy df m);
    match asym df m with Some q => Number q | None => Blank end;
    Number (capacity_factor df m);
    Number (top5 df m);
    Number (top5_share df m);
    Number (revenue_share df m);
    Number (pos_share df m);
    Number (neg_share df m);
    Number (Qc_of_Z (prod_h df m));
    Number (prod_hours_share df m);
    Number (prod_share df m) ].

(** No cell position occurs twice in a list of positions. *)
Definition same_cell (a b : nat * nat) : bool :=
  (fst a =? fst b)%nat && (snd a =? snd b)%nat.
Fixpoint distinct_cells (l : list (nat * nat)) : bool :=
  match l with
  | [] => true
  | k :: rest => negb (existsb (same_cell k) rest) && distinct_cells rest
  end.

(** The rows [lo..hi] and the columns A..T of the comparison sheet. *)
Definition within_rows (lo hi : nat) (k : nat * nat) : bool :=
  (lo <=? fst k)%nat && (fst k <=? hi)%nat && (snd k <=? 19)%nat.

(** The cells a plant block starting at row [start] is written to, in the
    order of the writes: the title, the header row, twelve month rows of
    twenty cells and the eleven cells of the totals row. *)
Definition block_cells (start : nat) : list (nat * nat) :=
  [(start, 0%nat)]
  ++ map (fun j => ((start + 2)%nat, j)) (seq 0 20)
  ++ flat_map (fun i => map (fun j => ((start + 3 + i)%nat, j)) (seq 0 20)) (seq 0 12)
  ++ map (fun j => ((start + 15)%nat, j)) [0; 1; 2; 3; 4; 5; 6; 7; 8; 12; 17]%nat.

End Kpi.

(** ** Requests, files and names *)

Module Py.
Import Calendar.

(** What the embedded functions of this part can raise. *)
Inductive error : Type :=
| Raised (e : exn)
| RuntimeError (msg : string)
| TypeError (msg : string)
| AttributeError (msg : string)
| OverflowError (msg : string)
| FileNotFoundError (msg : string)
| OSError (msg : string)
| HTTPError (status : Z).

(** A value read by [json.load].  An object lists its members in the
    order of the text; a float is finite, NaN or an infinity. *)
#[warnings="-register-all"]
Inductive json : Type :=
| JNull
| JBool (b : bool)
| JInt (n : Z)
| JFloat (q : Qc)
| JNaN
| JInf (negative : bool)
| JStr (s : string)
| JArr (l : list json)
| JObj (members : list (string * json)).

(** Truth value of a JSON value, as [or], [if] and [not] see it. *)
Definition truthy (v : json) : bool :=
  match v with
  | JNull => false
  | JBool b => b
  | JInt n => negb (n =? 0)
  | JFloat q => negb (Num.Qceqb q 0%Qc)
  | JNaN | JInf _ => true
  | JStr s => negb (String.eqb s "")
  | JArr l => match l with [] => false | _ => true end
  | JObj l => match l with [] => false | _ => true end
  end.

(** [d.get(key)] on the members of an object: a repeated key keeps its
    last value, a missing key gives [None]. *)
Fixpoint get (key : string) (members : list (string * json)) : json :=
  match members with
  | [] => JNull
  | (k, v) :: rest =>
      if existsb (fun kv => String.eqb (fst kv) key) rest then get key rest
      else if String.eqb k key then v else JNull
  end.

(** [x or y] *)
Definition or_else (x y : json) : json := if truthy x then x else y.

(** [int(x)] for a float: truncation toward zero. *)
Definition trunc (q : Qc) : Z := Z.quot (Qnum (this q)) (Zpos (Qden (this q))).

End Py.

(** *** The request loop of the fetchers *)

Module Requests.
Import Calendar EpiasClient Py.

(** [EpiasClient]: the ticket, if any. *)
Record client : Type := mk_client { tgt : option string }.

(** [not self.tgt] is false for a non-empty ticket only. *)
Definition has_tgt (c : client) : bool :=
  match tgt c with
  | Some s => negb (String.eqb s "")
  | None => false
  end.

(** What the upstream does with a request: [requests.post] or
    [raise_for_status] raise, or the body arrives.  The body is a JSON
    object; its ["items"] is absent ([None]), [null] ([Some None]) or a list
    of objects, given here by the fields the fetcher reads. *)
Inductive reply : Type :=
| Failed (e : error)
| Body (items : option (option (list RawItem))).

(** A request window: [startDate] and [endDate]. *)
Abbreviation window := (string * string)%type.

(** [_post_json]: the requests sent so far are threaded through. *)
Definition _post_json (c : client) (net : window -> reply) (w : window)
    (sent : list window) : list window * (error + option (option (list RawItem))) :=
  if negb (has_tgt c) then
    (sent, inl (RuntimeError "TGT is not set. Please authenticate first."))
  else
    (sent ++ [w], match net w with Failed e => inl e | Body b => inr b end).

(** [for s, e in ranges: data = self._post_json(...);
     for it in data.get("items", []): rows.append(...)]; the pause
    [time.sleep] between two requests has no part in the result. *)
Fixpoint request_loop (c : client) (net : window -> reply) (ranges : list window)
    (rows : list RawItem) (sent : list window)
    : list window * (error + list RawItem) :=
  match ranges with
  | [] => (sent, inr rows)
  | w :: rest =>
      match _post_json c net w sent with
      | (sent', inl e) => (sent', inl e)
      | (sent', inr data) =>
          match data with
          | None => request_loop c net rest rows sent'
          | Some None => (sent', inl (TypeError "'NoneType' object is not iterable"))
          | Some (Some items) => request_loop c net rest (rows ++ items) sent'
          end
      end
  end.

(** A fetcher ([fetch_ptf], [fetch_smf], [fetch_kgup], [fetch_uretim]; they
    differ in the URL and the fields read, which [net] stands for): the
    requests sent and the frame returned or the exception raised. *)
Definition fetch (c : client) (net : window -> reply) (start_dt end_dt : datetime)
    : option (list window * (error + list TimedRow)) :=
  match month_start_end_strings start_dt end_dt with
  | None => None
  | Some (inl e) => Some ([], inl (Raised e))
  | Some (inr ranges) =>
      match request_loop c net ranges [] [] with
      | (sent, inl e) => Some (sent, inl e)
      | (sent, inr rows) => Some (sent, inr (frame_of_items rows))
      end
  end.

(** The items of a reply that carries a list. *)
Definition items_of (r : reply) : option (list RawItem) :=
  match r with
  | Body None => Some []
  | Body (Some (Some items)) => Some items
  | _ => None
  end.

(** What a reply without a list of items makes the loop raise. *)
Definition failure_of (r : reply) : error :=
  match r with
  | Failed e => e
  | _ => TypeError "'NoneType' object is not iterable"
  end.

End Requests.

(** *** [load_plants] *)

Module Plants.
Import Calendar Py.

(** [PlantMeta]: the name is whatever the file holds under the key. *)
Record PlantMeta : Type := mk_plant {
  powerPlantName : json;
  organizationId : Z;
  powerPlantId : Z;
  uevcbId : Z
}.

Section LoadPlants.

(** [os.path.exists], the parsed content of a file ([open] and
    [json.load] can raise), and [int] on a string. *)
Variable exists_path : string -> bool.
Variable content : string -> error + json.
Variable int_of_str : string -> option Z.

(** [int(x)] *)
Definition py_int (v : json) : error + Z :=
  match v with
  | JNull => inl (TypeError "int() argument must be a string, a bytes-like object or a real number, not 'NoneType'")
  | JBool b => inr (if b then 1 else 0)
  | JInt n => inr n
  | JFloat q => inr (trunc q)
  | JNaN => inl (Raised (ValueError "cannot convert float NaN to integer"))
  | JInf _ => inl (OverflowError "cannot convert float infinity to integer")
  | JStr s =>
      match int_of_str s with
      | Some n => inr n
      | None => inl (Raised (ValueError "invalid literal for int() with base 10"))
      end
  | JArr _ => inl (TypeError "int() argument must be a string, a bytes-like object or a real number, not 'list'")
  | JObj _ => inl (TypeError "int() argument must be a string, a bytes-like object or a real number, not 'dict'")
  end.

(** [_norm]: the keyword arguments are evaluated in order. *)
Definition _norm (pp : json) : error + PlantMeta :=
  match pp with
  | JObj m =>
      let name := or_else (get "powerPlantName" m) (get "powerplantName" m) in
      match py_int (get "organizationId" m) with
      | inl e => inl e
      | inr org =>
          match py_int (or_else (get "powerPlantId" m) (get "powerplantId" m)) with
          | inl e => inl e
          | inr pid =>
              match py_int (get "uevcbId" m) with
              | inl e => inl e
              | inr uev => inr (mk_plant name org pid uev)
              end
          end
      end
  | _ => inl (AttributeError "object has no attribute 'get'")
  end.

(** [[_norm(pp) for pp in raw]] over the elements already iterated. *)
Fixpoint norm_all (elements : list json) : error + list PlantMeta :=
  match elements with
  | [] => inr []
  | pp :: rest =>
      match _norm pp with
      | inl e => inl e
      | inr p =>
          match norm_all rest with
          | inl e => inl e
          | inr ps => inr (p :: ps)
          end
      end
  end.

(** What [for pp in raw] iterates over: the elements of an array, the keys
    of an object, the characters of a string. *)
Definition elements_of (raw : json) : error + list json :=
  match raw with
  | JArr l => inr l
  | JObj m => inr (map (fun kv => JStr (fst kv)) m)
  | JStr s => inr (map (fun c => JStr (String c EmptyString)) (list_ascii_of_string s))
  | _ => inl (TypeError "object is not iterable")
  end.

(** The first candidate that is non-empty and exists. *)
Definition usable (p : string) : bool := negb (String.eqb p "") && exists_path p.

Definition load_plants (pp_list_path_candidates : list string) : error + list PlantMeta :=
  match find usable pp_list_path_candidates with
  | None => inl (FileNotFoundError "pp_list.json not found in provided locations")
  | Some path_to_use =>
      match content path_to_use with
      | inl e => inl e
      | inr raw =>
          match elements_of raw with
          | inl e => inl e
          | inr elements => norm_all elements
          end
      end
  end.

End LoadPlants.

End Plants.

(** *** [slugify] *)

Module Slug.

(** A [str] as the sequence of its code points. *)
Definition text : Type := list N.

Section Slugify.

(** [str.isalnum] and [str.isspace] on a code point. *)
Variable isalnum : N -> bool.
Variable isspace : N -> bool.

Fixpoint lstrip (s : text) : text :=
  match s with
  | [] => []
  | c :: s' => if isspace c then lstrip s' else s
  end.

(** [str.strip()] *)
Definition strip (s : text) : text := rev (lstrip (rev (lstrip s))).

(** [replace(" ", "_")] *)
Definition replace_space (s : text) : text :=
  map (fun c => if (c =? 32)%N then 95%N else c) s.

(** [ch.isalnum() or ch in ("_", "-")] *)
Definition kept (c : N) : bool := isalnum c || (c =? 95)%N || (c =? 45)%N.

Definition slugify (value : text) : text :=
  List.filter kept (replace_space (strip value)).

End Slugify.

(** The two predicates on the code points below 128. *)
Definition ascii_isalnum (c : N) : bool :=
  ((48 <=? c) && (c <=? 57) || (65 <=? c) && (c <=? 90) || (97 <=? c) && (c <=? 122))%N.
Definition ascii_isspace (c : N) : bool :=
  ((9 <=? c) && (c <=? 13) || (28 <=? c) && (c <=? 32))%N.

End Slug.

(** *** [style_detailed] *)

Module Style.
Import StreamlitApp.

Inductive format : Type := num_fmt | int_fmt.

(** [col_widths.get(name, 16)] *)
Definition width_of (name : string) : Z :=
  if String.eqb name "Tarih" then 19
  else if String.eqb name "Ay" then 6
  else if String.eqb name "Saat" then 7
  else 16.

(** A call [ws.set_column(first, last, width, format)]. *)
Record set_column : Type := mk_set_column {
  first_col : nat; last_col : nat; width : Z; cell_format : option format
}.

Definition is_one_of (names : list string) (name : string) : bool :=
  existsb (String.eqb name) names.

(** The loop [for idx, name in enumerate(cols)] of [style_detailed]. *)
Definition style_columns (cols : list string) : list set_column :=
  map (fun p =>
         let idx := fst p in
         let name := snd p in
         let width := width_of name in
         if is_one_of ["Tarih"; "Ay"; "Saat"] name then mk_set_column idx idx width None
         else if is_one_of ["Ay"] name then mk_set_column idx idx width (Some int_fmt)
         else mk_set_column idx idx width (Some num_fmt))
      (enumerate cols).

End Style.
(** ** The ticket cache: [save_cached_tgt] and [load_cached_tgt] *)

Module TgtCache.
Import Calendar EpiasClient Py.

(** [datetime.now()]: a timestamp with its microseconds. *)
Record stamp : Type := mk_stamp { at_second : datetime; microsecond : Z }.

Definition valid_stamp (t : stamp) : bool :=
  valid (at_second t) && (0 <=? microsecond t) && (microsecond t <=? 999999).

(** [a < b] on timestamps. *)
Definition stamp_ltb (a b : stamp) : bool :=
  match lex (dt_compare (at_second a) (at_second b)) (microsecond a ?= microsecond b) with
  | Lt => true
  | _ => false
  end.

(** [t + timedelta(hours=2)]; [None] stands for [OverflowError]. *)
Definition plus_two_hours (t : stamp) : option stamp :=
  let dt := at_second t in
  if hour dt + 2 <? 24 then
    Some (mk_stamp (mk_datetime (year dt) (month dt) (day dt) (hour dt + 2)
                      (minute dt) (second dt)) (microsecond t))
  else
    let next := plus_one_day dt in
    if year next <=? MAXYEAR then
      Some (mk_stamp (mk_datetime (year next) (month next) (day next) (hour dt + 2 - 24)
                        (minute dt) (second dt)) (microsecond t))
    else None.

(** [datetime.isoformat()]: the microseconds are written only when they
    are not 0. *)
Definition isoformat (t : stamp) : string :=
  let dt := at_second t in
  (pad 4 (year dt) ++ "-" ++ pad 2 (month dt) ++ "-" ++ pad 2 (day dt) ++ "T"
   ++ pad 2 (hour dt) ++ ":" ++ pad 2 (minute dt) ++ ":" ++ pad 2 (second dt)
   ++ (if (microsecond t =? 0)%Z then "" else "." ++ pad 6 (microsecond t)))%string.

(** [YYYY-MM-DDTHH:MM:SS] and [YYYY-MM-DDTHH:MM:SS.ffffff] *)
Definition seconds_pattern : list pat :=
  day_pattern ++ [PLit "T"] ++ hm_pattern ++ [PLit ":"; PDigit; PDigit].
Definition micro_pattern : list pat :=
  seconds_pattern ++ [PLit "."; PDigit; PDigit; PDigit; PDigit; PDigit; PDigit].

Definition stamp_of_fields (s : string) (us : Z) : option stamp :=
  let y := number_of (substring 0 4 s) in
  let mo := number_of (substring 5 2 s) in
  let d := number_of (substring 8 2 s) in
  let h := number_of (substring 11 2 s) in
  let mi := number_of (substring 14 2 s) in
  let sec := number_of (substring 17 2 s) in
  if valid_date y mo d && valid_time h mi sec
  then Some (mk_stamp (mk_datetime y mo d h mi sec) us) else None.

Section Cache.

(** [datetime.fromisoformat] on a text in neither of the two forms that
    [isoformat] writes: which further forms are read depends on the Python
    at hand.  [None] stands for [ValueError], and for a timestamp with an
    offset, whose comparison with [datetime.now()] raises [TypeError]. *)
Variable fromisoformat_other : string -> option stamp.

Definition fromisoformat (s : string) : option stamp :=
  if has_shape seconds_pattern s then stamp_of_fields s 0
  else if has_shape micro_pattern s then stamp_of_fields s (number_of (substring 20 6 s))
  else fromisoformat_other s.

(** The cache file: missing, unreadable (the [open] or the [json.load]
    raises), or holding a JSON value. *)
Inductive cache_file : Type :=
| Missing
| Unreadable
| Holds (obj : json).

(** [save_cached_tgt]: [now1] and [now2] are the two readings of the
    clock; [writable] tells whether [open(path, "w")] and the dump succeed.
    Every exception is swallowed and leaves the file as it was. *)
Definition save_cached_tgt (now1 now2 : stamp) (writable : bool)
    (tgt username : string) (file : cache_file) : cache_file :=
  match plus_two_hours now1 with
  | None => file
  | Some exp =>
      if writable then
        Holds (JObj [ ("tgt", JStr tgt); ("username", JStr username);
                      ("saved_at", JStr (isoformat now2));
                      ("expires_at", JStr (isoformat exp)) ])
      else file
  end.

(** [obj.get("tgt") or None] *)
Definition ticket_of (m : list (string * json)) : option json :=
  let v := get "tgt" m in if truthy v then Some v else None.

(** [load_cached_tgt] at the time [now]: every exception gives [None]. *)
Definition load_cached_tgt (now : stamp) (file : cache_file) : option json :=
  match file with
  | Missing => None
  | Unreadable => None
  | Holds (JObj m) =>
      let exp := get "expires_at" m in
      if truthy exp then
        match exp with
        | JStr s =>
            match fromisoformat s with
            | Some exp_dt => if stamp_ltb exp_dt now then None else ticket_of m
            | None => None
            end
        | _ => None
        end
      else ticket_of m
  | Holds _ => None
  end.

End Cache.

End TgtCache.
(** * Facts about strings and decimal text *)

Section StringFacts.

Lemma append_assoc (a b c : string) :
  ((a ++ b) ++ c = a ++ (b ++ c))%string.
Proof. induction a as [|x a IH]; simpl; [reflexivity | now rewrite IH]. Qed.

Lemma append_nil_r (a : string) : (a ++ EmptyString)%string = a.
Proof. induction a as [|x a IH]; simpl; [reflexivity | now rewrite IH]. Qed.

Lemma length_append (a b : string) :
  String.length (a ++ b) = (String.length a + String.length b)%nat.
Proof. induction a as [|x a IH]; simpl; [reflexivity | now rewrite IH]. Qed.

Lemma list_ascii_of_string_append (a b : string) :
  list_ascii_of_string (a ++ b) = list_ascii_of_string a ++ list_ascii_of_string b.
Proof. induction a as [|x a IH]; simpl; [reflexivity | now rewrite IH]. Qed.

End StringFacts.

(** * Facts about NaN-aware numbers *)

Section NumFacts.
Import Num.

Lemma Qcltb_spec (a b : Qc) : reflect (a < b)%Qc (Qcltb a b).
Proof.
unfold Qcltb. destruct (a ?= b)%Qc eqn:E; constructor.
- intros H. pose proof (proj1 (Qclt_alt a b) H). congruence.
- now apply Qclt_alt.
- intros H. pose proof (proj1 (Qclt_alt a b) H). congruence.
Qed.

Lemma Qcleb_spec (a b : Qc) : reflect (a <= b)%Qc (Qcleb a b).
Proof.
unfold Qcleb. destruct (a ?= b)%Qc eqn:E; constructor.
- apply Qcle_alt. congruence.
- apply Qcle_alt. congruence.
- intros H. pose proof (proj1 (Qcle_alt a b) H). congruence.
Qed.

Lemma Qceqb_spec (a b : Qc) : reflect (a = b) (Qceqb a b).
Proof.
unfold Qceqb. destruct (a ?= b)%Qc eqn:E; constructor.
- now apply Qceq_alt.
- intros H. pose proof (proj1 (Qceq_alt a b) H). congruence.
- intros H. pose proof (proj1 (Qceq_alt a b) H). congruence.
Qed.

Lemma Qcmin_spec (a b : Qc) :
(Qcmin a b <= a)%Qc /\ (Qcmin a b <= b)%Qc /\ (Qcmin a b = a \/ Qcmin a b = b).
Proof.
unfold Qcmin. destruct (Qcleb_spec a b) as [H|H].
- repeat split; [apply Qcle_refl | exact H | now left].
- apply Qcnot_le_lt in H. repeat split; [now apply Qclt_le_weak | apply Qcle_refl | now right].
Qed.

Lemma Qcmax_spec (a b : Qc) :
(a <= Qcmax a b)%Qc /\ (b <= Qcmax a b)%Qc /\ (Qcmax a b = a \/ Qcmax a b = b).
Proof.
unfold Qcmax. destruct (Qcleb_spec a b) as [H|H].
- repeat split; [exact H | apply Qcle_refl | now right].
- apply Qcnot_le_lt in H. repeat split; [apply Qcle_refl | now apply Qclt_le_weak | now left].
Qed.

Lemma sum_app (xs ys : list num) : sum (xs ++ ys) = (sum xs + sum ys)%Qc.
Proof.
induction xs as [|[a|] xs IH]; simpl.
- now rewrite Qcplus_0_l.
- rewrite IH. now rewrite Qcplus_assoc.
- exact IH.
Qed.

End NumFacts.

(** * SettlementCalculator: the derived columns *)

Section Settlement.
Import Calendar EpiasClient Examples.

(** The output rows are the derivation of the joined rows. *)
Lemma build_plant_dataframe_rows kgup_df uretim_df ptf_df smf_df out :
  build_plant_dataframe kgup_df uretim_df ptf_df smf_df = inr out ->
  forall r, In r out -> exists j, r = derive j.
Proof.
  unfold build_plant_dataframe. intros H r Hr.
  destruct kgup_df as [|k kgup_df]; [injection H as <-; destruct Hr|].
  destruct uretim_df as [|u uretim_df]; [injection H as <-; destruct Hr|].
  match type of H with (if ?c then _ else _) = _ => destruct c end; [|discriminate].
  injection H as <-. apply in_map_iff in Hr as (j & <- & _). now exists j.
Qed.

(** C1. Every row of the table [build_plant_dataframe] returns satisfies the
    settlement equations, column by column in the order of the source:
    Poz_DF = min(PTF, SMF) x 0.97, Neg_DF = max(PTF, SMF) x 1.03,
    Dengesizlik = URETIM - KGUP, GOP_Geliri = KGUP x PTF,
    Dengesizlik_Tutarı is 0 for an unknown Dengesizlik and otherwise
    Dengesizlik x Poz_DF (Dengesizlik >= 0) or Dengesizlik x Neg_DF (< 0),
    Net_Gelir = GOP_Geliri + Dengesizlik_Tutarı,
    Dengesizlik_Maliyeti = max(0, URETIM x PTF - Net_Gelir), and Birim_DM is 0
    for an unknown or zero URETIM and Dengesizlik_Maliyeti / URETIM otherwise.
    For known inputs the columns are the stated rational expressions; the
    input 500, 520, 100, 120 gives 485, 535.6, 20, 50000, 9700, 59700, 300
    and 2.5; and URETIM = 0 gives Birim_DM = 0 whatever the cost. *)
Theorem settlement_columns :
  (forall kgup_df uretim_df ptf_df smf_df out r,
      build_plant_dataframe kgup_df uretim_df ptf_df smf_df = inr out ->
      In r out ->
      Poz_DF r = Num.mul (Num.row_min (PTF r) (SMF r)) (Some (Q2Qc 0.97))
      /\ Neg_DF r = Num.mul (Num.row_max (PTF r) (SMF r)) (Some (Q2Qc 1.03))
      /\ Dengesizlik r = Num.sub (URETIM r) (KGUP r)
      /\ GOP_Geliri r = Num.mul (KGUP r) (PTF r)
      /\ (Dengesizlik r = None -> Dengesizlik_Tutarı r = Some 0%Qc)
      /\ (forall d, Dengesizlik r = Some d -> (0 <= d)%Qc ->
            Dengesizlik_Tutarı r = Num.mul (Some d) (Poz_DF r))
      /\ (forall d, Dengesizlik r = Some d -> (d < 0)%Qc ->
            Dengesizlik_Tutarı r = Num.mul (Some d) (Neg_DF r))
      /\ Net_Gelir r = Num.add (GOP_Geliri r) (Dengesizlik_Tutarı r)
      /\ Dengesizlik_Maliyeti r
         = Num.clip_lower 0%Qc (Num.sub (Num.mul (URETIM r) (PTF r)) (Net_Gelir r))
      /\ (URETIM r = None \/ URETIM r = Some 0%Qc -> Birim_DM r = Some 0%Qc)
      /\ (forall u, URETIM r = Some u -> u <> 0%Qc ->
            Birim_DM r = Num.div (Dengesizlik_Maliyeti r) (Some u)))
  /\ (forall dt tarih saat (ptf smf kgup uretim : Qc),
        let r := derive (known_row dt tarih saat ptf smf kgup uretim) in
        let d := (uretim - kgup)%Qc in
        let poz := (Num.Qcmin ptf smf * Q2Qc 0.97)%Qc in
        let neg := (Num.Qcmax ptf smf * Q2Qc 1.03)%Qc in
        let tutar := (d * (if Num.Qcleb 0 d then poz else neg))%Qc in
        let net := (kgup * ptf + tutar)%Qc in
        let dm := Num.Qcmax (uretim * ptf - net) 0%Qc in
        Poz_DF r = Some poz /\ Neg_DF r = Some neg /\ Dengesizlik r = Some d
        /\ GOP_Geliri r = Some (kgup * ptf)%Qc /\ Dengesizlik_Tutarı r = Some tutar
        /\ Net_Gelir r = Some net /\ Dengesizlik_Maliyeti r = Some dm
        /\ Birim_DM r = Some (if Num.Qceqb uretim 0 then 0 else dm / uretim)%Qc)
  /\ (forall dt tarih saat,
        let r := derive (known_row dt tarih saat (Q2Qc 500) (Q2Qc 520) (Q2Qc 100) (Q2Qc 120)) in
        Poz_DF r = Some (Q2Qc 485) /\ Neg_DF r = Some (Q2Qc 535.6)
        /\ Dengesizlik r = Some (Q2Qc 20) /\ GOP_Geliri r = Some (Q2Qc 50000)
        /\ Dengesizlik_Tutarı r = Some (Q2Qc 9700) /\ Net_Gelir r = Some (Q2Qc 59700)
        /\ Dengesizlik_Maliyeti r = Some (Q2Qc 300) /\ Birim_DM r = Some (Q2Qc 2.5))
  /\ (forall j, j_URETIM j = Some 0%Qc -> Birim_DM (derive j) = Some 0%Qc).
Proof.
  split; [|split; [|split]].
  - intros kgup_df uretim_df ptf_df smf_df out r Hout Hr.
    destruct (build_plant_dataframe_rows _ _ _ _ _ Hout r Hr) as [j ->].
    destruct j as [dt tarih saat kgup uretim ptf smf].
    unfold derive, Num.to_numeric; cbn [Poz_DF Neg_DF Dengesizlik GOP_Geliri
      Dengesizlik_Tutarı Net_Gelir Dengesizlik_Maliyeti Birim_DM URETIM KGUP PTF SMF
      j_PTF j_SMF j_KGUP j_URETIM j_datetime j_Tarih j_Saat].
    repeat split; try reflexivity.
    + intros Hd. unfold _imbalance_amount. now rewrite Hd.
    + intros d Hd Hpos. unfold _imbalance_amount. rewrite Hd. cbn [Num.isna Num.geb].
      now destruct (Qcleb_spec 0 d).
    + intros d Hd Hneg. unfold _imbalance_amount. rewrite Hd. cbn [Num.isna Num.geb].
      destruct (Qcleb_spec 0 d) as [Hle|_]; [|reflexivity].
      exfalso. eapply Qclt_not_le; eassumption.
    + intros [->| ->]; reflexivity.
    + intros u -> Hu. unfold _unit_cost.
      now destruct (Qceqb_spec u 0).
  - intros dt tarih saat ptf smf kgup uretim. cbv zeta.
    unfold derive, known_row, Num.to_numeric, _imbalance_amount, _unit_cost;
      cbn -[Qcplus Qcmult Qcminus Qcdiv Q2Qc Num.Qcleb Num.Qceqb Num.Qcmin Num.Qcmax].
    repeat split; try reflexivity.
    + now destruct (Num.Qcleb 0 (uretim - kgup)).
    + now destruct (Num.Qcleb 0 (uretim - kgup)).
    + now destruct (Num.Qcleb 0 (uretim - kgup)).
    + destruct (Num.Qceqb uretim 0); [reflexivity|].
      now destruct (Num.Qcleb 0 (uretim - kgup)).
  - intros dt tarih saat. cbv zeta. repeat split; qc_eval.
  - intros j Hj. unfold derive, Num.to_numeric. cbn [Birim_DM]. now rewrite Hj.
Qed.

Lemma settlement_columns_witness :
  exists out r,
    build_plant_dataframe [example_hour] [example_hour] [example_hour] [example_hour]
    = inr out
    /\ In r out
    /\ Net_Gelir r = Num.add (GOP_Geliri r) (Dengesizlik_Tutarı r).
Proof.
  exists [derive (mk_joined (t_datetime example_hour) (t_Tarih example_hour)
                    (t_Saat example_hour) (t_value example_hour) (t_value example_hour)
                    (t_value example_hour) (t_value example_hour))].
  eexists. split; [reflexivity|]. split; [left; reflexivity|].
  apply (proj1 settlement_columns [example_hour] [example_hour] [example_hour]
           [example_hour] _ _ eq_refl).
  left; reflexivity.
Defined.

End Settlement.

(** * MonthlyAggregator: the summary table *)

Section MonthlySummary.
Import Calendar EpiasClient StreamlitApp Examples.

Lemma filter_no_match {A} (f : A -> bool) (l : list A) :
  existsb f l = false -> List.filter f l = [].
Proof.
  induction l as [|x l IH]; [reflexivity|].
  cbn [existsb List.filter]. intros E. apply orb_false_elim in E as [Ex El].
  rewrite Ex. now apply IH.
Qed.

Lemma group_sum_filter df col m :
  group_sum df col m = Num.sum (map col (List.filter (in_month m) df)).
Proof.
  unfold group_sum. destruct (existsb (in_month m) df) eqn:E; [reflexivity|].
  now rewrite (filter_no_match _ _ E).
Qed.

Lemma group_sum_empty_month df col m :
  List.filter (in_month m) df = [] -> group_sum df col m = 0%Qc.
Proof. intros H. now rewrite group_sum_filter, H. Qed.

Lemma group_sum_cons r df col m :
  group_sum (r :: df) col m
  = ((if in_month m r then Num.nan_to_zero (col r) else 0) + group_sum df col m)%Qc.
Proof.
  rewrite !group_sum_filter. cbn [List.filter]. destruct (in_month m r); cbn [map Num.sum fold_right Num.nan_to_zero].
  - destruct (col r); simpl; [reflexivity | now rewrite Qcplus_0_l].
  - now rewrite Qcplus_0_l.
Qed.

Lemma Qc_sum_map_plus {A} (f g : A -> Qc) (l : list A) :
  Qc_sum (map (fun x => (f x + g x)%Qc) l) = (Qc_sum (map f l) + Qc_sum (map g l))%Qc.
Proof.
  induction l as [|x l IH]; simpl; [now rewrite Qcplus_0_l|].
  rewrite IH. ring.
Qed.

(** A row of a month 1..12 is counted by exactly one of the twelve groups. *)
Lemma one_month_of_twelve (r : HourlyRow) (v : Qc) a :
  Ay r = Some a -> 1 <= a <= 12 ->
  Qc_sum (map (fun m => if in_month m r then v else 0%Qc) months) = v.
Proof.
  intros Ha Hrange. unfold in_month. rewrite Ha.
  assert (H : a = 1 \/ a = 2 \/ a = 3 \/ a = 4 \/ a = 5 \/ a = 6 \/ a = 7 \/ a = 8
              \/ a = 9 \/ a = 10 \/ a = 11 \/ a = 12) by lia.
  repeat destruct H as [-> | H]; try subst a; simpl; ring.
Qed.

(** The twelve zero-filled monthly sums add up to the year total. *)
Lemma monthly_sums_add_up df col :
  Forall (fun r => exists a, Ay r = Some a /\ 1 <= a <= 12) df ->
  Qc_sum (map (group_sum df col) months) = Num.sum (map col df).
Proof.
  induction 1 as [|r df (a & Ha & Hrange) _ IH].
  - reflexivity.
  - rewrite (map_ext _ _ (group_sum_cons r df col)).
    rewrite (Qc_sum_map_plus (fun m => if in_month m r then Num.nan_to_zero (col r) else 0%Qc)).
    rewrite (one_month_of_twelve r _ a Ha Hrange), IH.
    simpl. destruct (col r); simpl; [reflexivity | now rewrite Qcplus_0_l].
Qed.

Lemma months_nth (i : nat) :
  (i < 12)%nat -> nth_error months i = Some (Z.of_nat (S i)).
Proof.
  intros Hi. do 12 (destruct i as [|i]; [reflexivity|]). lia.
Qed.

Lemma summary_month_row df (i : nat) :
  (i < 12)%nat ->
  nth_error (build_monthly_summary df) i = Some (month_row df (Z.of_nat (S i))).
Proof.
  intros Hi. unfold build_monthly_summary.
  rewrite nth_error_app1 by (rewrite length_map; exact Hi).
  rewrite nth_error_map, months_nth by exact Hi. reflexivity.
Qed.

Lemma summary_total_row df :
  nth_error (build_monthly_summary df) 12
  = Some (total_row (map (month_row df) months)).
Proof. reflexivity. Qed.

Lemma summary_firstn df :
  firstn 12 (build_monthly_summary df) = map (month_row df) months.
Proof. reflexivity. Qed.

(** C5. For every hourly table, [build_monthly_summary] returns exactly 13
    rows: rows 1..12 are the months 1..12 in order, each holding the
    NaN-skipping sums of that month's rows (all sums and both ratios 0 for a
    month without rows) and its two unit ratios; row 13 is the "Toplam" row,
    whose summed columns are the sums of the twelve monthly values and whose
    two unit ratios are recomputed from the totals, each 0 when the URETIM
    total is 0.  When every row belongs to a month 1..12 the totals are the
    sums over the whole table.  The ratio of the totals is not the mean of
    the monthly ratios. *)
Theorem monthly_summary_rows_and_total :
  forall df : list HourlyRow,
    let out := build_monthly_summary df in
    let monthly := firstn 12 out in
    length out = 13%nat
    /\ (forall i, (i < 12)%nat ->
          exists row, nth_error out i = Some row
            /\ s_Ay row = AyMonth (Z.of_nat (S i))
            /\ s_URETIM row = Num.sum (map URETIM (List.filter (in_month (Z.of_nat (S i))) df))
            /\ s_Dengesizlik row
               = Num.sum (map Dengesizlik (List.filter (in_month (Z.of_nat (S i))) df))
            /\ s_GOP_Geliri row
               = Num.sum (map GOP_Geliri (List.filter (in_month (Z.of_nat (S i))) df))
            /\ s_Dengesizlik_Tutarı row
               = Num.sum (map Dengesizlik_Tutarı (List.filter (in_month (Z.of_nat (S i))) df))
            /\ s_Net_Gelir row = Num.sum (map Net_Gelir (List.filter (in_month (Z.of_nat (S i))) df))
            /\ s_Dengesizlik_Maliyeti row
               = Num.sum (map Dengesizlik_Maliyeti (List.filter (in_month (Z.of_nat (S i))) df))
            /\ s_Birim_Gelir row
               = (if Num.Qceqb (s_URETIM row) 0 then 0 else s_Net_Gelir row / s_URETIM row)%Qc
            /\ s_Birim_Deng_Mal row
               = (if Num.Qceqb (s_URETIM row) 0 then 0
                  else s_Dengesizlik_Maliyeti row / s_URETIM row)%Qc
            /\ (List.filter (in_month (Z.of_nat (S i))) df = [] ->
                  row = mk_summary (AyMonth (Z.of_nat (S i))) 0 0 0 0 0 0 0 0))
    /\ (exists tot, nth_error out 12 = Some tot
          /\ s_Ay tot = AyToplam
          /\ s_URETIM tot = Qc_sum (map s_URETIM monthly)
          /\ s_Dengesizlik tot = Qc_sum (map s_Dengesizlik monthly)
          /\ s_GOP_Geliri tot = Qc_sum (map s_GOP_Geliri monthly)
          /\ s_Dengesizlik_Tutarı tot = Qc_sum (map s_Dengesizlik_Tutarı monthly)
          /\ s_Net_Gelir tot = Qc_sum (map s_Net_Gelir monthly)
          /\ s_Dengesizlik_Maliyeti tot = Qc_sum (map s_Dengesizlik_Maliyeti monthly)
          /\ s_Birim_Gelir tot
             = (if Num.Qceqb (s_URETIM tot) 0 then 0 else s_Net_Gelir tot / s_URETIM tot)%Qc
          /\ s_Birim_Deng_Mal tot
             = (if Num.Qceqb (s_URETIM tot) 0 then 0
                else s_Dengesizlik_Maliyeti tot / s_URETIM tot)%Qc
          /\ (Forall (fun r => exists a, Ay r = Some a /\ 1 <= a <= 12) df ->
                s_URETIM tot = Num.sum (map URETIM df)
                /\ s_Net_Gelir tot = Num.sum (map Net_Gelir df)
                /\ s_Dengesizlik_Maliyeti tot = Num.sum (map Dengesizlik_Maliyeti df)))
    /\ (exists df' tot,
          nth_error (build_monthly_summary df') 12 = Some tot
          /\ s_Birim_Gelir tot
             <> (Qc_sum (map s_Birim_Gelir (firstn 12 (build_monthly_summary df'))) / Q2Qc 12)%Qc).
Proof.
  intros df out monthly. subst out monthly. rewrite summary_firstn.
  split; [reflexivity|]. split; [|split].
  - intros i Hi. exists (month_row df (Z.of_nat (S i))).
    split; [now apply summary_month_row|].
    unfold month_row; cbn [s_Ay s_URETIM s_Dengesizlik s_GOP_Geliri s_Dengesizlik_Tutarı
                           s_Net_Gelir s_Dengesizlik_Maliyeti s_Birim_Gelir s_Birim_Deng_Mal].
    repeat split; try (apply group_sum_filter); try reflexivity.
    intros Hempty. rewrite !(group_sum_empty_month _ _ _ Hempty). reflexivity.
  - exists (total_row (map (month_row df) months)).
    split; [apply summary_total_row|].
    unfold total_row; cbn [s_Ay s_URETIM s_Dengesizlik s_GOP_Geliri s_Dengesizlik_Tutarı
                           s_Net_Gelir s_Dengesizlik_Maliyeti s_Birim_Gelir s_Birim_Deng_Mal].
    repeat split; try reflexivity.
    + now destruct (Num.Qceqb _ 0).
    + now destruct (Num.Qceqb _ 0).
    + rewrite map_map. cbn [month_row s_URETIM]. now apply monthly_sums_add_up.
    + rewrite map_map. cbn [month_row s_Net_Gelir]. now apply monthly_sums_add_up.
    + rewrite map_map. cbn [month_row s_Dengesizlik_Maliyeti]. now apply monthly_sums_add_up.
  - exists two_month_table. eexists. split; [apply summary_total_row|].
    intros Heq. apply (f_equal this) in Heq. vm_compute in Heq. discriminate.
Qed.

Lemma monthly_summary_rows_and_total_witness :
  exists row,
    nth_error (build_monthly_summary two_month_table) 1 = Some row
    /\ s_Ay row = AyMonth 2
    /\ s_URETIM row = Q2Qc 3.
Proof.
  destruct (proj1 (proj2 (monthly_summary_rows_and_total two_month_table)) 1%nat)
    as (row & Hrow & Hay & Hu & _); [lia|].
  exists row. split; [exact Hrow|]. split; [exact Hay|].
  rewrite Hu. apply Qc_is_canon. reflexivity.
Defined.

End MonthlySummary.

(** * MonthlyAggregator: the extended KPIs *)

Section MonthlyExtras.
Import Calendar EpiasClient StreamlitApp Examples.

Lemma filter_and_empty {A} (f g : A -> bool) (l : list A) :
  List.filter f l = [] -> List.filter (fun x => f x && g x) l = [].
Proof.
  induction l as [|x l IH]; [reflexivity|].
  cbn [List.filter]. destruct (f x); [discriminate|]. exact IH.
Qed.

Lemma sum_where_empty mask col df :
  List.filter mask df = [] -> sum_where mask col df = 0%Qc.
Proof. unfold sum_where. now intros ->. Qed.

Lemma pct_of_zero_num den : pct_of 0 den = 0%Qc.
Proof.
  unfold pct_of. destruct (Num.Qcltb 0 den); [|reflexivity].
  unfold Qcdiv. now rewrite !Qcmult_0_l.
Qed.

Lemma pct_of_zero_den num : pct_of num 0 = 0%Qc.
Proof. reflexivity. Qed.

Lemma existsb_filter_empty {A} (f : A -> bool) (l : list A) :
  List.filter f l = [] -> existsb f l = false.
Proof.
  induction l as [|x l IH]; [reflexivity|].
  cbn [List.filter existsb]. destruct (f x); [discriminate|]. exact IH.
Qed.

(** The eleven vectors, as stored under their keys. *)
Lemma extras_lookup df :
  let ex := compute_monthly_extras df in
  ex !! "accuracy_pct" = Some (map (fun m => KFloat (accuracy df m)) months)
  /\ ex !! "asym_ratio" = Some (map (fun m => opt_kpi (asym df m)) months)
  /\ ex !! "capacity_factor_pct" = Some (map (fun m => KFloat (capacity_factor df m)) months)
  /\ ex !! "top5_dm_tl" = Some (map (fun m => KFloat (top5 df m)) months)
  /\ ex !! "top5_dm_share_pct" = Some (map (fun m => KFloat (top5_share df m)) months)
  /\ ex !! "revenue_share_pct" = Some (map (fun m => KFloat (revenue_share df m)) months)
  /\ ex !! "pos_share_pct" = Some (map (fun m => KFloat (pos_share df m)) months)
  /\ ex !! "neg_share_pct" = Some (map (fun m => KFloat (neg_share df m)) months)
  /\ ex !! "prod_hours" = Some (map (fun m => KInt (prod_h df m)) months)
  /\ ex !! "prod_hours_share_pct" = Some (map (fun m => KFloat (prod_hours_share df m)) months)
  /\ ex !! "prod_share_pct" = Some (map (fun m => KFloat (prod_share df m)) months).
Proof.
  cbv zeta. unfold compute_monthly_extras.
  repeat split; simplify_map_eq; reflexivity.
Qed.

Lemma extras_size df : size (compute_monthly_extras df) = 11%nat.
Proof.
  unfold compute_monthly_extras.
  repeat (rewrite map_size_insert_None; [|simplify_map_eq; reflexivity]).
  now rewrite map_size_empty.
Qed.

Lemma extras_vector_length df k v :
  compute_monthly_extras df !! k = Some v -> length v = 12%nat.
Proof.
  unfold compute_monthly_extras. intros H.
  repeat (apply lookup_insert_Some in H as [[_ <-] | [_ H]]; [now rewrite length_map|]).
  now rewrite lookup_empty in H.
Qed.

(** *** A month without rows *)

Section EmptyMonth.
Variable df : list HourlyRow.
Variable m : Z.
Hypothesis no_rows : List.filter (in_month m) df = [].

Lemma accuracy_empty : accuracy df m = 0%Qc.
Proof using no_rows. unfold accuracy. now rewrite !sum_where_empty. Qed.

Lemma asym_empty : asym df m = None.
Proof using no_rows.
  unfold asym, neg_dm. now rewrite sum_where_empty by now apply filter_and_empty.
Qed.

Lemma capacity_factor_empty : capacity_factor df m = 0%Qc.
Proof using no_rows.
  unfold capacity_factor, potential, max_kgup.
  rewrite existsb_filter_empty by exact no_rows.
  cbn [Num.mul Num.lift2 Num.of_Z].
  replace (0 * Q2Qc (inject_Z 24) * Q2Qc (inject_Z (nth (Z.to_nat (m - 1)) days_2024 0%Z)))%Qc
    with 0%Qc by ring.
  reflexivity.
Qed.

Lemma top5_empty : top5 df m = 0%Qc.
Proof using no_rows. unfold top5. now rewrite no_rows. Qed.

Lemma top5_share_empty : top5_share df m = 0%Qc.
Proof using no_rows. unfold top5_share. now rewrite no_rows. Qed.

Lemma revenue_share_empty : revenue_share df m = 0%Qc.
Proof using no_rows.
  unfold revenue_share. rewrite sum_where_empty by exact no_rows. apply pct_of_zero_num.
Qed.

Lemma pos_share_empty : pos_share df m = 0%Qc.
Proof using no_rows.
  unfold pos_share. rewrite sum_where_empty by now apply filter_and_empty.
  apply pct_of_zero_num.
Qed.

Lemma neg_share_empty : neg_share df m = 0%Qc.
Proof using no_rows.
  unfold neg_share. rewrite sum_where_empty by now apply filter_and_empty.
  apply pct_of_zero_num.
Qed.

Lemma prod_h_empty : prod_h df m = 0.
Proof using no_rows. unfold prod_h. now rewrite no_rows. Qed.

Lemma prod_hours_share_empty : prod_hours_share df m = 0%Qc.
Proof using no_rows.
  unfold prod_hours_share. rewrite prod_h_empty.
  destruct (0 <? total_prod_hours df); [|reflexivity].
  unfold Qcdiv. change (Qc_of_Z 0) with 0%Qc. now rewrite !Qcmult_0_l.
Qed.

Lemma prod_share_empty : prod_share df m = 0%Qc.
Proof using no_rows.
  unfold prod_share, month_prod. rewrite sum_where_empty by exact no_rows.
  apply pct_of_zero_num.
Qed.

End EmptyMonth.

(** C10. For every hourly table, [compute_monthly_extras] returns exactly 11
    KPI vectors, each of length exactly 12; the entry at position i (from 0)
    of each vector is the KPI of calendar month i + 1, whichever months occur
    in the table; and a month without rows gets the default of its KPI: the
    undefined marker for the cost-asymmetry ratio, 0 everywhere else. *)
Theorem monthly_extras_shape :
  forall df : list HourlyRow,
    let ex := compute_monthly_extras df in
    size ex = 11%nat
    /\ (forall k v, ex !! k = Some v -> length v = 12%nat)
    /\ (ex !! "accuracy_pct" = Some (map (fun m => KFloat (accuracy df m)) months)
        /\ ex !! "asym_ratio" = Some (map (fun m => opt_kpi (asym df m)) months)
        /\ ex !! "capacity_factor_pct" = Some (map (fun m => KFloat (capacity_factor df m)) months)
        /\ ex !! "top5_dm_tl" = Some (map (fun m => KFloat (top5 df m)) months)
        /\ ex !! "top5_dm_share_pct" = Some (map (fun m => KFloat (top5_share df m)) months)
        /\ ex !! "revenue_share_pct" = Some (map (fun m => KFloat (revenue_share df m)) months)
        /\ ex !! "pos_share_pct" = Some (map (fun m => KFloat (pos_share df m)) months)
        /\ ex !! "neg_share_pct" = Some (map (fun m => KFloat (neg_share df m)) months)
        /\ ex !! "prod_hours" = Some (map (fun m => KInt (prod_h df m)) months)
        /\ ex !! "prod_hours_share_pct"
           = Some (map (fun m => KFloat (prod_hours_share df m)) months)
        /\ ex !! "prod_share_pct" = Some (map (fun m => KFloat (prod_share df m)) months))
    /\ months = [1; 2; 3; 4; 5; 6; 7; 8; 9; 10; 11; 12]
    /\ (forall k v i,
          ex !! k = Some v -> (i < 12)%nat ->
          List.filter (in_month (Z.of_nat (S i))) df = [] ->
          nth_error v i = Some (default_kpi k)).
Proof.
  intros df ex. subst ex.
  split; [apply extras_size|].
  split; [apply extras_vector_length|].
  split; [apply extras_lookup|].
  split; [reflexivity|].
  intros k v i Hk Hi Hempty.
  unfold compute_monthly_extras in Hk.
  repeat (apply lookup_insert_Some in Hk as [[<- <-] | [_ Hk]];
          [ rewrite nth_error_map, months_nth by exact Hi;
            cbv [default_kpi String.eqb Ascii.eqb Bool.eqb option_map];
            first [ now rewrite asym_empty
                  | do 2 f_equal;
                    auto using prod_share_empty, prod_hours_share_empty, prod_h_empty,
                      neg_share_empty, pos_share_empty, revenue_share_empty,
                      top5_share_empty, top5_empty, capacity_factor_empty, accuracy_empty ]
          | ]).
  now rewrite lookup_empty in Hk.
Qed.

Lemma monthly_extras_shape_witness :
  exists v,
    compute_monthly_extras two_month_table !! "asym_ratio" = Some v
    /\ length v = 12%nat
    /\ nth_error v 2 = Some KNone.
Proof.
  pose proof (monthly_extras_shape two_month_table) as (_ & Hlen & Hvec & _ & Hdef).
  destruct Hvec as (_ & Hasym & _).
  eexists. split; [exact Hasym|]. split.
  - exact (Hlen _ _ Hasym).
  - exact (Hdef "asym_ratio" _ 2%nat Hasym ltac:(lia) eq_refl).
Defined.

Lemma extras_entry_month df k f (i : nat) :
  compute_monthly_extras df !! k = Some (map f months) ->
  (i < 12)%nat ->
  extras_entry df k i = Some (f (Z.of_nat (S i))).
Proof.
  intros Hk Hi. unfold extras_entry. rewrite Hk, nth_error_map, months_nth by exact Hi.
  reflexivity.
Qed.

(** C7. For every month (position i < 12, month i + 1) the cost-asymmetry
    KPI is the sum of Dengesizlik_Maliyeti over the month's hours with
    Dengesizlik > 0 divided by the sum over its hours with Dengesizlik < 0;
    when that denominator is 0 the entry is the undefined marker [None], not
    0.  The other ratio KPIs are 0 when their own denominator is 0. *)
Theorem cost_asymmetry_undefined_not_zero :
  forall (df : list HourlyRow) (i : nat),
    (i < 12)%nat ->
    let m := Z.of_nat (S i) in
    let pos := Num.sum (map Dengesizlik_Maliyeti
                 (List.filter (fun r => in_month m r && Num.gtb (Dengesizlik r) 0) df)) in
    let neg := Num.sum (map Dengesizlik_Maliyeti
                 (List.filter (fun r => in_month m r && Num.ltb (Dengesizlik r) 0) df)) in
    (neg = 0%Qc -> extras_entry df "asym_ratio" i = Some KNone)
    /\ (neg <> 0%Qc -> extras_entry df "asym_ratio" i = Some (KFloat (pos / neg)))
    /\ (sum_where (in_month m) KGUP df = 0%Qc ->
          extras_entry df "accuracy_pct" i = Some (KFloat 0))
    /\ (potential df m = Some 0%Qc ->
          extras_entry df "capacity_factor_pct" i = Some (KFloat 0))
    /\ (sum_where (in_month m) Dengesizlik_Maliyeti df = 0%Qc ->
          extras_entry df "top5_dm_share_pct" i = Some (KFloat 0))
    /\ (total_revenue df = 0%Qc -> extras_entry df "revenue_share_pct" i = Some (KFloat 0))
    /\ (total_pos_vol df = 0%Qc -> extras_entry df "pos_share_pct" i = Some (KFloat 0))
    /\ (total_neg_vol df = 0%Qc -> extras_entry df "neg_share_pct" i = Some (KFloat 0))
    /\ (total_prod_hours df = 0 -> extras_entry df "prod_hours_share_pct" i = Some (KFloat 0))
    /\ (total_production df = 0%Qc -> extras_entry df "prod_share_pct" i = Some (KFloat 0)).
Proof.
  intros df i Hi m pos neg.
  pose proof (extras_lookup df) as
    (Hacc & Hasym & Hcap & _ & Htop & Hrev & Hpos & Hneg & _ & Hph & Hps).
  assert (Hasym_i : extras_entry df "asym_ratio" i
                    = Some (if Num.Qceqb neg 0 then KNone else KFloat (pos / neg))).
  { rewrite (extras_entry_month _ _ _ _ Hasym Hi). f_equal.
    unfold asym, neg_dm, pos_dm, sum_where, pos_imb, neg_imb. fold m. fold pos. fold neg.
    now destruct (Num.Qceqb neg 0). }
  repeat split.
  - intros Hz. rewrite Hasym_i. now destruct (Qceqb_spec neg 0).
  - intros Hnz. rewrite Hasym_i. now destruct (Qceqb_spec neg 0).
  - intros Hz. rewrite (extras_entry_month _ _ _ _ Hacc Hi). do 2 f_equal.
    unfold accuracy. fold m. now rewrite Hz.
  - intros Hz. rewrite (extras_entry_month _ _ _ _ Hcap Hi). do 2 f_equal.
    unfold capacity_factor. fold m. now rewrite Hz.
  - intros Hz. rewrite (extras_entry_month _ _ _ _ Htop Hi). do 2 f_equal.
    unfold top5_share. fold m. unfold sum_where in Hz.
    destruct (List.filter (in_month m) df) as [|r monthly]; [reflexivity|].
    rewrite Hz. apply pct_of_zero_den.
  - intros Hz. rewrite (extras_entry_month _ _ _ _ Hrev Hi). do 2 f_equal.
    unfold revenue_share. rewrite Hz. apply pct_of_zero_den.
  - intros Hz. rewrite (extras_entry_month _ _ _ _ Hpos Hi). do 2 f_equal.
    unfold pos_share. rewrite Hz. apply pct_of_zero_den.
  - intros Hz. rewrite (extras_entry_month _ _ _ _ Hneg Hi). do 2 f_equal.
    unfold neg_share. rewrite Hz. apply pct_of_zero_den.
  - intros Hz. rewrite (extras_entry_month _ _ _ _ Hph Hi). do 2 f_equal.
    unfold prod_hours_share. now rewrite Hz.
  - intros Hz. rewrite (extras_entry_month _ _ _ _ Hps Hi). do 2 f_equal.
    unfold prod_share. rewrite Hz. apply pct_of_zero_den.
Qed.

(** In [asymmetry_table] January has cost on over-generation hours only. *)
Lemma cost_asymmetry_undefined_not_zero_witness :
  (0 < 12)%nat
  /\ extras_entry asymmetry_table "asym_ratio" 0 = Some KNone
  /\ extras_entry asymmetry_table "asym_ratio" 1 = Some (KFloat (Q2Qc 2)).
Proof.
  split; [lia|]. split.
  - apply (proj1 (cost_asymmetry_undefined_not_zero asymmetry_table 0 ltac:(lia))).
    reflexivity.
  - replace (Q2Qc 2) with (Q2Qc 8 / Q2Qc 4)%Qc by (apply Qc_is_canon; reflexivity).
    refine (eq_trans
      (proj1 (proj2 (cost_asymmetry_undefined_not_zero asymmetry_table 1 ltac:(lia))) _) _).
    + intros H. apply (f_equal this) in H. vm_compute in H. discriminate.
    + do 2 f_equal; apply Qc_is_canon; reflexivity.
Defined.

Lemma days_2024_table (i : nat) :
  (i < 12)%nat ->
  nth (Z.to_nat (Z.of_nat (S i) - 1)) days_2024 0 = days_in_month 2024 (Z.of_nat (S i)).
Proof.
  intros Hi. do 12 (destruct i as [|i]; [reflexivity|]). lia.
Qed.

(** C8, as the code has it.  For every month (position i < 12, month
    m = i + 1) the capacity-factor KPI is
    (sum of the month's URETIM) / (max of the month's KGUP x 24 x days) x 100
    when that denominator is positive and 0 otherwise (also when every KGUP
    of the month is unknown), where [days] is read from a fixed table of the
    month lengths of the year 2024 (29 for February), whatever the year of
    the rows. *)
Theorem capacity_factor_uses_2024_table :
  forall (df : list HourlyRow) (i : nat),
    (i < 12)%nat ->
    let m := Z.of_nat (S i) in
    let monthly := List.filter (in_month m) df in
    let prod := Num.sum (map URETIM monthly) in
    let max_k := match monthly with [] => Some 0%Qc | _ => Num.max (map KGUP monthly) end in
    (forall k, max_k = Some k ->
       let den := (k * Qc_of_Z 24 * Qc_of_Z (days_in_month 2024 m))%Qc in
       ((0 < den)%Qc ->
          extras_entry df "capacity_factor_pct" i = Some (KFloat (prod / den * hundred)))
       /\ ((den <= 0)%Qc ->
          extras_entry df "capacity_factor_pct" i = Some (KFloat 0)))
    /\ (max_k = None -> extras_entry df "capacity_factor_pct" i = Some (KFloat 0)).
Proof.
  intros df i Hi m monthly prod max_k.
  pose proof (extras_lookup df) as (_ & _ & Hcap & _).
  rewrite (extras_entry_month _ _ _ _ Hcap Hi). fold m.
  assert (Hmax : max_kgup df m = max_k).
  { unfold max_kgup, max_k, monthly.
    destruct (existsb (in_month m) df) eqn:E.
    - destruct (List.filter (in_month m) df) eqn:F; [|reflexivity].
      now rewrite (existsb_filter_empty _ _ F) in E.
    - now rewrite (filter_no_match _ _ E). }
  assert (Hdays : nth (Z.to_nat (m - 1)) days_2024 0 = days_in_month 2024 m)
    by (apply days_2024_table; exact Hi).
  unfold capacity_factor, potential, month_prod, sum_where. rewrite Hmax, Hdays.
  fold monthly. fold prod.
  split.
  - intros k Hk. rewrite Hk. cbv zeta. cbn [Num.mul Num.lift2 Num.of_Z]. fold (Qc_of_Z 24).
    fold (Qc_of_Z (days_in_month 2024 m)).
    set (den := (k * Qc_of_Z 24 * Qc_of_Z (days_in_month 2024 m))%Qc).
    destruct (Qcltb_spec 0 den) as [Hlt|Hnlt]; split; intros Hden; try reflexivity.
    + exfalso. eapply Qclt_not_le; eassumption.
    + contradiction.
  - intros Hk. rewrite Hk. reflexivity.
Qed.

Lemma capacity_factor_uses_2024_table_witness :
  (1 < 12)%nat
  /\ extras_entry feb_2023_table "capacity_factor_pct" 1
     = Some (KFloat (Q2Qc 672 / (Q2Qc 1 * Qc_of_Z 24 * Qc_of_Z 29) * hundred)%Qc).
Proof.
  split; [lia|].
  apply (proj1 (proj1 (capacity_factor_uses_2024_table feb_2023_table 1 ltac:(lia))
                  (Q2Qc 1) eq_refl)).
  reflexivity.
Defined.

(** C8 as stated fails: a table of February 2023 (28 days) whose plant ran
    at its full plan for every hour of the month has capacity factor 100 by
    the month's real length, and the code reports 2800/29. *)
Lemma capacity_factor_not_leap_year_aware :
  Forall (fun r => option_map (substring 0 4) (Tarih r) = Some "2023") feb_2023_table
  /\ days_in_month 2023 2 = 28
  /\ capacity_factor_in_year 2023 feb_2023_table 2 = hundred
  /\ extras_entry feb_2023_table "capacity_factor_pct" 1 = Some (KFloat (Q2Qc (2800 # 29)))
  /\ Q2Qc (2800 # 29) <> hundred.
Proof.
  split; [repeat constructor|]. split; [reflexivity|].
  split; [apply Qc_is_canon; reflexivity|].
  split.
  - pose proof (extras_lookup feb_2023_table) as (_ & _ & Hcap & _).
    rewrite (extras_entry_month _ _ _ 1%nat Hcap ltac:(lia)).
    do 2 f_equal; try (apply Qc_is_canon; reflexivity).
  - intros H. apply (f_equal this) in H. vm_compute in H. discriminate.
Qed.

End MonthlyExtras.
(** * TimeKeyNormalizer *)

Section TimeKey.
Import Calendar EpiasClient Examples.

(** The matcher returns the matched text: an instance of the pattern that
    starts the subject. *)
Lemma match_prefix_spec (p : list pat) :
  forall s m,
    match_prefix p s = Some m <->
    has_shape p m = true /\ exists rest, s = (m ++ rest)%string.
Proof.
  induction p as [|x p IH]; intros s m; simpl.
  - split.
    + intros [= <-]. split; [reflexivity|]. now exists s.
    + intros [Hm _]. destruct m; [reflexivity | discriminate].
  - destruct s as [|c s].
    + split; [discriminate|]. intros [Hm [rest Hs]].
      destruct m; [discriminate | discriminate].
    + destruct (accepts x c) eqn:Hc.
      * destruct (match_prefix p s) as [m'|] eqn:Hm'; simpl.
        -- apply IH in Hm' as [Hshape [rest ->]]. split.
           ++ intros [= <-]. simpl. rewrite Hc, Hshape. split; [reflexivity|]. now exists rest.
           ++ intros [Hm [rest' Hs]]. destruct m as [|c' m]; [discriminate|].
              simpl in Hs. injection Hs as <- Hs.
              apply andb_prop in Hm as [_ Hm].
              assert (H2 : match_prefix p (m' ++ rest) = Some m)
                by (apply IH; split; [exact Hm | now exists rest']).
              assert (H1 : match_prefix p (m' ++ rest) = Some m')
                by (apply IH; split; [exact Hshape | now exists rest]).
              congruence.
        -- split; [discriminate|]. intros [Hm [rest' Hs]].
           destruct m as [|c' m]; [discriminate|].
           simpl in Hs. injection Hs as <- ->.
           apply andb_prop in Hm as [_ Hm].
           assert (H2 : match_prefix p (m ++ rest') = Some m)
             by (apply IH; split; [exact Hm | now exists rest']).
           congruence.
      * split; [discriminate|]. intros [Hm [rest' Hs]].
        destruct m as [|c' m]; [discriminate|].
        simpl in Hs. injection Hs as <- ->.
        apply andb_prop in Hm as [Hc' _]. congruence.
Qed.

Lemma has_shape_length (p : list pat) :
  forall m, has_shape p m = true -> String.length m = length p.
Proof.
  induction p as [|x p IH]; intros [|c m] H; try discriminate; [reflexivity|].
  simpl in *. apply andb_prop in H as [_ H]. now rewrite (IH m H).
Qed.

(** The unanchored search returns an instance of [HH:MM] that follows a
    [T] in the subject; it fails only when no [T] is followed by one. *)
Lemma extract_T_hm_some (s h : string) :
  extract_T_hm s = Some h ->
  has_shape hm_pattern h = true
  /\ exists pre rest, s = (pre ++ "T" ++ h ++ rest)%string.
Proof.
  induction s as [|c s IH]; [discriminate|].
  cbn [extract_T_hm].
  destruct (Ascii.eqb c "T") eqn:Hc.
  - destruct (match_prefix hm_pattern s) as [h'|] eqn:Hm.
    + intros [= <-]. apply match_prefix_spec in Hm as [Hshape [rest ->]].
      apply Ascii.eqb_eq in Hc as ->.
      split; [exact Hshape|]. now exists EmptyString, rest.
    + intros H. destruct (IH H) as [Hshape (pre & rest & ->)].
      split; [exact Hshape|]. now exists (String c pre), rest.
  - intros H. destruct (IH H) as [Hshape (pre & rest & ->)].
    split; [exact Hshape|]. now exists (String c pre), rest.
Qed.

Lemma extract_T_hm_none (s : string) :
  extract_T_hm s = None ->
  forall pre h rest,
    s = (pre ++ "T" ++ h ++ rest)%string -> has_shape hm_pattern h = false.
Proof.
  induction s as [|c s IH]; intros Hnone pre h rest Hs.
  - destruct pre; discriminate.
  - cbn [extract_T_hm] in Hnone.
    destruct pre as [|c' pre].
    + simpl in Hs. injection Hs as -> ->. rewrite Ascii.eqb_refl in Hnone.
      destruct (match_prefix hm_pattern (h ++ rest)) as [h'|] eqn:Hm; [discriminate|].
      destruct (has_shape hm_pattern h) eqn:Hshape; [|reflexivity].
      assert (match_prefix hm_pattern (h ++ rest) = Some h)
        by (apply match_prefix_spec; split; [exact Hshape | now exists rest]).
      congruence.
    + simpl in Hs. injection Hs as -> ->.
      apply (IH) with (pre := pre) (rest := rest); [|reflexivity].
      destruct (if Ascii.eqb c' "T" then _ else _); [discriminate | exact Hnone].
Qed.

Lemma append_same_length (a b x y : string) :
  (a ++ x)%string = (b ++ y)%string -> String.length a = String.length b ->
  a = b /\ x = y.
Proof.
  revert b. induction a as [|c a IH]; intros [|c' b] H Hlen; try discriminate.
  - split; [reflexivity | exact H].
  - cbn [String.append] in H. injection H as -> H.
    cbn [String.length] in Hlen. injection Hlen as Hlen.
    destruct (IH b H Hlen) as [-> ->]. split; reflexivity.
Qed.

(** The search is leftmost: the match it returns follows the first [T] of
    the subject that is followed by an instance of [HH:MM]. *)
Lemma extract_T_hm_first (s h : string) :
  extract_T_hm s = Some h ->
  exists pre rest,
    s = (pre ++ "T" ++ h ++ rest)%string
    /\ has_shape hm_pattern h = true
    /\ forall pre' h' rest',
         s = (pre' ++ "T" ++ h' ++ rest')%string -> has_shape hm_pattern h' = true ->
         (String.length pre <= String.length pre')%nat.
Proof.
  induction s as [|c s IH]; [discriminate|].
  cbn [extract_T_hm].
  destruct (if Ascii.eqb c "T" then match_prefix hm_pattern s else None) as [h0|] eqn:Hhere.
  - intros [= <-].
    destruct (Ascii.eqb c "T") eqn:Hc; [|discriminate].
    apply Ascii.eqb_eq in Hc as ->.
    apply match_prefix_spec in Hhere as [Hshape [rest ->]].
    exists EmptyString, rest. split; [reflexivity|]. split; [exact Hshape|].
    intros pre' h' rest' _ _. cbn [String.length]. lia.
  - intros H. destruct (IH H) as (pre & rest & -> & Hshape & Hfirst).
    exists (String c pre), rest. split; [reflexivity|]. split; [exact Hshape|].
    intros [|c' pre'] h' rest' Hs Hshape'.
    + exfalso. cbn [String.append] in Hs. injection Hs as -> Hs.
      rewrite Ascii.eqb_refl in Hhere.
      assert (Hm : match_prefix hm_pattern (pre ++ "T" ++ h ++ rest) = Some h')
        by (apply match_prefix_spec; split; [exact Hshape' | now exists rest']).
      congruence.
    + cbn [String.append] in Hs. injection Hs as _ Hs.
      cbn [String.length]. pose proof (Hfirst pre' h' rest' Hs Hshape'). lia.
Qed.

(** Two leftmost matches are the same match. *)
Lemma first_T_hm_unique (s pre h rest pre0 h0 rest0 : string) :
  s = (pre ++ "T" ++ h ++ rest)%string -> has_shape hm_pattern h = true ->
  s = (pre0 ++ "T" ++ h0 ++ rest0)%string -> has_shape hm_pattern h0 = true ->
  String.length pre = String.length pre0 ->
  h = h0.
Proof.
  intros -> Hh Hs Hh0 Hlen.
  destruct (append_same_length _ _ _ _ Hs Hlen) as [_ Htail].
  cbn [String.append] in Htail. injection Htail as Htail.
  apply has_shape_length in Hh. apply has_shape_length in Hh0.
  destruct (append_same_length h h0 rest rest0 Htail) as [Heq _]; [congruence | exact Heq].
Qed.

Lemma digit_char_code (d : Z) :
  0 <= d <= 9 -> Z.of_N (N_of_ascii (digit_char d)) = 48 + d.
Proof.
  intros Hd. unfold digit_char. rewrite N_ascii_embedding; lia.
Qed.

Lemma is_digit_digit_char (d : Z) : 0 <= d <= 9 -> is_digit (digit_char d) = true.
Proof. intros Hd. unfold is_digit. rewrite digit_char_code by exact Hd. lia. Qed.

Lemma digit_val_digit_char (d : Z) : 0 <= d <= 9 -> digit_val (digit_char d) = d.
Proof. intros Hd. unfold digit_val. rewrite digit_char_code by exact Hd. lia. Qed.

Lemma digit_inv (c : ascii) :
  is_digit c = true -> digit_char (digit_val c) = c /\ 0 <= digit_val c <= 9.
Proof.
  unfold is_digit, digit_char, digit_val. intros H. split; [|lia].
  replace (48 + (Z.of_N (N_of_ascii c) - 48)) with (Z.of_N (N_of_ascii c)) by lia.
  now rewrite N2Z.id, ascii_N_embedding.
Qed.

Lemma pad_number_2 (a b : ascii) :
  is_digit a = true -> is_digit b = true ->
  pad 2 (number_of (String a (String b EmptyString))) = String a (String b EmptyString).
Proof.
  intros Ha Hb. destruct (digit_inv a Ha) as [Ea Ra], (digit_inv b Hb) as [Eb Rb].
  unfold number_of. cbn [list_ascii_of_string fold_left pad String.append].
  set (va := digit_val a) in *. set (vb := digit_val b) in *.
  replace ((0 * 10 + va) * 10 + vb) with (va * 10 + vb) by lia.
  replace ((va * 10 + vb) / 10 mod 10) with va by (Z.div_mod_to_equations; lia).
  replace ((va * 10 + vb) mod 10) with vb by (Z.div_mod_to_equations; lia).
  now rewrite Ea, Eb.
Qed.

Lemma pad_number_4 (a b c d : ascii) :
  is_digit a = true -> is_digit b = true -> is_digit c = true -> is_digit d = true ->
  pad 4 (number_of (String a (String b (String c (String d EmptyString)))))
  = String a (String b (String c (String d EmptyString))).
Proof.
  intros Ha Hb Hc Hd.
  destruct (digit_inv a Ha) as [Ea Ra], (digit_inv b Hb) as [Eb Rb],
           (digit_inv c Hc) as [Ec Rc], (digit_inv d Hd) as [Ed Rd].
  unfold number_of. cbn [list_ascii_of_string fold_left pad String.append].
  set (va := digit_val a) in *. set (vb := digit_val b) in *.
  set (vc := digit_val c) in *. set (vd := digit_val d) in *.
  set (n := (((0 * 10 + va) * 10 + vb) * 10 + vc) * 10 + vd).
  replace (n / 10 / 10 / 10 mod 10) with va by (subst n; Z.div_mod_to_equations; lia).
  replace (n / 10 / 10 mod 10) with vb by (subst n; Z.div_mod_to_equations; lia).
  replace (n / 10 mod 10) with vc by (subst n; Z.div_mod_to_equations; lia).
  replace (n mod 10) with vd by (subst n; Z.div_mod_to_equations; lia).
  now rewrite Ea, Eb, Ec, Ed.
Qed.

(** From the year 1000 on [%Y] prints four digits. *)
Lemma year_text_pad (y : Z) : 1000 <= y -> year_text y = pad 4 y.
Proof.
  intros Hy. unfold year_text.
  destruct (Z.ltb_spec y 10); [lia|].
  destruct (Z.ltb_spec y 100); [lia|].
  destruct (Z.ltb_spec y 1000); [lia|reflexivity].
Qed.

(** A text that [to_datetime] accepts is the text of the timestamp it
    returns, and that timestamp exists. *)
Lemma to_datetime_some (s : string) (dt : datetime) :
  to_datetime (Some s) = Some dt ->
  valid dt = true /\ second dt = 0 /\ strftime_minute dt = s.
Proof.
  unfold to_datetime.
  destruct (match_prefix _ s) as [m|] eqn:Hm; [|discriminate].
  destruct (String.eqb_spec m s) as [->|]; [|discriminate].
  apply match_prefix_spec in Hm as [Hshape _].
  pose proof (has_shape_length _ _ Hshape) as Hlen.
  do 16 (destruct s as [|? s]; [cbn [String.length] in Hlen; simpl in Hlen; lia|]).
  destruct s; [|cbn [String.length] in Hlen; simpl in Hlen; lia].
  clear Hlen.
  cbn [has_shape app day_pattern hm_pattern accepts] in Hshape.
  repeat (apply andb_prop in Hshape as [? Hshape]).
  repeat match goal with H : Ascii.eqb _ _ = true |- _ => apply Ascii.eqb_eq in H; subst end.
  cbn [substring].
  match goal with |- (if ?c then _ else _) = _ -> _ => destruct c eqn:Hvalid end;
    [|discriminate].
  intros [= <-]. unfold valid, strftime_minute.
  cbn [year month day hour minute second].
  split; [exact Hvalid|]. split; [reflexivity|].
  rewrite pad_number_4 by assumption. rewrite !pad_number_2 by assumption.
  reflexivity.
Qed.

Lemma days_in_month_bounds (y m : Z) : 28 <= days_in_month y m <= 31.
Proof.
  unfold days_in_month.
  destruct (m =? 2); [destruct (is_leap y); lia|].
  destruct ((m =? 4) || (m =? 6) || (m =? 9) || (m =? 11)); lia.
Qed.

Lemma number_of_2 (a b : Z) :
  0 <= a <= 9 -> 0 <= b <= 9 ->
  number_of (String (digit_char a) (String (digit_char b) EmptyString)) = a * 10 + b.
Proof.
  intros Ha Hb. unfold number_of. cbn [list_ascii_of_string fold_left].
  rewrite !digit_val_digit_char by assumption. lia.
Qed.

Lemma number_of_4 (a b c d : Z) :
  0 <= a <= 9 -> 0 <= b <= 9 -> 0 <= c <= 9 -> 0 <= d <= 9 ->
  number_of (String (digit_char a) (String (digit_char b)
              (String (digit_char c) (String (digit_char d) EmptyString))))
  = ((a * 10 + b) * 10 + c) * 10 + d.
Proof.
  intros Ha Hb Hc Hd. unfold number_of. cbn [list_ascii_of_string fold_left].
  rewrite !digit_val_digit_char by assumption. lia.
Qed.

(** The text of an existing minute is accepted and read back as written. *)
Lemma to_datetime_strftime (dt : datetime) :
  valid dt = true -> second dt = 0 ->
  to_datetime (Some (strftime_minute dt)) = Some dt.
Proof.
  destruct dt as [y mo d h mi s]. unfold valid. cbn [year month day hour minute second].
  intros Hvalid ->.
  assert (Hr : 1 <= y <= 9999 /\ 1 <= mo <= 12 /\ 1 <= d <= 31
               /\ 0 <= h <= 23 /\ 0 <= mi <= 59).
  { pose proof (days_in_month_bounds y mo). unfold valid_date, valid_time, MINYEAR, MAXYEAR in Hvalid.
    lia. }
  destruct Hr as (Hy & Hmo & Hd & Hh & Hmi).
  assert (Hdig : forall n, 0 <= n mod 10 <= 9) by (intros n; Z.div_mod_to_equations; lia).
  unfold to_datetime, strftime_minute.
  cbn [year month day hour minute pad String.append].
  cbn [match_prefix app day_pattern hm_pattern accepts].
  rewrite !is_digit_digit_char by apply Hdig.
  cbn [Ascii.eqb Bool.eqb option_map].
  rewrite String.eqb_refl. cbn [substring].
  rewrite number_of_4, !number_of_2 by apply Hdig.
  replace (((y / 10 / 10 / 10 mod 10 * 10 + y / 10 / 10 mod 10) * 10 + y / 10 mod 10) * 10
           + y mod 10) with y by (Z.div_mod_to_equations; lia).
  replace (mo / 10 mod 10 * 10 + mo mod 10) with mo by (Z.div_mod_to_equations; lia).
  replace (d / 10 mod 10 * 10 + d mod 10) with d by (Z.div_mod_to_equations; lia).
  replace (h / 10 mod 10 * 10 + h mod 10) with h by (Z.div_mod_to_equations; lia).
  replace (mi / 10 mod 10 * 10 + mi mod 10) with mi by (Z.div_mod_to_equations; lia).
  now rewrite Hvalid.
Qed.

End TimeKey.
(** * The joins of [build_plant_dataframe] *)

Section Joins.
Import Calendar EpiasClient Examples.

(** Inner join: the output rows are exactly the pairs of a left and a right
    row with matching keys. *)
Lemma merge_inner_spec kgup_df uretim_df j :
  In j (merge_inner kgup_df uretim_df) <->
  exists k u, In k kgup_df /\ In u uretim_df
              /\ key_eqb (t_datetime k) (t_datetime u) = true
              /\ j = mk_joined (t_datetime k) (t_Tarih k) (t_Saat k)
                               (t_value k) (t_value u) Num.nan Num.nan.
Proof.
  unfold merge_inner. rewrite in_flat_map. split.
  - intros (k & Hk & Hj). apply in_map_iff in Hj as (u & <- & Hu).
    apply filter_In in Hu as [Hu Hkey]. now exists k, u.
  - intros (k & u & Hk & Hu & Hkey & ->). exists k. split; [exact Hk|].
    apply in_map_iff. exists u. split; [reflexivity|]. now apply filter_In.
Qed.

(** Left join: every left row survives, with the value of a matching right
    row, or with NaN when there is none; nothing else is produced. *)
Lemma merge_left_spec set df right r' :
  In r' (merge_left set df right) <->
  exists r, In r df /\
    ((exists p, In p right /\ key_eqb (j_datetime r) (t_datetime p) = true
                /\ r' = set r (t_value p))
     \/ ((forall p, In p right -> key_eqb (j_datetime r) (t_datetime p) = false)
         /\ r' = set r Num.nan)).
Proof.
  unfold merge_left. rewrite in_flat_map. split.
  - intros (r & Hr & Hin). exists r. split; [exact Hr|].
    destruct (List.filter _ right) as [|p0 ms] eqn:F.
    + right. destruct Hin as [<-|[]]. split; [|reflexivity].
      intros p Hp. destruct (key_eqb _ _) eqn:E; [|reflexivity].
      assert (In p (List.filter (fun p => key_eqb (j_datetime r) (t_datetime p)) right))
        by now apply filter_In.
      rewrite F in H. destruct H.
    + left. apply in_map_iff in Hin as (p & <- & Hp). rewrite <- F in Hp.
      apply filter_In in Hp as [Hp Hkey]. now exists p.
  - intros (r & Hr & [(p & Hp & Hkey & ->) | (Hnone & ->)]); exists r; (split; [exact Hr|]).
    + assert (Hin : In p (List.filter (fun p => key_eqb (j_datetime r) (t_datetime p)) right))
        by now apply filter_In.
      destruct (List.filter _ right) as [|p0 ms] eqn:F; [destruct Hin|].
      apply in_map_iff. now exists p.
    + destruct (List.filter _ right) as [|p0 ms] eqn:F; [now left|].
      assert (Hin : In p0 (List.filter (fun p => key_eqb (j_datetime r) (t_datetime p)) right))
        by (rewrite F; now left).
      apply filter_In in Hin as [Hp0 Hkey]. rewrite (Hnone p0 Hp0) in Hkey. discriminate.
Qed.

Lemma merge_left_keeps set df right r :
  In r df -> exists v, In (set r v) (merge_left set df right).
Proof.
  intros Hr.
  destruct (List.filter (fun p => key_eqb (j_datetime r) (t_datetime p)) right)
    as [|p0 ms] eqn:F.
  - exists Num.nan. apply merge_left_spec. exists r. split; [exact Hr|]. right.
    split; [|reflexivity]. intros p Hp.
    destruct (key_eqb _ _) eqn:E; [|reflexivity].
    assert (Hin : In p (List.filter (fun p => key_eqb (j_datetime r) (t_datetime p)) right))
      by now apply filter_In.
    rewrite F in Hin. destruct Hin.
  - assert (Hin : In p0 (List.filter (fun p => key_eqb (j_datetime r) (t_datetime p)) right))
      by (rewrite F; now left).
    apply filter_In in Hin as [Hp0 Hkey].
    exists (t_value p0). apply merge_left_spec. exists r. split; [exact Hr|].
    left. now exists p0.
Qed.

Lemma match_prefix_none (p : list pat) (s : string) :
  match_prefix p s = None <->
  forall m rest, s = (m ++ rest)%string -> has_shape p m = false.
Proof.
  split.
  - intros Hnone m rest Hs. destruct (has_shape p m) eqn:Hshape; [|reflexivity].
    assert (match_prefix p s = Some m)
      by (apply match_prefix_spec; split; [exact Hshape | now exists rest]).
    congruence.
  - intros Hall. destruct (match_prefix p s) as [m|] eqn:Hm; [|reflexivity].
    apply match_prefix_spec in Hm as [Hshape [rest Hs]].
    rewrite (Hall m rest Hs) in Hshape. discriminate.
Qed.

(** C4, as the code has it.  For every raw (date, optional hour) pair the
    normaliser returns as day the YYYY-MM-DD prefix of the date text (unknown
    when the text has no such prefix) and as hour, in priority order, (a) the
    HH:MM prefix of the hour field, (b) else the first HH:MM that follows a
    [T] in the date text: the one after the leftmost [T] that is followed by
    an HH:MM, whenever there is one, (c) else "00:00".  The timestamp is the
    minute that day and hour denote when it exists (shown for the years 1678
    to 2261), and the invalid marker otherwise; no input raises.
    ("2024-03-05", "14:30:00") gives (2024-03-05, "14:30"),
    ("2024-03-05T09:15:00+03:00", None) gives "09:15" and ("2024-03-05", None)
    gives "00:00".  The joins do not drop invalid rows: an invalid key never
    matches a valid one, but invalid keys match each other in the inner join,
    and a left join keeps every row. *)
Theorem time_key_normalisation :
  (forall it : RawItem,
      let r := _build_datetime_row it in
      let date := astype_str (it_date it) in
      let hour := astype_str (it_hour it) in
      (forall d, t_Tarih r = Some d <->
                 has_shape day_pattern d = true /\ exists rest, date = (d ++ rest)%string)
      /\ (forall h rest, hour = (h ++ rest)%string -> has_shape hm_pattern h = true ->
             t_Saat r = h)
      /\ ((forall h rest, hour = (h ++ rest)%string -> has_shape hm_pattern h = false) ->
            (forall pre h rest,
                date = (pre ++ "T" ++ h ++ rest)%string -> has_shape hm_pattern h = true ->
                (forall pre' h' rest',
                    date = (pre' ++ "T" ++ h' ++ rest')%string ->
                    has_shape hm_pattern h' = true ->
                    (String.length pre <= String.length pre')%nat) ->
                t_Saat r = h)
            /\ ((exists pre h rest,
                    date = (pre ++ "T" ++ h ++ rest)%string
                    /\ has_shape hm_pattern h = true) ->
                exists pre rest,
                  date = (pre ++ "T" ++ t_Saat r ++ rest)%string
                  /\ has_shape hm_pattern (t_Saat r) = true
                  /\ forall pre' h' rest',
                       date = (pre' ++ "T" ++ h' ++ rest')%string ->
                       has_shape hm_pattern h' = true ->
                       (String.length pre <= String.length pre')%nat)
            /\ ((forall pre h rest, date = (pre ++ "T" ++ h ++ rest)%string ->
                   has_shape hm_pattern h = false) ->
                t_Saat r = "00:00"))
      /\ (forall dt, t_datetime r = Some dt ->
             valid dt = true /\ second dt = 0
             /\ exists d, t_Tarih r = Some d
                          /\ strftime_minute dt = (d ++ " " ++ t_Saat r)%string)
      /\ (forall d dt, t_Tarih r = Some d -> valid dt = true -> second dt = 0 ->
             1678 <= year dt <= 2261 ->
             strftime_minute dt = (d ++ " " ++ t_Saat r)%string ->
             t_datetime r = Some dt))
  /\ (_build_datetime_row (mk_item (Some "2024-03-05") (Some "14:30:00") None)
       = mk_timed (Some (mk_datetime 2024 3 5 14 30 0)) (Some "2024-03-05") "14:30" None
      /\ t_Saat (_build_datetime_row (mk_item (Some "2024-03-05T09:15:00+03:00") None None))
         = "09:15"
      /\ t_Saat (_build_datetime_row (mk_item (Some "2024-03-05") None None)) = "00:00")
  /\ (key_eqb None None = true
      /\ (forall d, key_eqb None (Some d) = false /\ key_eqb (Some d) None = false)
      /\ (forall kgup_df uretim_df k u,
            In k kgup_df -> In u uretim_df ->
            t_datetime k = None -> t_datetime u = None ->
            In (mk_joined None (t_Tarih k) (t_Saat k) (t_value k) (t_value u) Num.nan Num.nan)
               (merge_inner kgup_df uretim_df))
      /\ (forall set df right r,
            In r df -> exists v, In (set r v) (merge_left set df right))).
Proof.
  split; [|split].
  - intros it r date hour. subst r date hour.
    unfold _build_datetime_row, extract_day, extract_hm.
    cbn [t_Tarih t_Saat t_datetime].
    split; [|split; [|split; [|split]]].
    + intros d. apply match_prefix_spec.
    + intros h rest Hh Hshape.
      assert (Hm : match_prefix hm_pattern (astype_str (it_hour it)) = Some h)
        by (apply match_prefix_spec; split; [exact Hshape | now exists rest]).
      now rewrite Hm.
    + intros Hnone. apply match_prefix_none in Hnone. rewrite Hnone.
      cbn [fillna]. split; [|split].
      * intros pre h rest Hs Hshape Hfirst.
        destruct (extract_T_hm (astype_str (it_date it))) as [h0|] eqn:Hh.
        -- cbn [fillna].
           destruct (extract_T_hm_first _ _ Hh) as (pre0 & rest0 & Hs0 & Hshape0 & Hfirst0).
           pose proof (Hfirst pre0 h0 rest0 Hs0 Hshape0).
           pose proof (Hfirst0 pre h rest Hs Hshape).
           apply (first_T_hm_unique _ pre0 h0 rest0 pre h rest Hs0 Hshape0 Hs Hshape). lia.
        -- rewrite (extract_T_hm_none _ Hh pre h rest Hs) in Hshape. discriminate.
      * intros (pre & h & rest & Hs & Hshape).
        destruct (extract_T_hm (astype_str (it_date it))) as [h0|] eqn:Hh.
        -- cbn [fillna].
           destruct (extract_T_hm_first _ _ Hh) as (pre0 & rest0 & Hs0 & Hshape0 & Hfirst0).
           now exists pre0, rest0.
        -- rewrite (extract_T_hm_none _ Hh pre h rest Hs) in Hshape. discriminate.
      * intros Hno.
        destruct (extract_T_hm (astype_str (it_date it))) as [h|] eqn:Hh; [|reflexivity].
        apply extract_T_hm_some in Hh as [Hshape (pre & rest & Hs)].
        rewrite (Hno pre h rest Hs) in Hshape. discriminate.
    + intros dt Hdt.
      destruct (match_prefix day_pattern (astype_str (it_date it))) as [d|]; [|discriminate].
      cbn [option_map] in Hdt. apply to_datetime_some in Hdt as (Hv & Hs & Hfmt).
      split; [exact Hv|]. split; [exact Hs|]. now exists d.
    + intros d dt -> Hv Hs _ Hfmt. cbn [option_map]. rewrite <- Hfmt.
      now apply to_datetime_strftime.
  - repeat split; reflexivity.
  - split; [reflexivity|]. split; [intros d; split; reflexivity|]. split.
    + intros kgup_df uretim_df k u Hk Hu Hkn Hun. apply merge_inner_spec.
      exists k, u. rewrite Hkn, Hun. repeat split; assumption.
    + intros set df right r. apply merge_left_keeps.
Qed.

Lemma time_key_normalisation_witness :
  t_Saat (_build_datetime_row (mk_item (Some "2024-03-05") (Some "14:30:00") None)) = "14:30".
Proof.
  apply (proj1 (proj2 (proj1 time_key_normalisation
                         (mk_item (Some "2024-03-05") (Some "14:30:00") None)))
           "14:30" ":00"); reflexivity.
Defined.

(** C4 as stated fails in its last clause: were invalid rows absent for the
    joins, removing them beforehand would not change the table.  Here the
    invalid plan row and the invalid realized row are joined with each
    other and reach the hourly table. *)
Lemma invalid_rows_are_joined :
  exists out out',
    build_plant_dataframe (frame_of_items plan_items) (frame_of_items realized_items)
      (frame_of_items price_items) (frame_of_items smp_items) = inr out
    /\ build_plant_dataframe (valid_rows (frame_of_items plan_items))
         (valid_rows (frame_of_items realized_items))
         (frame_of_items price_items) (frame_of_items smp_items) = inr out'
    /\ length out = 2%nat /\ length out' = 1%nat
    /\ map t_datetime (frame_of_items plan_items)
       = [Some (mk_datetime 2024 3 5 14 0 0); None]
    /\ map t_datetime (frame_of_items realized_items)
       = [Some (mk_datetime 2024 3 5 14 0 0); None]
    /\ option_map Tarih (nth_error out 1) = Some (Some "2024-02-30")
    /\ option_map Ay (nth_error out 1) = Some None
    /\ option_map PTF (nth_error out 1) = Some None.
Proof.
  eexists. eexists. split; [reflexivity|]. split; [reflexivity|].
  repeat split; reflexivity.
Qed.

(** C6 at the failing input.  With a plan and a realized row for an hour
    and an empty price frame, the guarded merge is skipped, the frame has no
    [PTF] column, and the derivation raises [KeyError] instead of keeping the
    hour with an unknown price; the same holds for an empty
    system-marginal-price frame. *)
Lemma empty_price_frame_raises :
  build_plant_dataframe [example_hour] [example_hour] [] [example_hour]
  = inl (KeyError "PTF")
  /\ build_plant_dataframe [example_hour] [example_hour] [example_hour] []
     = inl (KeyError "SMF")
  /\ (forall k kgup_df u uretim_df smf_df,
        build_plant_dataframe (k :: kgup_df) (u :: uretim_df) [] smf_df
        = inl (KeyError "PTF"))
  /\ (forall k kgup_df u uretim_df p ptf_df,
        build_plant_dataframe (k :: kgup_df) (u :: uretim_df) (p :: ptf_df) []
        = inl (KeyError "SMF")).
Proof.
  split; [reflexivity|]. split; [reflexivity|]. split.
  - intros k kgup_df u uretim_df [|s smf_df]; reflexivity.
  - reflexivity.
Qed.

(** With both price frames non-empty, and at least one hour common to plan
    and realized rows, the table is the derivation of the inner join of
    plan and realized rows, left-joined with the prices: an
    hour missing from the plan or the realized stream is dropped, an hour
    without a price is kept with the price unknown; an empty plan or
    realized frame gives the empty table without an error. *)
Theorem plant_table_joins :
  (forall uretim_df ptf_df smf_df, build_plant_dataframe [] uretim_df ptf_df smf_df = inr [])
  /\ (forall kgup_df ptf_df smf_df, build_plant_dataframe kgup_df [] ptf_df smf_df = inr [])
  /\ (forall kgup_df uretim_df ptf_df smf_df,
        kgup_df <> [] -> uretim_df <> [] -> ptf_df <> [] -> smf_df <> [] ->
        merge_inner kgup_df uretim_df <> [] ->
        let joined := merge_inner kgup_df uretim_df in
        let priced := merge_left set_SMF (merge_left set_PTF joined ptf_df) smf_df in
        build_plant_dataframe kgup_df uretim_df ptf_df smf_df = inr (map derive priced)
        /\ (forall j, In j joined <->
              exists k u, In k kgup_df /\ In u uretim_df
                          /\ key_eqb (t_datetime k) (t_datetime u) = true
                          /\ j = mk_joined (t_datetime k) (t_Tarih k) (t_Saat k)
                                           (t_value k) (t_value u) Num.nan Num.nan)
        /\ (forall j, In j joined ->
              exists r, In r priced
                        /\ j_datetime r = j_datetime j /\ j_KGUP r = j_KGUP j
                        /\ j_URETIM r = j_URETIM j
                        /\ ((forall p, In p ptf_df ->
                                key_eqb (j_datetime j) (t_datetime p) = false) ->
                            j_PTF r = None))).
Proof.
  split; [reflexivity|]. split; [intros [|k kgup_df]; reflexivity|].
  intros [|k kgup_df] [|u uretim_df] [|p ptf_df] [|s smf_df] Hk Hu Hp Hs _;
    try contradiction.
  cbv zeta. split; [reflexivity|]. split; [apply merge_inner_spec|].
  intros j Hj.
  destruct (merge_left_keeps set_PTF _ (p :: ptf_df) j Hj) as [v Hv].
  destruct (merge_left_keeps set_SMF _ (s :: smf_df) _ Hv) as [w Hw].
  eexists. split; [exact Hw|]. cbn [set_SMF set_PTF j_datetime j_KGUP j_URETIM j_PTF].
  repeat split.
  intros Hnone. apply merge_left_spec in Hv as (r0 & Hr0 & Hcase).
  unfold set_PTF in Hcase.
  destruct Hcase as [(p0 & Hp0 & Hkey & Heq) | (_ & Heq)].
  - injection Heq as Hdt _ _ _ _ _. rewrite <- Hdt, (Hnone p0 Hp0) in Hkey. discriminate.
  - now injection Heq as _ _ _ _ _ ->.
Qed.

Lemma plant_table_joins_witness :
  build_plant_dataframe [example_hour] [example_hour] [example_hour] [example_hour]
  = inr (map derive
           (merge_left set_SMF
              (merge_left set_PTF (merge_inner [example_hour] [example_hour]) [example_hour])
              [example_hour])).
Proof.
  apply (proj2 (proj2 plant_table_joins) [example_hour] [example_hour] [example_hour]
           [example_hour]); discriminate.
Defined.

End Joins.
(** * ReportBuilder: the formula block *)

Section Report.
Import Calendar EpiasClient StreamlitApp Examples.

Example sumif_text :
  option_map formula_text (sumif 745 673 sheet1 "Gerçekleşen Üretim" ("A", 4%nat))
  = Some "=SUMIF('Santral_1'!$B$2:$B$745,A4,'Santral_1'!$I$2:$I$745)".
Proof. reflexivity. Qed.

Example ratio_text :
  formula_text (FIfZeroDiv ("B", 16%nat) ("F", 16%nat)) = "=IF(B16=0,0,F16/B16)".
Proof. reflexivity. Qed.

Example sum_text : formula_text (FSum "H" 22 33) = "=SUM(H22:H33)".
Proof. reflexivity. Qed.

Lemma write_all_lookup (cells : list (nat * nat * cell)) :
  forall (ws : worksheet) (key : nat * nat),
    write_all cells ws !! key = last_write key cells (ws !! key).
Proof.
  induction cells as [|[[r c] v] cells IH]; intros ws [kr kc]; [reflexivity|].
  cbn [write_all fold_left last_write fst snd].
  change (fold_left _ cells ?w) with (write_all cells w).
  rewrite IH. f_equal. unfold write. cbn [fst snd].
  rewrite lookup_insert.
  destruct (Nat.eqb_spec r kr) as [->|Hr]; destruct (Nat.eqb_spec c kc) as [->|Hc];
    cbn [andb]; case_decide; try reflexivity; congruence.
Qed.

Lemma comparison_sheet_cell n1 n2 ex1 ex2 ws key :
  comparison_sheet n1 n2 ex1 ex2 = Some ws ->
  comparison_cell n1 n2 ex1 ex2 key = Some (ws !! key).
Proof.
  unfold comparison_sheet, comparison_cell. cbv zeta.
  change (3 + 12 + 3)%nat with 18%nat.
  destruct (block_writes n1 n2 sheet1 _ ex1 0) as [b1|]; [|discriminate].
  destruct (block_writes n1 n2 sheet2 _ ex2 18) as [b2|]; [|discriminate].
  intros [= <-]. now rewrite !write_all_lookup, lookup_empty.
Qed.

Lemma comparison_sheet_defined n1 n2 ex1 ex2 :
  exists ws, comparison_sheet n1 n2 ex1 ex2 = Some ws.
Proof.
  unfold comparison_sheet. cbv zeta.
  assert (H1 : exists b, block_writes n1 n2 sheet1 "Santral 1" ex1 0 = Some b)
    by (eexists; reflexivity).
  assert (H2 : exists b, block_writes n1 n2 sheet2 "Santral 2" ex2 (3 + 12 + 3) = Some b)
    by (eexists; reflexivity).
  destruct H1 as [b1 ->], H2 as [b2 ->]. now eexists.
Qed.

Lemma comp_cell_of n1 n2 ex1 ex2 ws key c :
  comparison_sheet n1 n2 ex1 ex2 = Some ws ->
  comparison_cell n1 n2 ex1 ex2 key = Some (Some c) ->
  comp_cell ws (fst key) (snd key) = c.
Proof.
  intros Hws Hc. rewrite (comparison_sheet_cell _ _ _ _ _ key Hws) in Hc.
  injection Hc as Hc. unfold comp_cell. destruct key. cbn [fst snd]. now rewrite Hc.
Qed.

(** The cells of the month rows and of the totals row of both blocks. *)
Ltac layout_cells Hws :=
  cbv [month_row_layout total_row_layout]; cbv zeta;
  repeat match goal with
         | |- _ /\ _ => split
         | |- comp_cell ?ws ?r ?c = _ =>
             apply (comp_cell_of _ _ _ _ ws (r, c) _ Hws); reflexivity
         end.

Lemma month_layout_1 n1 n2 ex1 ex2 ws (i : nat) :
  comparison_sheet n1 n2 ex1 ex2 = Some ws ->
  (i < 12)%nat ->
  month_row_layout ws sheet1 n1 (3 + i) (Z.of_nat (S i)).
Proof.
  intros Hws Hi. do 12 (destruct i as [|i]; [layout_cells Hws|]). lia.
Qed.

Lemma month_layout_2 n1 n2 ex1 ex2 ws (i : nat) :
  comparison_sheet n1 n2 ex1 ex2 = Some ws ->
  (i < 12)%nat ->
  month_row_layout ws sheet2 n2 (18 + 3 + i) (Z.of_nat (S i)).
Proof.
  intros Hws Hi. do 12 (destruct i as [|i]; [layout_cells Hws|]). lia.
Qed.

Lemma total_layout n1 n2 ex1 ex2 ws (start : nat) :
  comparison_sheet n1 n2 ex1 ex2 = Some ws ->
  start = 0%nat \/ start = 18%nat ->
  total_row_layout ws (start + 4) (start + 15) (start + 15).
Proof.
  intros Hws [-> | ->]; layout_cells Hws.
Qed.

(** *** SUMIF over a detail sheet is the month's group sum *)

Lemma map_nth_error_seq {A B} (h : option A -> B) (l : list A) :
  map (fun k => h (nth_error l k)) (seq 0 (length l)) = map (fun x => h (Some x)) l.
Proof.
  induction l as [|x l IH]; [reflexivity|].
  cbn [length seq map nth_error]. f_equal.
  rewrite <- seq_shift, map_map. exact IH.
Qed.

Lemma Qc_of_Z_inj (a b : Z) : Qc_of_Z a = Qc_of_Z b -> a = b.
Proof.
  unfold Qc_of_Z. intros H. apply (f_equal this) in H. cbn [this Q2Qc] in H.
  assert (Hq : (inject_Z a == inject_Z b)%Q).
  { rewrite <- (Qred_correct (inject_Z a)), <- (Qred_correct (inject_Z b)). now rewrite H. }
  unfold Qeq, inject_Z in Hq. cbn in Hq. lia.
Qed.

Lemma Qceqb_of_Z (a b : Z) : Num.Qceqb (Qc_of_Z a) (Qc_of_Z b) = (a =? b).
Proof.
  destruct (Qceqb_spec (Qc_of_Z a) (Qc_of_Z b)) as [H|H];
    destruct (Z.eqb_spec a b) as [E|E]; try reflexivity.
  - now apply Qc_of_Z_inj in H.
  - subst. contradiction.
Qed.

Lemma month_cell_matches (r : HourlyRow) (m : Z) :
  criterion_matches (nth (col_number "B") (detail_cells r) Blank) (Qc_of_Z m) = in_month m r.
Proof.
  change (col_number "B") with 1%nat. cbn [nth detail_cells]. unfold in_month.
  destruct (Ay r) as [a|]; [|reflexivity].
  cbn [criterion_matches]. apply Qceqb_of_Z.
Qed.

Lemma masked_sum (df : list HourlyRow) (f : HourlyRow -> Num.num) (mask : HourlyRow -> bool) :
  Qc_sum (map (fun r => if mask r then Num.nan_to_zero (f r) else 0%Qc) df)
  = Num.sum (map f (List.filter mask df)).
Proof.
  induction df as [|r df IH]; [reflexivity|].
  cbn [map Qc_sum fold_right List.filter]. fold (Qc_sum (map (fun r => if mask r then Num.nan_to_zero (f r) else 0%Qc) df)).
  rewrite IH. destruct (mask r).
  - cbn [map Num.sum fold_right]. destruct (f r); cbn [Num.nan_to_zero]; [reflexivity|].
    now rewrite Qcplus_0_l.
  - now rewrite Qcplus_0_l.
Qed.

(** [SUMIF('sheet'!$B$2:$B$last, month, 'sheet'!$X$2:$X$last)] on the detail
    sheet of [df], for a numeric column [X] holding [f]. *)
Lemma sumif_value_group_sum (df : list HourlyRow) (col : string)
    (f : HourlyRow -> Num.num) (m : Z) :
  (forall r, nth (col_number col) (detail_cells r) Blank = num_cell (f r)) ->
  sumif_value (to_excel df) "B" col 2 (length df + 1) (Qc_of_Z m) = group_sum df f m.
Proof.
  intros Hcol. unfold sumif_value.
  replace (S (length df + 1) - 2)%nat with (length df) by lia.
  rewrite <- (seq_shift _ 1), <- (seq_shift _ 0), !map_map.
  set (h := fun o : option HourlyRow =>
              match o with
              | Some r => if in_month m r then Num.nan_to_zero (f r) else 0%Qc
              | None => 0%Qc
              end).
  transitivity (Qc_sum (map (fun k => h (nth_error df k)) (seq 0 (length df)))).
  - f_equal. apply map_ext. intros k.
    replace (S (S k) - 1)%nat with (S k) by lia. cbn [to_excel]. unfold h.
    destruct (nth_error df k) as [r|]; [|reflexivity].
    rewrite month_cell_matches, Hcol. destruct (f r); reflexivity.
  - rewrite (map_nth_error_seq h). unfold h. rewrite masked_sum.
    symmetry. apply group_sum_filter.
Qed.

End Report.
(** * ReportBuilder: recalculating the formula block *)

Section ReportEval.
Import Calendar EpiasClient StreamlitApp Examples.

Lemma build_report_inv df1 df2 wb :
  build_report df1 df2 = Some wb ->
  ws1 wb = to_excel df1 /\ ws2 wb = to_excel df2
  /\ comparison_sheet (length df1 + 1) (length df2 + 1)
       (compute_monthly_extras df1) (compute_monthly_extras df2) = Some (wsC wb).
Proof.
  unfold build_report. cbv zeta.
  destruct (comparison_sheet _ _ _ _) as [ws|]; [|discriminate].
  intros [= <-]. repeat split.
Qed.

Lemma eval_sumif wb df sheet row m col f k :
  sheet_grid wb sheet = Some (to_excel df) ->
  comp_cell (wsC wb) row 0 = Number (Qc_of_Z m) ->
  (forall r, nth (col_number col) (detail_cells r) Blank = num_cell (f r)) ->
  eval_cell (S k) wb (Formula (FSumIf sheet "B" (length df + 1) ("A", S row) col))
  = VNum (group_sum df f m).
Proof.
  intros Hsheet Hmonth Hcol. cbn [eval_cell fst snd]. rewrite Hsheet.
  change (col_number "A") with 0%nat.
  replace (S row - 1)%nat with row by lia. rewrite Hmonth.
  destruct k; cbn [eval_cell]; now rewrite (sumif_value_group_sum df col f m Hcol).
Qed.

Lemma eval_ratio wb row cd cn d n k :
  eval_cell k wb (comp_cell (wsC wb) row (col_number cd)) = VNum d ->
  eval_cell k wb (comp_cell (wsC wb) row (col_number cn)) = VNum n ->
  eval_cell (S k) wb (Formula (FIfZeroDiv (cd, S row) (cn, S row))) = VNum (unit_ratio n d).
Proof.
  intros Hd Hn. cbn [eval_cell fst snd].
  replace (S row - 1)%nat with row by lia. now rewrite Hd, Hn.
Qed.

Lemma eval_sum wb col first last k :
  eval_cell (S k) wb (Formula (FSum col first last))
  = sum_values (map (fun r => eval_cell k wb (comp_cell (wsC wb) (r - 1) (col_number col)))
                    (seq first (S last - first))).
Proof. reflexivity. Qed.

Lemma seq_from (a n : nat) : seq a n = map (Nat.add a) (seq 0 n).
Proof.
  induction a as [|a IH]; [now rewrite map_id|].
  rewrite <- seq_shift, IH, map_map. reflexivity.
Qed.

(** The six SUMIF cells of a month row give the month's sums. *)
Lemma eval_month_sums wb df sheet row m k :
  sheet_grid wb sheet = Some (to_excel df) ->
  month_row_layout (wsC wb) sheet (length df + 1) row m ->
  forall j, In j [1; 2; 3; 4; 5; 7]%nat ->
    eval_cell (S k) wb (comp_cell (wsC wb) row j) = summary_value (month_row df m) j.
Proof.
  intros Hsheet (H0 & H1 & H2 & H3 & H4 & H5 & H6 & H7 & H8) j Hj.
  cbn [In] in Hj.
  repeat destruct Hj as [<- | Hj]; try destruct Hj;
    cbn [summary_value month_row s_URETIM s_Dengesizlik s_GOP_Geliri s_Dengesizlik_Tutarı
         s_Net_Gelir s_Dengesizlik_Maliyeti];
    [ rewrite H1 | rewrite H2 | rewrite H3 | rewrite H4 | rewrite H5 | rewrite H7 ];
    now apply eval_sumif.
Qed.

(** The month rows of a block evaluate to the rows of the summary. *)
Lemma eval_month_row wb df sheet row m k :
  sheet_grid wb sheet = Some (to_excel df) ->
  month_row_layout (wsC wb) sheet (length df + 1) row m ->
  forall j, (j < 9)%nat ->
    eval_cell (S (S k)) wb (comp_cell (wsC wb) row j) = summary_value (month_row df m) j.
Proof.
  intros Hsheet Hlayout j Hj.
  pose proof (fun fuel j Hin => eval_month_sums wb df sheet row m fuel Hsheet Hlayout j Hin)
    as Hsums.
  destruct Hlayout as (H0 & _ & _ & _ & _ & _ & H6 & _ & H8).
  assert (Hcases : (j = 0 \/ j = 1 \/ j = 2 \/ j = 3 \/ j = 4 \/ j = 5 \/ j = 6
                    \/ j = 7 \/ j = 8)%nat) by lia.
  clear Hj.
  repeat destruct Hcases as [-> | Hcases]; try subst j;
    try (apply Hsums; cbn [In]; tauto).
  - now rewrite H0.
  - rewrite H6. apply (eval_ratio wb row "B" "F");
      [apply (Hsums k 1%nat) | apply (Hsums k 5%nat)]; cbn [In]; tauto.
  - rewrite H8. apply (eval_ratio wb row "B" "H");
      [apply (Hsums k 1%nat) | apply (Hsums k 7%nat)]; cbn [In]; tauto.
Qed.

(** The totals row of a block, whose month rows are the twelve rows from
    [first_row] (0-based), evaluates to the total row of the summary. *)
Lemma eval_total_row wb df sheet first_row k :
  sheet_grid wb sheet = Some (to_excel df) ->
  (forall i, (i < 12)%nat ->
     month_row_layout (wsC wb) sheet (length df + 1) (first_row + i) (Z.of_nat (S i))) ->
  total_row_layout (wsC wb) (first_row + 1) (first_row + 12) (first_row + 12) ->
  forall j, (j < 9)%nat ->
    eval_cell (S (S (S k))) wb (comp_cell (wsC wb) (first_row + 12) j)
    = summary_value (total_row (map (month_row df) months)) j.
Proof.
  intros Hsheet Hrows (H0 & H1 & H2 & H3 & H4 & H5 & H6 & H7 & H8) j Hj.
  assert (Hsum : forall fuel col c,
             In c [1; 2; 3; 4; 5; 7]%nat -> col_number col = c ->
             eval_cell (S (S fuel)) wb (Formula (FSum col (first_row + 1) (first_row + 12)))
             = sum_values (map (fun i => summary_value (month_row df (Z.of_nat (S i))) c)
                               (seq 0 12))).
  { intros fuel col c Hc Hcol. rewrite eval_sum. f_equal.
    replace (S (first_row + 12) - (first_row + 1))%nat with 12%nat by lia.
    rewrite seq_from, map_map. apply map_ext_in. intros i Hi. apply in_seq in Hi.
    replace (first_row + 1 + i - 1)%nat with (first_row + i)%nat by lia.
    rewrite Hcol. apply (eval_month_sums wb df sheet); [exact Hsheet | | exact Hc].
    apply Hrows. lia. }
  assert (E1 : forall fuel, eval_cell (S (S fuel)) wb (comp_cell (wsC wb) (first_row + 12) 1)
               = VNum (Qc_sum (map s_URETIM (map (month_row df) months))))
    by (intros fuel; rewrite H1; rewrite (Hsum fuel "B" 1%nat) by (cbn [In]; tauto);
        reflexivity).
  assert (E5 : forall fuel, eval_cell (S (S fuel)) wb (comp_cell (wsC wb) (first_row + 12) 5)
               = VNum (Qc_sum (map s_Net_Gelir (map (month_row df) months))))
    by (intros fuel; rewrite H5; rewrite (Hsum fuel "F" 5%nat) by (cbn [In]; tauto);
        reflexivity).
  assert (E7 : forall fuel, eval_cell (S (S fuel)) wb (comp_cell (wsC wb) (first_row + 12) 7)
               = VNum (Qc_sum (map s_Dengesizlik_Maliyeti (map (month_row df) months))))
    by (intros fuel; rewrite H7; rewrite (Hsum fuel "H" 7%nat) by (cbn [In]; tauto);
        reflexivity).
  assert (Hcases : (j = 0 \/ j = 1 \/ j = 2 \/ j = 3 \/ j = 4 \/ j = 5 \/ j = 6
                    \/ j = 7 \/ j = 8)%nat) by lia.
  clear Hj.
  repeat destruct Hcases as [-> | Hcases]; try subst j.
  - now rewrite H0.
  - apply E1.
  - rewrite H2, (Hsum _ "C" 2%nat) by (cbn [In]; tauto). reflexivity.
  - rewrite H3, (Hsum _ "D" 3%nat) by (cbn [In]; tauto). reflexivity.
  - rewrite H4, (Hsum _ "E" 4%nat) by (cbn [In]; tauto). reflexivity.
  - apply E5.
  - rewrite H6.
    rewrite (eval_ratio wb (first_row + 12) "B" "F" _ _ _ (E1 k) (E5 k)).
    cbn [summary_value total_row s_Birim_Gelir]. unfold unit_ratio.
    now destruct (Num.Qceqb _ 0).
  - apply E7.
  - rewrite H8.
    rewrite (eval_ratio wb (first_row + 12) "B" "H" _ _ _ (E1 k) (E7 k)).
    cbn [summary_value total_row s_Birim_Deng_Mal]. unfold unit_ratio.
    now destruct (Num.Qceqb _ 0).
Qed.

Lemma build_report_defined df1 df2 : exists wb, build_report df1 df2 = Some wb.
Proof.
  unfold build_report. cbv zeta.
  destruct (comparison_sheet_defined (length df1 + 1) (length df2 + 1)
              (compute_monthly_extras df1) (compute_monthly_extras df2)) as [ws ->].
  now eexists.
Qed.

(** C3, as the code has it.  In each plant block of the comparison sheet the
    first summary column holds the month number (the label "Toplam" in the
    totals row) as a literal; the other eight are formulas: six SUMIFs over
    the block's own detail sheet, rows 2 to its last row, keyed by the month
    cell of the row, and two IF-guarded ratios of cells of the same row.  In
    the totals row the six sum columns are SUMs over the twelve month cells
    above and the two ratio columns are the guarded ratios of the totals.
    Recalculated, the nine cells of each of the thirteen rows of a block are
    the nine columns of the same row of [build_monthly_summary] of that
    plant's table. *)
Theorem comparison_formulas_recalculate :
  forall df1 df2 : list HourlyRow,
    exists wb,
      build_report df1 df2 = Some wb
      /\ ws1 wb = to_excel df1 /\ ws2 wb = to_excel df2
      /\ (forall i, (i < 12)%nat ->
            month_row_layout (wsC wb) sheet1 (length df1 + 1) (3 + i) (Z.of_nat (S i))
            /\ month_row_layout (wsC wb) sheet2 (length df2 + 1) (21 + i) (Z.of_nat (S i)))
      /\ total_row_layout (wsC wb) 4 15 15
      /\ total_row_layout (wsC wb) 22 33 33
      /\ (forall fuel i j, (i < 13)%nat -> (j < 9)%nat ->
            option_map (fun row => summary_value row j)
                       (nth_error (build_monthly_summary df1) i)
            = Some (eval_cell (S (S (S fuel))) wb (comp_cell (wsC wb) (3 + i) j))
            /\ option_map (fun row => summary_value row j)
                          (nth_error (build_monthly_summary df2) i)
               = Some (eval_cell (S (S (S fuel))) wb (comp_cell (wsC wb) (21 + i) j))).
Proof.
  intros df1 df2. destruct (build_report_defined df1 df2) as [wb Hwb].
  exists wb. split; [exact Hwb|].
  destruct (build_report_inv _ _ _ Hwb) as (Hws1 & Hws2 & Hws).
  split; [exact Hws1|]. split; [exact Hws2|].
  assert (Hg1 : sheet_grid wb sheet1 = Some (to_excel df1))
    by (unfold sheet_grid; cbn; now rewrite Hws1).
  assert (Hg2 : sheet_grid wb sheet2 = Some (to_excel df2))
    by (unfold sheet_grid; cbn; now rewrite Hws2).
  assert (Hm1 : forall i, (i < 12)%nat ->
            month_row_layout (wsC wb) sheet1 (length df1 + 1) (3 + i) (Z.of_nat (S i)))
    by (intros i Hi; now apply (month_layout_1 _ _ _ _ _ i Hws)).
  assert (Hm2 : forall i, (i < 12)%nat ->
            month_row_layout (wsC wb) sheet2 (length df2 + 1) (21 + i) (Z.of_nat (S i)))
    by (intros i Hi; now apply (month_layout_2 _ _ _ _ _ i Hws)).
  assert (Ht1 : total_row_layout (wsC wb) 4 15 15)
    by (apply (total_layout _ _ _ _ _ 0%nat Hws); now left).
  assert (Ht2 : total_row_layout (wsC wb) 22 33 33)
    by (apply (total_layout _ _ _ _ _ 18%nat Hws); now right).
  split; [intros i Hi; split; auto|]. split; [exact Ht1|]. split; [exact Ht2|].
  intros fuel i j Hi Hj.
  destruct (Nat.eq_dec i 12%nat) as [->|Hne].
  - rewrite !summary_total_row. cbn [option_map]. split; f_equal; symmetry.
    + now apply (eval_total_row wb df1 sheet1 3%nat).
    + now apply (eval_total_row wb df2 sheet2 21%nat).
  - rewrite !summary_month_row by lia. cbn [option_map]. split; f_equal; symmetry.
    + apply (eval_month_row wb df1 sheet1); auto. apply Hm1. lia.
    + apply (eval_month_row wb df2 sheet2); auto. apply Hm2. lia.
Qed.

Lemma comparison_formulas_recalculate_witness :
  exists wb,
    build_report two_month_table asymmetry_table = Some wb
    /\ Some (VNum (Q2Qc 3))
       = Some (eval_cell 3 wb (comp_cell (wsC wb) 4 1)).
Proof.
  destruct (comparison_formulas_recalculate two_month_table asymmetry_table)
    as (wb & Hwb & _ & _ & _ & _ & _ & Heval).
  exists wb. split; [exact Hwb|].
  pose proof (proj1 (Heval 0%nat 1%nat 1%nat ltac:(lia) ltac:(lia))) as H.
  cbn [Nat.add] in H. rewrite <- H.
  reflexivity.
Defined.

(** C3 as stated fails for the first of the nine summary columns, which is
    written as a value, and for the ratio columns of the totals row, which
    are not sums of the cells above. *)
Lemma month_column_is_a_value :
  exists wb,
    build_report two_month_table asymmetry_table = Some wb
    /\ comp_cell (wsC wb) 3 0 = Number (Qc_of_Z 1)
    /\ is_formula (comp_cell (wsC wb) 3 0) = false
    /\ comp_cell (wsC wb) 15 0 = Text "Toplam"
    /\ comp_cell (wsC wb) 15 6 = Formula (FIfZeroDiv ("B", 16%nat) ("F", 16%nat)).
Proof.
  destruct (build_report_defined two_month_table asymmetry_table) as [wb Hwb].
  exists wb. split; [exact Hwb|].
  destruct (build_report_inv _ _ _ Hwb) as (_ & _ & Hws).
  destruct (month_layout_1 _ _ _ _ _ 0%nat Hws ltac:(lia)) as (H0 & _).
  destruct (total_layout _ _ _ _ _ 0%nat Hws ltac:(now left)) as (T0 & _ & _ & _ & _ & _ & T6 & _).
  cbn [Nat.add] in H0, T0, T6.
  rewrite H0. repeat split; assumption.
Qed.

End ReportEval.
(** * Column letters *)

Section ColLetter.
Import StreamlitApp.

Lemma chr_code (n : Z) : 0 <= n < 256 -> Z.of_N (N_of_ascii (chr n)) = n.
Proof.
  intros Hn. unfold chr. rewrite N_ascii_embedding; lia.
Qed.

Lemma col_letter_loop_acc (fuel : nat) :
  forall idx acc,
    col_letter_loop fuel idx acc
    = option_map (fun s => (s ++ acc)%string) (col_letter_loop fuel idx EmptyString).
Proof.
  induction fuel as [|fuel IH]; intros idx acc; simpl; [reflexivity|].
  destruct (idx / 26 =? 0); [reflexivity|].
  rewrite IH. rewrite (IH _ (String _ EmptyString)).
  destruct (col_letter_loop fuel (idx / 26 - 1) EmptyString) as [s|]; simpl; [|reflexivity].
  f_equal. rewrite append_assoc. reflexivity.
Qed.

(** With more fuel than the index the loop reaches its [break], and the
    result no longer depends on the fuel. *)
Lemma col_letter_loop_fuel (fuel : nat) :
  forall idx fuel' acc,
    0 <= idx < Z.of_nat fuel -> (fuel <= fuel')%nat ->
    col_letter_loop fuel idx acc <> None /\
    col_letter_loop fuel' idx acc = col_letter_loop fuel idx acc.
Proof.
  induction fuel as [|fuel IH]; intros idx fuel' acc Hidx Hle; [lia|].
  destruct fuel' as [|fuel']; [lia|]. simpl.
  destruct (Z.eqb_spec (idx / 26) 0) as [Hq|Hq]; [split; [discriminate|reflexivity]|].
  assert (0 < idx / 26 <= idx).
  { split.
    - pose proof (Z.div_pos idx 26). lia.
    - apply Z.div_le_upper_bound; lia. }
  apply IH; lia.
Qed.

(** One unfolding of [_col_letter], in terms of [_col_letter] itself. *)
Lemma col_letter_step (n : Z) :
  0 <= n ->
  _col_letter n =
    if n / 26 =? 0 then Some (String (chr (65 + n mod 26)) EmptyString)
    else option_map (fun s => (s ++ String (chr (65 + n mod 26)) EmptyString)%string)
           (_col_letter (n / 26 - 1)).
Proof.
  intros Hn. unfold _col_letter at 1. simpl.
  destruct (Z.eqb_spec (n / 26) 0) as [Hq|Hq]; [reflexivity|].
  assert (0 < n / 26 <= n).
  { split.
    - pose proof (Z.div_pos n 26). lia.
    - apply Z.div_le_upper_bound; lia. }
  rewrite col_letter_loop_acc. unfold _col_letter.
  f_equal.
  apply (col_letter_loop_fuel (S (Z.to_nat (n / 26 - 1)))); lia.
Qed.

Lemma col_letter_total (n : Z) : 0 <= n -> exists s, _col_letter n = Some s.
Proof.
  intros Hn. unfold _col_letter.
  destruct (col_letter_loop_fuel (S (Z.to_nat n)) n (S (Z.to_nat n)) EmptyString) as [H _];
    [lia | lia |].
  destruct (col_letter_loop _ _ _) as [s|]; [eauto | congruence].
Qed.

Lemma rev_letters_snoc (s : string) (c : ascii) :
  rev (list_ascii_of_string (s ++ String c EmptyString)) = c :: rev (list_ascii_of_string s).
Proof.
  rewrite list_ascii_of_string_append. simpl. rewrite rev_app_distr. reflexivity.
Qed.

Lemma bijective26_snoc (s : string) (c : ascii) :
  bijective26 (s ++ String c EmptyString) = bijective26 s * 26 + letter_value c.
Proof.
  unfold bijective26. rewrite list_ascii_of_string_append, fold_left_app. reflexivity.
Qed.

Lemma chr_is_Z (d : Z) : 0 <= d < 26 -> (Ascii.eqb (chr (65 + d)) "Z" = (d =? 25)).
Proof.
  intros Hd. destruct (Z.eqb_spec d 25) as [->|Hne].
  - reflexivity.
  - apply Ascii.eqb_neq. intros Heq.
    pose proof (chr_code (65 + d) ltac:(lia)) as Hc. rewrite Heq in Hc.
    simpl in Hc. lia.
Qed.

(** The name of column [n + 1] is the name after that of column [n]. *)
Lemma col_letter_succ (n : Z) :
  0 <= n ->
  forall s, _col_letter n = Some s ->
    exists s', _col_letter (n + 1) = Some s' /\
      rev (list_ascii_of_string s') = next_name (rev (list_ascii_of_string s)).
Proof.
  induction n as [n IH] using (well_founded_induction (Z.lt_wf 0)).
  intros Hn s Hs.
  rewrite col_letter_step in Hs by lia.
  rewrite col_letter_step by lia.
  assert (Hd : 0 <= n mod 26 < 26) by (apply Z.mod_pos_bound; lia).
  destruct (Z.eqb_spec (n mod 26) 25) as [H25|H25].
  - (* the last letter is Z: carry *)
    assert (Hq : (n + 1) / 26 = n / 26 + 1) by (Z.div_mod_to_equations; lia).
    assert (Hr : (n + 1) mod 26 = 0) by (Z.div_mod_to_equations; lia).
    rewrite Hq, Hr.
    assert (Hq0 : 0 <= n / 26) by (apply Z.div_pos; lia).
    destruct (Z.eqb_spec (n / 26 + 1) 0) as [Hbad|_]; [lia|].
    replace (n / 26 + 1 - 1) with (n / 26) by lia.
    destruct (Z.eqb_spec (n / 26) 0) as [Hz|Hnz].
    + injection Hs as <-. rewrite Hz, H25. eexists; split; reflexivity.
    + destruct (_col_letter (n / 26 - 1)) as [s0|] eqn:Hs0; [|discriminate].
      injection Hs as <-.
      destruct (IH (n / 26 - 1)) with (s := s0) as (s0' & Hs0' & Hrev);
        [ Z.div_mod_to_equations; lia | lia | exact Hs0 | ].
      replace (n / 26 - 1 + 1) with (n / 26) in Hs0' by lia.
      rewrite Hs0'. simpl option_map. eexists; split; [reflexivity|].
      rewrite !rev_letters_snoc. simpl next_name.
      rewrite chr_is_Z by lia. rewrite H25. simpl. now rewrite Hrev.
  - assert (Hq : (n + 1) / 26 = n / 26) by (Z.div_mod_to_equations; lia).
    assert (Hr : (n + 1) mod 26 = n mod 26 + 1) by (Z.div_mod_to_equations; lia).
    rewrite Hq, Hr.
    assert (Hnext : forall rest,
               next_name (chr (65 + n mod 26) :: rest) = chr (65 + (n mod 26 + 1)) :: rest).
    { intros rest. simpl. rewrite chr_is_Z by lia.
      destruct (Z.eqb_spec (n mod 26) 25); [lia|].
      rewrite chr_code by lia. do 2 f_equal. lia. }
    destruct (n / 26 =? 0).
    + injection Hs as <-. eexists; split; [reflexivity|].
      cbn [rev list_ascii_of_string app]. now rewrite Hnext.
    + destruct (_col_letter (n / 26 - 1)) as [s0|]; [|discriminate].
      injection Hs as <-. eexists; split; [reflexivity|].
      rewrite !rev_letters_snoc. now rewrite Hnext.
Qed.

Lemma col_letter_standard_name (n : nat) :
  _col_letter (Z.of_nat n) = Some (standard_name n).
Proof.
  unfold standard_name.
  assert (H : exists s, _col_letter (Z.of_nat n) = Some s /\
                rev (list_ascii_of_string s) = Nat.iter n next_name ["A"%char]).
  { induction n as [|n (s & Hs & Hrev)].
    - exists "A". split; reflexivity.
    - destruct (col_letter_succ (Z.of_nat n) ltac:(lia) s Hs) as (s' & Hs' & Hrev').
      exists s'. split.
      + rewrite Nat2Z.inj_succ. exact Hs'.
      + simpl. rewrite Hrev'. now rewrite Hrev. }
  destruct H as (s & Hs & Hrev). rewrite Hs. f_equal.
  rewrite <- Hrev, rev_involutive. now rewrite string_of_list_ascii_of_string.
Qed.

(** The letters are the bijective base-26 digits of [n + 1]. *)
Lemma col_letter_value (n : Z) :
  0 <= n ->
  forall s, _col_letter n = Some s ->
    bijective26 s = n + 1 /\ forallb is_upper (list_ascii_of_string s) = true.
Proof.
  induction n as [n IH] using (well_founded_induction (Z.lt_wf 0)).
  intros Hn s Hs.
  rewrite col_letter_step in Hs by lia.
  assert (Hd : 0 <= n mod 26 < 26) by (apply Z.mod_pos_bound; lia).
  assert (Hup : is_upper (chr (65 + n mod 26)) = true).
  { unfold is_upper. rewrite chr_code by lia. lia. }
  assert (Hval : letter_value (chr (65 + n mod 26)) = n mod 26 + 1).
  { unfold letter_value. rewrite chr_code by lia. lia. }
  destruct (Z.eqb_spec (n / 26) 0) as [Hz|Hnz].
  - injection Hs as <-. split.
    + unfold bijective26. simpl. rewrite Hval. Z.div_mod_to_equations; lia.
    + simpl. now rewrite Hup.
  - destruct (_col_letter (n / 26 - 1)) as [s0|] eqn:Hs0; [|discriminate].
    injection Hs as <-.
    destruct (IH (n / 26 - 1)) with (s := s0) as [Hv Hu];
      [ Z.div_mod_to_equations; lia | Z.div_mod_to_equations; lia | exact Hs0 | ].
    split.
    + rewrite bijective26_snoc, Hv, Hval. Z.div_mod_to_equations; lia.
    + rewrite list_ascii_of_string_append, forallb_app, Hu. simpl. now rewrite Hup.
Qed.

(** C9. For every zero-based column index [n >= 0], [_col_letter n] is the
    bijective base-26 name used by spreadsheets: columns 0, 25 and 26 are
    "A", "Z" and "AA"; the result is the [n]-th name of the sequence
    A, B, ..., Z, AA, ..., it consists of the letters A..Z, its bijective
    base-26 value minus one is [n]; and the encoding is injective. *)
Theorem col_letter_bijective_base26 :
  (_col_letter 0 = Some "A" /\ _col_letter 25 = Some "Z" /\ _col_letter 26 = Some "AA")
  /\ (forall n : Z, 0 <= n ->
        exists s, _col_letter n = Some s
                  /\ s = standard_name (Z.to_nat n)
                  /\ forallb is_upper (list_ascii_of_string s) = true
                  /\ col_index s = n)
  /\ (forall n m : Z, 0 <= n -> 0 <= m -> _col_letter n = _col_letter m -> n = m).
Proof.
  split; [repeat split; reflexivity|].
  assert (Hall : forall n : Z, 0 <= n ->
        exists s, _col_letter n = Some s
                  /\ s = standard_name (Z.to_nat n)
                  /\ forallb is_upper (list_ascii_of_string s) = true
                  /\ col_index s = n).
  { intros n Hn.
    pose proof (col_letter_standard_name (Z.to_nat n)) as Hs.
    rewrite Z2Nat.id in Hs by lia.
    destruct (col_letter_value n Hn _ Hs) as [Hv Hu].
    eexists; repeat split; [exact Hs | exact Hu | unfold col_index; lia]. }
  split; [exact Hall|].
  intros n m Hn Hm Heq.
  destruct (Hall n Hn) as (s & Hs & _ & _ & Hi).
  destruct (Hall m Hm) as (t & Ht & _ & _ & Hj).
  rewrite Hs, Ht in Heq. injection Heq as ->. lia.
Qed.

Lemma col_letter_bijective_base26_witness :
  0 <= 701 /\
  exists s, _col_letter 701 = Some s
            /\ s = standard_name (Z.to_nat 701)
            /\ forallb is_upper (list_ascii_of_string s) = true
            /\ col_index s = 701.
Proof.
  split; [lia|].
  apply (proj1 (proj2 col_letter_bijective_base26) 701). lia.
Defined.

End ColLetter.
(** * RangePartitioner *)

Section RangePartitioner.
Import Calendar EpiasClient Partition Examples.

Lemma valid_in_range dt : valid dt = true -> in_range dt /\ 1 <= year dt <= 9999
                                             /\ day dt <= days_in_month (year dt) (month dt).
Proof.
  unfold valid, valid_date, valid_time, in_range, MINYEAR, MAXYEAR. intros H.
  pose proof (days_in_month_bounds (year dt) (month dt)). lia.
Qed.

Lemma dt_compare_ord a b :
  in_range a -> in_range b -> dt_compare a b = (ord a ?= ord b).
Proof.
  unfold in_range, dt_compare, date_compare, ord, date_key, month_index, lex.
  destruct a as [ya ma da ha mia sa], b as [yb mb db hb mib sb].
  cbn [year month day hour minute second]. intros Ha Hb.
  symmetry.
  destruct (Z.compare_spec ya yb);
    [destruct (Z.compare_spec ma mb);
      [destruct (Z.compare_spec da db);
        [destruct (Z.compare_spec ha hb);
          [destruct (Z.compare_spec mia mib);
            [destruct (Z.compare_spec sa sb)|..]|..]|..]|..]|..];
    first [apply Z.compare_eq_iff | apply Z.compare_lt_iff | apply Z.compare_gt_iff]; lia.
Qed.

Lemma date_compare_key a b :
  in_range a -> in_range b -> date_compare a b = (date_key a ?= date_key b).
Proof.
  unfold in_range, date_compare, date_key, month_index, lex.
  destruct a as [ya ma da ha mia sa], b as [yb mb db hb mib sb].
  cbn [year month day hour minute second]. intros Ha Hb.
  symmetry.
  destruct (Z.compare_spec ya yb);
    [destruct (Z.compare_spec ma mb); [destruct (Z.compare_spec da db)|..]|..];
    first [apply Z.compare_eq_iff | apply Z.compare_lt_iff | apply Z.compare_gt_iff]; lia.
Qed.

Lemma dt_leb_ord a b : in_range a -> in_range b -> dt_leb a b = (ord a <=? ord b).
Proof.
  intros Ha Hb. unfold dt_leb, Z.leb. now rewrite dt_compare_ord.
Qed.

Lemma dt_ltb_ord a b : in_range a -> in_range b -> dt_ltb a b = (ord a <? ord b).
Proof.
  intros Ha Hb. unfold dt_ltb, Z.ltb. now rewrite dt_compare_ord.
Qed.

Lemma date_leb_key a b : in_range a -> in_range b -> date_leb a b = (date_key a <=? date_key b).
Proof.
  intros Ha Hb. unfold date_leb, Z.leb. now rewrite date_compare_key.
Qed.

Lemma date_ltb_key a b : in_range a -> in_range b -> date_ltb a b = (date_key a <? date_key b).
Proof.
  intros Ha Hb. unfold date_ltb, Z.ltb. now rewrite date_compare_key.
Qed.

Lemma first_of_month_facts k :
  in_range (first_of_month k) /\ month_index (first_of_month k) = k
  /\ date_key (first_of_month k) = k * 31 /\ ord (first_of_month k) = k * 31 * 86400.
Proof.
  unfold in_range, first_of_month, ord, date_key, month_index.
  cbn [year month day hour minute second].
  Z.div_mod_to_equations; lia.
Qed.

Lemma last_of_month_facts k :
  in_range (last_of_month k) /\ month_index (last_of_month k) = k
  /\ date_key (last_of_month k) = k * 31 + (days_in_month (k / 12) (k mod 12 + 1) - 1).
Proof.
  unfold in_range, last_of_month, date_key, month_index.
  cbn [year month day hour minute second].
  pose proof (days_in_month_bounds (k / 12) (k mod 12 + 1)).
  Z.div_mod_to_equations; lia.
Qed.

Lemma first_of_own_month dt :
  1 <= month dt <= 12 ->
  mk_datetime (year dt) (month dt) 1 0 0 0 = first_of_month (month_index dt).
Proof.
  intros Hm. unfold first_of_month, month_index. f_equal; Z.div_mod_to_equations; lia.
Qed.

(** The month after position [k], as the loop computes it. *)
Lemma next_month_step k :
  MINYEAR * 12 <= k <= last_steppable_month ->
  (if month (first_of_month k) =? 12
   then make_datetime (year (first_of_month k) + 1) 1 1
   else make_datetime (year (first_of_month k)) (month (first_of_month k) + 1) 1)
  = Some (first_of_month (k + 1)).
Proof.
  unfold MINYEAR, last_steppable_month, MAXYEAR, first_of_month, make_datetime.
  cbn [year month]. intros Hk.
  destruct (Z.eqb_spec (k mod 12 + 1) 12) as [H12|H12].
  - assert (Hq : (k + 1) / 12 = k / 12 + 1) by (Z.div_mod_to_equations; lia).
    assert (Hr : (k + 1) mod 12 = 0) by (Z.div_mod_to_equations; lia).
    rewrite Hq, Hr.
    replace (valid_date (k / 12 + 1) 1 1) with true; [reflexivity|].
    unfold valid_date, MINYEAR, MAXYEAR.
    pose proof (days_in_month_bounds (k / 12 + 1) 1).
    symmetry. Z.div_mod_to_equations; lia.
  - assert (Hq : (k + 1) / 12 = k / 12) by (Z.div_mod_to_equations; lia).
    assert (Hr : (k + 1) mod 12 = k mod 12 + 1) by (Z.div_mod_to_equations; lia).
    rewrite Hq, Hr.
    replace (valid_date (k / 12) (k mod 12 + 1 + 1) 1) with true; [reflexivity|].
    unfold valid_date, MINYEAR, MAXYEAR.
    pose proof (days_in_month_bounds (k / 12) (k mod 12 + 1 + 1)).
    symmetry. Z.div_mod_to_equations; lia.
Qed.

Lemma minus_one_day_first k :
  minus_one_day (first_of_month (k + 1)) = last_of_month k.
Proof.
  unfold minus_one_day, first_of_month, last_of_month.
  cbn [year month day hour minute second]. cbn [Z.ltb Z.compare].
  destruct (Z.ltb_spec 1 ((k + 1) mod 12 + 1)) as [H|H].
  - assert (Hq : (k + 1) / 12 = k / 12) by (Z.div_mod_to_equations; lia).
    assert (Hr : (k + 1) mod 12 + 1 - 1 = k mod 12 + 1) by (Z.div_mod_to_equations; lia).
    now rewrite Hr, Hq.
  - assert (Hq : (k + 1) / 12 - 1 = k / 12) by (Z.div_mod_to_equations; lia).
    assert (Hr : k mod 12 + 1 = 12) by (Z.div_mod_to_equations; lia).
    rewrite Hq, Hr. reflexivity.
Qed.

Lemma periods_from_S start_dt end_dt k n :
  periods_from start_dt end_dt k (S n)
  = period start_dt end_dt k :: periods_from start_dt end_dt (k + 1) n.
Proof.
  unfold periods_from. cbn [seq map]. rewrite Z.add_0_r. f_equal.
  rewrite <- seq_shift, map_map. apply map_ext. intros i. f_equal. lia.
Qed.

(** The loop, started at the first of month [k] with [n] months to go up to
    the month of [end_dt], appends the periods of these months. *)
Lemma month_loop_closed start_dt end_dt (n : nat) :
  in_range end_dt ->
  forall fuel k ranges,
    MINYEAR * 12 <= k ->
    month_index end_dt <= last_steppable_month ->
    k + Z.of_nat n = month_index end_dt + 1 ->
    (n < fuel)%nat ->
    month_loop fuel start_dt end_dt (first_of_month k) ranges
    = Some (inr (ranges ++ map format_period (periods_from start_dt end_dt k n))).
Proof.
  intros Hend. induction n as [|n IH]; intros fuel k ranges Hk Hlast Hn Hfuel;
    (destruct fuel as [|fuel]; [lia|]); cbn [month_loop].
  - destruct (first_of_month_facts k) as (Hr & Hidx & Hkey & Hord).
    rewrite dt_leb_ord by assumption.
    replace (ord (first_of_month k) <=? ord end_dt) with false.
    + cbn [periods_from seq map]. now rewrite app_nil_r.
    + symmetry. apply Z.leb_gt. rewrite Hord.
      unfold in_range in Hend. unfold ord, date_key. lia.
  - destruct (first_of_month_facts k) as (Hr & Hidx & Hkey & Hord).
    rewrite dt_leb_ord by assumption.
    replace (ord (first_of_month k) <=? ord end_dt) with true.
    + rewrite next_month_step by lia. rewrite minus_one_day_first.
      rewrite (IH fuel (k + 1)) by lia.
      rewrite periods_from_S. cbn [map]. now rewrite <- app_assoc.
    + symmetry. apply Z.leb_le. rewrite Hord.
      unfold in_range in Hend. unfold ord, date_key. lia.
Qed.

Lemma month_start_end_strings_closed start_dt end_dt :
  valid start_dt = true -> valid end_dt = true ->
  dt_leb start_dt end_dt = true ->
  month_index end_dt <= last_steppable_month ->
  month_index start_dt <= month_index end_dt
  /\ month_start_end_strings start_dt end_dt
     = Some (inr (map format_period
                    (periods_from start_dt end_dt (month_index start_dt)
                       (Z.to_nat (month_index end_dt - month_index start_dt + 1))))).
Proof.
  intros Hvs Hve Hle Hlast.
  destruct (valid_in_range _ Hvs) as (Hrs & Hys & Hds).
  destruct (valid_in_range _ Hve) as (Hre & Hye & Hde).
  rewrite dt_leb_ord in Hle by assumption. apply Z.leb_le in Hle.
  assert (Hidx : month_index start_dt <= month_index end_dt).
  { unfold in_range in Hrs, Hre. unfold ord, date_key in Hle. lia. }
  split; [exact Hidx|].
  unfold month_start_end_strings.
  rewrite dt_ltb_ord by assumption.
  replace (ord end_dt <? ord start_dt) with false by (symmetry; apply Z.ltb_ge; lia).
  unfold make_datetime.
  replace (valid_date (year start_dt) (month start_dt) 1) with true.
  - match goal with |- context [if ?c then ?a else ?a] => replace (if c then a else a) with a
                                                            by now destruct c end.
    rewrite first_of_own_month by (unfold in_range in Hrs; lia).
    rewrite (month_loop_closed start_dt end_dt
               (Z.to_nat (month_index end_dt - month_index start_dt + 1)));
      try assumption; try reflexivity.
    + unfold MINYEAR, month_index. unfold in_range in Hrs. lia.
    + lia.
    + unfold month_fuel. lia.
  - unfold valid_date, MINYEAR, MAXYEAR.
    pose proof (days_in_month_bounds (year start_dt) (month start_dt)).
    unfold in_range in Hrs. symmetry. lia.
Qed.

(** The two ends of the period of month [k], on the number line of days. *)
Lemma period_facts start_dt end_dt k :
  in_range start_dt -> in_range end_dt ->
  let p := period start_dt end_dt k in
  in_range (fst p) /\ in_range (snd p)
  /\ date_key (fst p) = Z.max (date_key start_dt) (k * 31)
  /\ date_key (snd p)
     = Z.min (date_key end_dt) (k * 31 + (days_in_month (k / 12) (k mod 12 + 1) - 1)).
Proof.
  intros Hrs Hre. cbv zeta. unfold period, dt_max, dt_min. cbn [fst snd].
  destruct (first_of_month_facts k) as (Hrf & _ & Hkf & Hof).
  destruct (last_of_month_facts k) as (Hrl & _ & Hkl).
  assert (Hol : ord (last_of_month k) = date_key (last_of_month k) * 86400)
    by (unfold ord, last_of_month; cbn [hour minute second]; lia).
  rewrite !dt_ltb_ord by assumption.
  destruct (Z.ltb_spec (ord start_dt) (ord (first_of_month k))) as [H1|H1];
    destruct (Z.ltb_spec (ord (last_of_month k)) (ord end_dt)) as [H2|H2];
    (split; [assumption|]); (split; [assumption|]);
    rewrite ?Hkf, ?Hkl;
    unfold in_range in Hrs, Hre; unfold ord in H1, H2, Hof, Hol;
    rewrite ?Hkf, ?Hkl in *; lia.
Qed.

Lemma month_of_date_key dt :
  in_range dt -> month_index dt * 31 <= date_key dt <= month_index dt * 31 + 30.
Proof. unfold in_range, date_key. lia. Qed.

Lemma month_length_bounds k :
  27 <= days_in_month (k / 12) (k mod 12 + 1) - 1 <= 30.
Proof. pose proof (days_in_month_bounds (k / 12) (k mod 12 + 1)). lia. Qed.

Lemma plus_one_day_last k :
  plus_one_day (last_of_month k) = first_of_month (k + 1).
Proof.
  unfold plus_one_day, last_of_month, first_of_month.
  cbn [year month day hour minute second].
  rewrite Z.ltb_irrefl.
  destruct (Z.ltb_spec (k mod 12 + 1) 12) as [H|H].
  - assert (Hq : (k + 1) / 12 = k / 12) by (Z.div_mod_to_equations; lia).
    assert (Hr : (k + 1) mod 12 + 1 = k mod 12 + 1 + 1) by (Z.div_mod_to_equations; lia).
    now rewrite Hq, Hr.
  - assert (Hq : (k + 1) / 12 = k / 12 + 1) by (Z.div_mod_to_equations; lia).
    assert (Hr : (k + 1) mod 12 + 1 = 1) by (Z.div_mod_to_equations; lia).
    now rewrite Hq, Hr.
Qed.

(** Between two consecutive months of the range the period ends on the last
    day of the first and the next starts on the first day of the second. *)
Lemma consecutive_periods start_dt end_dt k :
  in_range start_dt -> in_range end_dt ->
  month_index start_dt <= k -> k + 1 <= month_index end_dt ->
  snd (period start_dt end_dt k) = last_of_month k
  /\ fst (period start_dt end_dt (k + 1)) = first_of_month (k + 1).
Proof.
  intros Hrs Hre Hk0 Hk1. unfold period, dt_max, dt_min. cbn [fst snd].
  destruct (first_of_month_facts (k + 1)) as (Hrf & _ & _ & Hof).
  destruct (last_of_month_facts k) as (Hrl & _ & Hkl).
  pose proof (month_length_bounds k).
  assert (Hol : ord (last_of_month k) = date_key (last_of_month k) * 86400)
    by (unfold ord, last_of_month; cbn [hour minute second]; lia).
  rewrite !dt_ltb_ord by assumption.
  pose proof (month_of_date_key _ Hrs). pose proof (month_of_date_key _ Hre).
  unfold in_range in Hrs, Hre.
  replace (ord (last_of_month k) <? ord end_dt) with true
    by (symmetry; apply Z.ltb_lt; unfold ord in *; lia).
  replace (ord start_dt <? ord (first_of_month (k + 1))) with true
    by (symmetry; apply Z.ltb_lt; unfold ord in *; lia).
  split; reflexivity.
Qed.

Lemma periods_from_nth start_dt end_dt k n i p :
  nth_error (periods_from start_dt end_dt k n) i = Some p ->
  (i < n)%nat /\ p = period start_dt end_dt (k + Z.of_nat i).
Proof.
  unfold periods_from. intros H.
  assert (Hi : (i < n)%nat).
  { assert (Hsome : nth_error (map (fun i => period start_dt end_dt (k + Z.of_nat i))
                                   (seq 0 n)) i <> None) by congruence.
    apply nth_error_Some in Hsome. now rewrite length_map, length_seq in Hsome. }
  split; [exact Hi|].
  rewrite nth_error_map, nth_error_seq in H.
  destruct (Nat.ltb_spec i n); [|lia]. cbn in H. now injection H as <-.
Qed.

Lemma periods_from_In start_dt end_dt k n p :
  In p (periods_from start_dt end_dt k n) <->
  exists j, k <= j < k + Z.of_nat n /\ p = period start_dt end_dt j.
Proof.
  unfold periods_from. rewrite in_map_iff. split.
  - intros (i & <- & Hi). apply in_seq in Hi. exists (k + Z.of_nat i). split; [lia|reflexivity].
  - intros (j & Hj & ->). exists (Z.to_nat (j - k)). split.
    + f_equal. lia.
    + apply in_seq. lia.
Qed.

(** From the year 1000 on the text has the shape YYYY-MM-DDTHH:MM:SS+03:00. *)
Lemma strftime_shape dt :
  1000 <= year dt -> has_shape iso_pattern (strftime_ISO_FMT dt) = true.
Proof.
  intros Hy.
  assert (Hdig : forall n, is_digit (digit_char (n mod 10)) = true)
    by (intros n; apply is_digit_digit_char; Z.div_mod_to_equations; lia).
  unfold strftime_ISO_FMT, iso_pattern. rewrite year_text_pad by exact Hy.
  cbn [pad String.append app day_pattern hm_pattern has_shape accepts].
  rewrite !Hdig. reflexivity.
Qed.

Lemma month_index_div dt :
  in_range dt -> month_index dt / 12 = year dt /\ month_index dt mod 12 + 1 = month dt.
Proof.
  unfold in_range, month_index. intros H. Z.div_mod_to_equations; lia.
Qed.

(** A valid day lies among the days of its own month. *)
Lemma valid_day_in_month dt :
  valid dt = true ->
  let k := month_index dt in
  k * 31 <= date_key dt <= k * 31 + (days_in_month (k / 12) (k mod 12 + 1) - 1).
Proof.
  intros Hv. destruct (valid_in_range _ Hv) as (Hr & _ & Hd). cbv zeta.
  destruct (month_index_div _ Hr) as [-> ->].
  unfold in_range in Hr. unfold date_key. lia.
Qed.

(** The period of a month of the range, on the number line of days. *)
Lemma period_of_range start_dt end_dt k :
  valid start_dt = true -> valid end_dt = true ->
  ord start_dt <= ord end_dt ->
  month_index start_dt <= k <= month_index end_dt ->
  let p := period start_dt end_dt k in
  in_range (fst p) /\ in_range (snd p)
  /\ month_index (fst p) = k /\ month_index (snd p) = k
  /\ date_key start_dt <= date_key (fst p) /\ date_key (fst p) <= date_key (snd p)
  /\ date_key (snd p) <= date_key end_dt
  /\ date_key (fst p) = Z.max (date_key start_dt) (k * 31)
  /\ date_key (snd p)
     = Z.min (date_key end_dt) (k * 31 + (days_in_month (k / 12) (k mod 12 + 1) - 1)).
Proof.
  intros Hvs Hve Hle Hk. cbv zeta.
  destruct (valid_in_range _ Hvs) as (Hrs & _ & _).
  destruct (valid_in_range _ Hve) as (Hre & _ & _).
  destruct (period_facts start_dt end_dt k Hrs Hre) as (Hrf & Hrl & Hf & Hl).
  pose proof (month_of_date_key _ Hrf). pose proof (month_of_date_key _ Hrl).
  pose proof (month_of_date_key _ Hrs). pose proof (month_of_date_key _ Hre).
  pose proof (month_length_bounds k).
  pose proof (valid_day_in_month _ Hvs) as Hds. cbv zeta in Hds.
  assert (Hdd : date_key start_dt <= date_key end_dt).
  { clear - Hle Hrs Hre. unfold in_range in Hrs, Hre. unfold ord in Hle. lia. }
  assert (Hstart : date_key start_dt
                   <= k * 31 + (days_in_month (k / 12) (k mod 12 + 1) - 1)).
  { destruct (Z.eq_dec k (month_index start_dt)) as [->|Hne]; lia. }
  split; [exact Hrf|]. split; [exact Hrl|].
  repeat split; try assumption; lia.
Qed.

(** *** The periods as intervals of timestamps *)

Lemma late_on_last_day_spec dt :
  late_on_last_day dt = true <->
  day dt = days_in_month (year dt) (month dt)
  /\ ~ (hour dt = 0 /\ minute dt = 0 /\ second dt = 0).
Proof.
  unfold late_on_last_day.
  rewrite Bool.andb_true_iff, Bool.negb_true_iff, Z.eqb_eq.
  split; intros [H1 H2]; (split; [exact H1|]).
  - intros (Hh & Hm & Hs). rewrite Hh, Hm, Hs in H2. discriminate.
  - destruct (Z.eqb_spec (hour dt) 0) as [Hh|Hh]; [|reflexivity].
    destruct (Z.eqb_spec (minute dt) 0) as [Hm|Hm]; [|reflexivity].
    destruct (Z.eqb_spec (second dt) 0) as [Hs|Hs]; [|reflexivity].
    exfalso. apply H2. now repeat split.
Qed.

Lemma ord_last_of_month k :
  ord (last_of_month k) = (k * 31 + (days_in_month (k / 12) (k mod 12 + 1) - 1)) * 86400.
Proof.
  destruct (last_of_month_facts k) as (_ & _ & Hk).
  unfold ord. rewrite Hk. unfold last_of_month. cbn [hour minute second]. lia.
Qed.

(** A valid timestamp is late on the last day of its month exactly when it
    lies after the midnight that starts this day. *)
Lemma late_after_last dt :
  valid dt = true ->
  (late_on_last_day dt = true <-> ord (last_of_month (month_index dt)) < ord dt).
Proof.
  intros Hv. destruct (valid_in_range _ Hv) as (Hr & _ & Hd).
  rewrite late_on_last_day_spec, ord_last_of_month.
  destruct (month_index_div _ Hr) as [-> ->].
  unfold in_range in Hr. unfold ord, date_key. split.
  - intros [Hday Hnot].
    assert (0 < hour dt \/ 0 < minute dt \/ 0 < second dt) by lia. lia.
  - intros Hlt. split; lia.
Qed.

Lemma dt_min_last end_dt :
  valid end_dt = true ->
  dt_min end_dt (last_of_month (month_index end_dt))
  = if late_on_last_day end_dt then midnight_of end_dt else end_dt.
Proof.
  intros Hv. destruct (valid_in_range _ Hv) as (Hr & _ & _).
  destruct (last_of_month_facts (month_index end_dt)) as (Hrl & _ & _).
  unfold dt_min. rewrite dt_ltb_ord by assumption.
  pose proof (late_after_last _ Hv) as Hlate.
  destruct (late_on_last_day end_dt) eqn:E.
  - replace (ord (last_of_month (month_index end_dt)) <? ord end_dt) with true
      by (symmetry; apply Z.ltb_lt; now apply Hlate).
    apply late_on_last_day_spec in E as [Hday _].
    unfold last_of_month, midnight_of.
    destruct (month_index_div _ Hr) as [-> ->]. now rewrite Hday.
  - replace (ord (last_of_month (month_index end_dt)) <? ord end_dt) with false;
      [reflexivity|].
    symmetry. apply Z.ltb_ge.
    destruct (Z.lt_ge_cases (ord (last_of_month (month_index end_dt))) (ord end_dt)) as [Hlt|Hge];
      [|lia].
    apply Hlate in Hlt. discriminate.
Qed.

(** The two ends of the period of month [k], on the number line of seconds. *)
Lemma period_ord start_dt end_dt k :
  in_range start_dt -> in_range end_dt ->
  let p := period start_dt end_dt k in
  in_range (fst p) /\ in_range (snd p)
  /\ ord (fst p) = Z.max (ord start_dt) (k * 31 * 86400)
  /\ ord (snd p) = Z.min (ord end_dt) (ord (last_of_month k)).
Proof.
  intros Hrs Hre. cbv zeta. unfold period, dt_max, dt_min. cbn [fst snd].
  destruct (first_of_month_facts k) as (Hrf & _ & _ & Hof).
  destruct (last_of_month_facts k) as (Hrl & _ & _).
  rewrite !dt_ltb_ord by assumption.
  destruct (Z.ltb_spec (ord start_dt) (ord (first_of_month k))) as [H1|H1];
    destruct (Z.ltb_spec (ord (last_of_month k)) (ord end_dt)) as [H2|H2];
    (split; [assumption|]); (split; [assumption|]); lia.
Qed.

Lemma ord_date_key dt :
  in_range dt -> date_key dt * 86400 <= ord dt < date_key dt * 86400 + 86400.
Proof. unfold in_range, ord. lia. Qed.

(** The ends of the period of a month of the range: the first period starts
    at [start_dt] and the later ones at the first midnight of their month;
    the last period ends at [end_dt], cut to midnight when [end_dt] is late
    on the last day of its month, and the earlier ones at the midnight that
    starts the last day of their month. *)
Lemma period_ends start_dt end_dt k :
  valid start_dt = true -> valid end_dt = true ->
  ord start_dt <= ord end_dt ->
  month_index start_dt <= k <= month_index end_dt ->
  fst (period start_dt end_dt k)
  = (if k =? month_index start_dt then start_dt else first_of_month k)
  /\ snd (period start_dt end_dt k)
     = (if k =? month_index end_dt
        then (if late_on_last_day end_dt then midnight_of end_dt else end_dt)
        else last_of_month k).
Proof.
  intros Hvs Hve Hle Hk.
  destruct (valid_in_range _ Hvs) as (Hrs & _ & _).
  destruct (valid_in_range _ Hve) as (Hre & _ & _).
  split.
  - destruct (Z.eqb_spec k (month_index start_dt)) as [->|Hne].
    + unfold period, dt_max. cbn [fst].
      destruct (first_of_month_facts (month_index start_dt)) as (Hrf & _ & _ & Hof).
      rewrite dt_ltb_ord by assumption.
      replace (ord start_dt <? ord (first_of_month (month_index start_dt))) with false;
        [reflexivity|].
      symmetry. apply Z.ltb_ge. rewrite Hof.
      pose proof (ord_date_key _ Hrs). pose proof (month_of_date_key _ Hrs). lia.
    + destruct (consecutive_periods start_dt end_dt (k - 1) Hrs Hre) as [_ Hf]; [lia|lia|].
      now replace (k - 1 + 1) with k in Hf by lia.
  - destruct (Z.eqb_spec k (month_index end_dt)) as [->|Hne].
    + unfold period. cbn [snd]. now apply dt_min_last.
    + destruct (consecutive_periods start_dt end_dt k Hrs Hre) as [Hl _]; [lia|lia|].
      exact Hl.
Qed.

(** A period ends before it starts only when it is the first one and
    [start_dt] is late on the last day of its month. *)
Lemma period_inverted start_dt end_dt k :
  valid start_dt = true -> valid end_dt = true ->
  ord start_dt <= ord end_dt ->
  month_index start_dt <= k <= month_index end_dt ->
  (dt_ltb (snd (period start_dt end_dt k)) (fst (period start_dt end_dt k)) = true
   <-> k = month_index start_dt /\ late_on_last_day start_dt = true).
Proof.
  intros Hvs Hve Hle Hk.
  destruct (valid_in_range _ Hvs) as (Hrs & _ & _).
  destruct (valid_in_range _ Hve) as (Hre & _ & _).
  destruct (period_ord start_dt end_dt k Hrs Hre) as (Hrf & Hrl & Hof & Hol).
  rewrite dt_ltb_ord by assumption. rewrite Z.ltb_lt, Hof, Hol.
  rewrite (late_after_last _ Hvs).
  pose proof (ord_last_of_month k) as HLk.
  pose proof (ord_last_of_month (month_index start_dt)) as HL0.
  pose proof (month_length_bounds k).
  pose proof (month_length_bounds (month_index start_dt)).
  pose proof (ord_date_key _ Hrs). pose proof (ord_date_key _ Hre).
  pose proof (month_of_date_key _ Hrs). pose proof (month_of_date_key _ Hre).
  split.
  - intros Hlt.
    assert (Hk0 : k = month_index start_dt) by lia.
    split; [exact Hk0|]. subst k. lia.
  - intros [-> Hlate]. lia.
Qed.

(** The timestamps the periods cover: those of the range that are not late
    on the last day of a month. *)
Lemma covered_timestamps start_dt end_dt t :
  valid start_dt = true -> valid end_dt = true -> valid t = true ->
  ord start_dt <= ord end_dt ->
  ((exists k, month_index start_dt <= k <= month_index end_dt
              /\ in_period t (period start_dt end_dt k) = true)
   <-> (dt_leb start_dt t && dt_leb t end_dt = true /\ late_on_last_day t = false)).
Proof.
  intros Hvs Hve Hvt Hle.
  destruct (valid_in_range _ Hvs) as (Hrs & _ & _).
  destruct (valid_in_range _ Hve) as (Hre & _ & _).
  destruct (valid_in_range _ Hvt) as (Hrt & _ & _).
  rewrite !dt_leb_ord by assumption.
  rewrite Bool.andb_true_iff, !Z.leb_le.
  pose proof (late_after_last _ Hvt) as Hlate.
  pose proof (ord_date_key _ Hrs). pose proof (ord_date_key _ Hre).
  pose proof (ord_date_key _ Hrt).
  pose proof (month_of_date_key _ Hrs). pose proof (month_of_date_key _ Hre).
  pose proof (month_of_date_key _ Hrt).
  split.
  - intros (k & Hk & Hin).
    destruct (period_ord start_dt end_dt k Hrs Hre) as (Hrf & Hrl & Hof & Hol).
    unfold in_period in Hin. rewrite !dt_leb_ord in Hin by assumption.
    apply andb_prop in Hin as [Hlo Hhi]. apply Z.leb_le in Hlo. apply Z.leb_le in Hhi.
    rewrite Hof in Hlo. rewrite Hol in Hhi.
    pose proof (ord_last_of_month k) as HLk. pose proof (month_length_bounds k).
    split; [lia|].
    destruct (late_on_last_day t) eqn:E; [|reflexivity].
    assert (Hkt : month_index t = k) by lia.
    assert (Hafter : ord (last_of_month (month_index t)) < ord t) by now apply Hlate.
    rewrite Hkt in Hafter. lia.
  - intros [[Hlo Hhi] Hnot].
    exists (month_index t). split; [lia|].
    destruct (period_ord start_dt end_dt (month_index t) Hrs Hre) as (Hrf & Hrl & Hof & Hol).
    unfold in_period. rewrite !dt_leb_ord by assumption.
    apply andb_true_intro. rewrite !Z.leb_le, Hof, Hol.
    assert (Hbefore : ord t <= ord (last_of_month (month_index t))).
    { destruct (Z.lt_ge_cases (ord (last_of_month (month_index t))) (ord t)) as [Hlt|Hge];
        [|lia].
      apply Hlate in Hlt. congruence. }
    split; lia.
Qed.

(** C2, as the code has it.  For all valid timestamps with start <= end,
    [end] not in December 9999, [month_start_end_strings] returns one period
    per calendar month from [start]'s to [end]'s, in order, each end printed
    under [ISO_FMT] (the shape YYYY-MM-DDTHH:MM:SS+03:00 from the year 1000
    on).  The first period starts at [start] and every later one at
    00:00:00 of the first day of its month; every period but the last ends
    at 00:00:00 of the last day of its month, and the last ends at [end], or
    at 00:00:00 of [end]'s day when [end] is later than that on the last day
    of its month.  Counted in calendar days the periods lie each within its
    single month, are non-overlapping and contiguous (the next starts on the
    day after the one before ends), and a valid day lies between the days
    of [start] and [end] exactly when it lies in one of the periods.
    Counted in timestamps, a valid time lies in one of the periods exactly
    when it lies between [start] and [end] and is not later than 00:00:00 on
    the last day of a month; and a period ends before it starts exactly
    when it is the first one and [start] is later than 00:00:00 on the last
    day of its month.  A range within one month gives one period, three
    full months give three.  When end < start the function raises before
    any request is sent. *)
Theorem month_ranges_partition_days :
  (forall start_dt end_dt,
      valid start_dt = true -> valid end_dt = true ->
      dt_leb start_dt end_dt = true ->
      month_index end_dt <= last_steppable_month ->
      exists periods,
        month_start_end_strings start_dt end_dt = Some (inr (map format_period periods))
        /\ Z.of_nat (length periods) = month_index end_dt - month_index start_dt + 1
        /\ (forall i p, nth_error periods i = Some p ->
              month_index (fst p) = month_index start_dt + Z.of_nat i
              /\ month_index (snd p) = month_index (fst p)
              /\ date_leb (fst p) (snd p) = true
              /\ (1000 <= year start_dt ->
                  has_shape iso_pattern (fst (format_period p)) = true
                  /\ has_shape iso_pattern (snd (format_period p)) = true))
        /\ (forall i p, nth_error periods i = Some p ->
              fst p = (if (i =? 0)%nat then start_dt
                       else first_of_month (month_index start_dt + Z.of_nat i))
              /\ snd p = (if (S i =? length periods)%nat
                          then (if late_on_last_day end_dt
                                then midnight_of end_dt else end_dt)
                          else last_of_month (month_index start_dt + Z.of_nat i))
              /\ (dt_ltb (snd p) (fst p) = true <->
                  i = 0%nat /\ late_on_last_day start_dt = true))
        /\ (forall i p q,
              nth_error periods i = Some p -> nth_error periods (S i) = Some q ->
              fst q = plus_one_day (snd p))
        /\ (forall i j p q, (i < j)%nat ->
              nth_error periods i = Some p -> nth_error periods j = Some q ->
              date_ltb (snd p) (fst q) = true)
        /\ (forall d, valid d = true ->
              (date_leb start_dt d && date_leb d end_dt = true <->
               exists p, In p periods /\ day_in_period d p = true))
        /\ (forall t, valid t = true ->
              ((exists p, In p periods /\ in_period t p = true) <->
               (dt_leb start_dt t && dt_leb t end_dt = true
                /\ late_on_last_day t = false))))
  /\ (forall start_dt end_dt post_json,
        dt_ltb end_dt start_dt = true ->
        month_start_end_strings start_dt end_dt
        = Some (inl (ValueError "end_dt must be >= start_dt"))
        /\ fetch_items post_json start_dt end_dt
           = Some ([], inl (ValueError "end_dt must be >= start_dt")))
  /\ (option_map (fun r => match r with inr l => Some (length l) | inl _ => None end)
        (month_start_end_strings (mk_datetime 2024 3 5 0 0 0) (mk_datetime 2024 3 5 0 0 0))
      = Some (Some 1%nat)
      /\ option_map (fun r => match r with inr l => Some (length l) | inl _ => None end)
           (month_start_end_strings (mk_datetime 2024 1 1 0 0 0) (mk_datetime 2024 3 31 0 0 0))
         = Some (Some 3%nat)).
Proof.
  split; [|split].
  - intros start_dt end_dt Hvs Hve Hle Hlast.
    destruct (month_start_end_strings_closed _ _ Hvs Hve Hle Hlast) as [Hidx Hclosed].
    destruct (valid_in_range _ Hvs) as (Hrs & _ & _).
    destruct (valid_in_range _ Hve) as (Hre & _ & _).
    assert (Hord : ord start_dt <= ord end_dt)
      by (rewrite dt_leb_ord in Hle by assumption; now apply Z.leb_le).
    set (K0 := month_index start_dt) in *. set (K1 := month_index end_dt) in *.
    set (n := Z.to_nat (K1 - K0 + 1)) in *.
    exists (periods_from start_dt end_dt K0 n).
    assert (Hlen : length (periods_from start_dt end_dt K0 n) = n)
      by (unfold periods_from; now rewrite length_map, length_seq).
    split; [exact Hclosed|].
    split; [rewrite Hlen; lia|].
    assert (Hp : forall k, K0 <= k <= K1 ->
               let p := period start_dt end_dt k in
               in_range (fst p) /\ in_range (snd p)
               /\ month_index (fst p) = k /\ month_index (snd p) = k
               /\ date_key start_dt <= date_key (fst p)
               /\ date_key (fst p) <= date_key (snd p)
               /\ date_key (snd p) <= date_key end_dt
               /\ date_key (fst p) = Z.max (date_key start_dt) (k * 31)
               /\ date_key (snd p)
                  = Z.min (date_key end_dt)
                      (k * 31 + (days_in_month (k / 12) (k mod 12 + 1) - 1)))
      by (intros k Hk; now apply period_of_range).
    split; [|split; [|split; [|split; [|split]]]].
    + intros i p Hnth. apply periods_from_nth in Hnth as [Hi ->].
      destruct (Hp (K0 + Z.of_nat i) ltac:(lia)) as (Hrf & Hrl & Hmf & Hml & _ & Hfl & _).
      rewrite Hmf, Hml, date_leb_key by assumption.
      split; [reflexivity|]. split; [reflexivity|]. split; [now apply Z.leb_le|].
      intros Hy. unfold format_period. cbn [fst snd].
      split; apply strftime_shape.
      * clear - Hy Hmf Hrf Hrs. unfold K0, month_index, in_range in *. lia.
      * clear - Hy Hml Hrl Hrs. unfold K0, month_index, in_range in *. lia.
    + intros i p Hnth. apply periods_from_nth in Hnth as [Hi ->].
      destruct (period_ends start_dt end_dt (K0 + Z.of_nat i) Hvs Hve Hord) as [Hf Hl];
        [fold K0 K1; lia|].
      fold K0 K1 in Hf, Hl. rewrite Hlen.
      split; [|split].
      * rewrite Hf. destruct i as [|i].
        -- replace (K0 + Z.of_nat 0 =? K0) with true by (symmetry; apply Z.eqb_eq; lia).
           reflexivity.
        -- replace (K0 + Z.of_nat (S i) =? K0) with false by (symmetry; apply Z.eqb_neq; lia).
           reflexivity.
      * rewrite Hl. destruct (Nat.eqb_spec (S i) n) as [Hlast'|Hlast'].
        -- replace (K0 + Z.of_nat i =? K1) with true by (symmetry; apply Z.eqb_eq; lia).
           reflexivity.
        -- replace (K0 + Z.of_nat i =? K1) with false by (symmetry; apply Z.eqb_neq; lia).
           reflexivity.
      * rewrite (period_inverted start_dt end_dt (K0 + Z.of_nat i) Hvs Hve Hord)
          by (fold K0 K1; lia).
        fold K0. split; intros [Hk Hlate]; (split; [lia | exact Hlate]).
    + intros i p q Hp1 Hq1.
      apply periods_from_nth in Hp1 as [Hi ->]. apply periods_from_nth in Hq1 as [Hj ->].
      destruct (consecutive_periods start_dt end_dt (K0 + Z.of_nat i) Hrs Hre) as [Hl Hf];
        [fold K0; lia | fold K1; lia |].
      replace (K0 + Z.of_nat (S i)) with (K0 + Z.of_nat i + 1) by lia.
      rewrite Hl, Hf. symmetry. apply plus_one_day_last.
    + intros i j p q Hij Hp1 Hq1.
      apply periods_from_nth in Hp1 as [Hi ->]. apply periods_from_nth in Hq1 as [Hj ->].
      destruct (Hp (K0 + Z.of_nat i) ltac:(lia)) as (_ & Hrl & _ & Hml & _).
      destruct (Hp (K0 + Z.of_nat j) ltac:(lia)) as (Hrf & _ & Hmf & _).
      rewrite date_ltb_key by assumption. apply Z.ltb_lt.
      pose proof (month_of_date_key _ Hrl). pose proof (month_of_date_key _ Hrf). lia.
    + intros d Hvd. destruct (valid_in_range _ Hvd) as (Hrd & _ & _).
      pose proof (valid_day_in_month _ Hvd) as Hday. cbv zeta in Hday.
      rewrite !date_leb_key by assumption. split.
      * intros Hin. apply andb_prop in Hin as [H1 H2].
        apply Z.leb_le in H1. apply Z.leb_le in H2.
        pose proof (month_of_date_key _ Hrs). pose proof (month_of_date_key _ Hre).
        pose proof (month_of_date_key _ Hrd).
        assert (Hk : K0 <= month_index d <= K1) by (unfold K0, K1; lia).
        exists (period start_dt end_dt (month_index d)). split.
        -- apply periods_from_In. exists (month_index d). split; [lia|reflexivity].
        -- destruct (Hp _ Hk) as (Hrf & Hrl & _ & _ & _ & _ & _ & Hf & Hl).
           unfold day_in_period. rewrite !date_leb_key by assumption.
           apply andb_true_intro. split; apply Z.leb_le; lia.
      * intros (p & Hin & Hday_in). apply periods_from_In in Hin as (k & Hk & ->).
        destruct (Hp k ltac:(lia)) as (Hrf & Hrl & _ & _ & Hs & _ & He & _).
        unfold day_in_period in Hday_in. rewrite !date_leb_key in Hday_in by assumption.
        apply andb_prop in Hday_in as [H1 H2].
        apply Z.leb_le in H1. apply Z.leb_le in H2.
        apply andb_true_intro. split; apply Z.leb_le; lia.
    + intros t Hvt.
      rewrite <- (covered_timestamps start_dt end_dt t Hvs Hve Hvt Hord). fold K0 K1.
      split.
      * intros (p & Hin & Hcov). apply periods_from_In in Hin as (k & Hk & ->).
        exists k. split; [lia | exact Hcov].
      * intros (k & Hk & Hcov). exists (period start_dt end_dt k). split; [|exact Hcov].
        apply periods_from_In. exists k. split; [lia | reflexivity].
  - intros start_dt end_dt post_json Hlt.
    assert (H : month_start_end_strings start_dt end_dt
                = Some (inl (ValueError "end_dt must be >= start_dt")))
      by (unfold month_start_end_strings; now rewrite Hlt).
    split; [exact H|]. unfold fetch_items. now rewrite H.
  - split; reflexivity.
Qed.

Lemma month_ranges_partition_days_witness :
  exists periods,
    month_start_end_strings jan_15_0830 mar_10 = Some (inr (map format_period periods))
    /\ Z.of_nat (length periods) = 3.
Proof.
  destruct (proj1 month_ranges_partition_days jan_15_0830 mar_10 eq_refl eq_refl eq_refl)
    as (periods & Hout & Hlen & _).
  - unfold last_steppable_month, MAXYEAR, month_index, mar_10. cbn [year month]. lia.
  - exists periods. split; [exact Hout | exact Hlen].
Defined.

(** C2 as stated fails on timestamps.  From 1 January to 29 February the
    two periods end and start at midnight, so noon of 31 January lies in the
    range and in no period.  From noon of 31 January the first period ends
    (at midnight of 31 January) before it starts.  With [end] in December
    9999 the step to the next month raises.  In the year 999 the texts have
    a year of three digits, not the shape YYYY-MM-DDTHH:MM:SS+03:00. *)
Lemma month_ranges_leave_gaps :
  (valid jan_1 = true /\ valid feb_29 = true /\ dt_leb jan_1 feb_29 = true
   /\ month_start_end_strings jan_1 feb_29
      = Some (inr (map format_period [(jan_1, jan_31); (feb_1, feb_29)]))
   /\ dt_leb jan_1 jan_31_noon && dt_leb jan_31_noon feb_29 = true
   /\ existsb (in_period jan_31_noon) [(jan_1, jan_31); (feb_1, feb_29)] = false)
  /\ (valid jan_31_noon = true /\ valid feb_15 = true /\ dt_leb jan_31_noon feb_15 = true
      /\ month_start_end_strings jan_31_noon feb_15
         = Some (inr (map format_period [(jan_31_noon, jan_31); (feb_1, feb_15)]))
      /\ dt_ltb jan_31 jan_31_noon = true)
  /\ (valid (mk_datetime 9999 12 1 0 0 0) = true
      /\ month_start_end_strings (mk_datetime 9999 12 1 0 0 0) (mk_datetime 9999 12 31 0 0 0)
         = Some (inl (ValueError "year 10000 is out of range")))
  /\ (valid (mk_datetime 999 1 15 0 0 0) = true
      /\ valid (mk_datetime 999 1 20 0 0 0) = true
      /\ month_start_end_strings (mk_datetime 999 1 15 0 0 0) (mk_datetime 999 1 20 0 0 0)
         = Some (inr [("999-01-15T00:00:00+03:00", "999-01-20T00:00:00+03:00")])
      /\ has_shape iso_pattern "999-01-15T00:00:00+03:00" = false).
Proof. repeat split; reflexivity. Qed.

End RangePartitioner.
(** * SettlementCalculator: an hour without a price *)

Section SettlementInvariants.
Import Calendar EpiasClient StreamlitApp Examples.

(** An hour without a day-ahead price (the left join found no PTF row) has
    no revenue figures: GOP_Geliri, Net_Gelir and Dengesizlik_Maliyeti are
    unknown.  Its two imbalance prices are still computed, from the system
    marginal price alone, because the row-wise minimum and maximum skip the
    missing value.  Birim_DM is unknown when the hour produced, and 0 when
    URETIM is 0 or unknown. *)
Theorem unknown_price_propagates :
  forall j : JoinedRow,
    j_PTF j = None ->
    GOP_Geliri (derive j) = None
    /\ Net_Gelir (derive j) = None
    /\ Dengesizlik_Maliyeti (derive j) = None
    /\ Poz_DF (derive j) = Num.mul (j_SMF j) (Some (Q2Qc 0.97))
    /\ Neg_DF (derive j) = Num.mul (j_SMF j) (Some (Q2Qc 1.03))
    /\ (forall u, j_URETIM j = Some u -> u <> 0%Qc -> Birim_DM (derive j) = None)
    /\ (j_URETIM j = None \/ j_URETIM j = Some 0%Qc -> Birim_DM (derive j) = Some 0%Qc).
Proof.
  intros [dt tarih saat k u p s] Hp. cbn [j_PTF] in Hp. subst p.
  unfold derive, Num.to_numeric.
  cbn [j_KGUP j_URETIM j_PTF j_SMF j_datetime j_Tarih j_Saat GOP_Geliri Net_Gelir
       Dengesizlik_Maliyeti Poz_DF Neg_DF Birim_DM].
  assert (Hgop : Num.mul k None = None) by (now destruct k).
  assert (Hup : Num.mul u None = None) by (now destruct u).
  rewrite Hgop, Hup. cbn [Num.add Num.sub Num.lift2 Num.clip_lower].
  repeat split.
  - now destruct s.
  - now destruct s.
  - intros u0 -> Hne. cbn [_unit_cost].
    destruct (Qceqb_spec u0 0) as [->|_]; [now contradiction Hne|reflexivity].
  - intros [-> | ->]; reflexivity.
Qed.

Lemma unknown_price_propagates_witness :
  Net_Gelir (derive (mk_joined None (Some "2024-03-05") "14:00" (Some (Q2Qc 100))
                       (Some (Q2Qc 120)) None (Some (Q2Qc 520)))) = None.
Proof.
  apply (unknown_price_propagates
           (mk_joined None (Some "2024-03-05") "14:00" (Some (Q2Qc 100))
              (Some (Q2Qc 120)) None (Some (Q2Qc 520))) eq_refl).
Defined.

End SettlementInvariants.
(** * The joins of [build_plant_dataframe]: timestamps that occur once *)

Section JoinsUnique.
Import Calendar EpiasClient Examples Lookup.

Lemma dt_eqb_eq (a b : datetime) : dt_eqb a b = true <-> a = b.
Proof.
  split.
  - unfold dt_eqb, dt_compare, date_compare, lex. destruct a, b. cbn [year month day hour minute second].
    repeat match goal with
           | |- context [(?x ?= ?y)] =>
               let E := fresh "E" in
               destruct (x ?= y) eqn:E; try discriminate; apply Z.compare_eq in E; subst
           end.
    reflexivity.
  - intros ->. unfold dt_eqb, dt_compare, date_compare, lex. now rewrite !Z.compare_refl.
Qed.

Lemma key_eqb_eq (a b : option datetime) : key_eqb a b = true <-> a = b.
Proof.
  destruct a as [x|], b as [y|]; cbn [key_eqb]; try (split; [discriminate|congruence]).
  - rewrite dt_eqb_eq. split; congruence.
  - split; reflexivity.
Qed.

(** Among rows with distinct keys at most one matches a given key. *)
Lemma filter_unique_key (k : option datetime) (right : list TimedRow) :
  List.NoDup (map t_datetime right) ->
  List.filter (fun p => key_eqb k (t_datetime p)) right
  = match find (fun p => key_eqb k (t_datetime p)) right with
    | Some p => [p]
    | None => []
    end.
Proof.
  induction right as [|p right IH]; [reflexivity|].
  cbn [map]. intros Hnd. apply List.NoDup_cons_iff in Hnd as [Hnotin Hnd].
  cbn [List.filter find]. destruct (key_eqb k (t_datetime p)) eqn:E.
  - f_equal. apply key_eqb_eq in E. subst k.
    destruct (List.filter _ right) as [|q qs] eqn:F; [reflexivity|].
    assert (Hq : In q (List.filter (fun p0 => key_eqb (t_datetime p) (t_datetime p0)) right))
      by (rewrite F; now left).
    apply filter_In in Hq as [Hq Hkey]. apply key_eqb_eq in Hkey.
    contradiction Hnotin. rewrite Hkey. now apply in_map.
  - now apply IH.
Qed.

(** The value a left join attaches to a key: that of the first matching
    row, NaN without one. *)
Lemma find_key_some (k : option datetime) (right : list TimedRow) (p : TimedRow) :
  find (fun p => key_eqb k (t_datetime p)) right = Some p ->
  In p right /\ t_datetime p = k.
Proof.
  intros H. apply find_some in H as [Hin Hkey]. apply key_eqb_eq in Hkey. now split.
Qed.

Lemma merge_left_cons set (r : JoinedRow) df (right : list TimedRow) :
  merge_left set (r :: df) right
  = match List.filter (fun p => key_eqb (j_datetime r) (t_datetime p)) right with
    | [] => [set r Num.nan]
    | ms => map (fun p => set r (t_value p)) ms
    end ++ merge_left set df right.
Proof. reflexivity. Qed.

Lemma left_join_is_lookup_aux set (df : list JoinedRow) (right : list TimedRow) :
  List.NoDup (map t_datetime right) ->
  merge_left set df right = map (fun r => set r (value_at right (j_datetime r))) df
  /\ length (merge_left set df right) = length df.
Proof.
  intros Hnd.
  assert (Heq : merge_left set df right
                = map (fun r => set r (value_at right (j_datetime r))) df).
  { induction df as [|r df IH]; [reflexivity|].
    rewrite merge_left_cons, IH, (filter_unique_key _ _ Hnd). cbn [map]. unfold value_at.
    destruct (find _ right); reflexivity. }
  split; [exact Heq|]. rewrite Heq. apply length_map.
Qed.

(** When no timestamp occurs twice in the right frame, a left join is a
    lookup: the result has the rows of the left frame, each once and in
    order, each with the value stored under its timestamp, or NaN when the
    right frame has no such timestamp. *)
Theorem left_join_is_lookup :
  forall (set : JoinedRow -> Num.num -> JoinedRow) (df : list JoinedRow)
         (right : list TimedRow),
    List.NoDup (map t_datetime right) ->
    merge_left set df right = map (fun r => set r (value_at right (j_datetime r))) df
    /\ length (merge_left set df right) = length df.
Proof.
  intros set df right Hnd. now apply left_join_is_lookup_aux.
Qed.

Lemma left_join_is_lookup_witness :
  merge_left set_PTF (merge_inner [example_hour] [example_hour]) [example_hour]
  = map (fun r => set_PTF r (value_at [example_hour] (j_datetime r)))
        (merge_inner [example_hour] [example_hour])
  /\ length (merge_left set_PTF (merge_inner [example_hour] [example_hour]) [example_hour])
     = length (merge_inner [example_hour] [example_hour]).
Proof.
  apply (left_join_is_lookup set_PTF (merge_inner [example_hour] [example_hour]) [example_hour]).
  repeat constructor. cbn [In]. tauto.
Defined.

(** The inner join against a frame without repeated timestamps keeps a
    left row at most once. *)
Lemma merge_inner_unique (kgup_df uretim_df : list TimedRow) :
  List.NoDup (map t_datetime uretim_df) ->
  merge_inner kgup_df uretim_df
  = flat_map (fun k =>
      match find (fun u => key_eqb (t_datetime k) (t_datetime u)) uretim_df with
      | Some u => [mk_joined (t_datetime k) (t_Tarih k) (t_Saat k)
                             (t_value k) (t_value u) Num.nan Num.nan]
      | None => []
      end) kgup_df.
Proof.
  intros Hnd. unfold merge_inner. apply flat_map_ext. intros k.
  rewrite (filter_unique_key _ _ Hnd). now destruct (find _ uretim_df).
Qed.

Lemma merge_inner_keys (kgup_df uretim_df : list TimedRow) :
  List.NoDup (map t_datetime uretim_df) ->
  map j_datetime (merge_inner kgup_df uretim_df)
  = List.filter (fun k => existsb (fun u => key_eqb k (t_datetime u)) uretim_df)
                (map t_datetime kgup_df).
Proof.
  intros Hnd. rewrite (merge_inner_unique _ _ Hnd).
  induction kgup_df as [|k kgup_df IH]; [reflexivity|].
  cbn [flat_map map List.filter]. rewrite map_app, IH.
  destruct (find _ uretim_df) as [u|] eqn:F.
  - apply find_some in F as [Hin Hkey].
    assert (E : existsb (fun u => key_eqb (t_datetime k) (t_datetime u)) uretim_df = true)
      by (apply existsb_exists; now exists u).
    now rewrite E.
  - assert (E : existsb (fun u => key_eqb (t_datetime k) (t_datetime u)) uretim_df = false).
    { destruct (existsb _ uretim_df) eqn:E; [|reflexivity].
      apply existsb_exists in E as (u & Hin & Hkey).
      now rewrite (find_none _ _ F u Hin) in Hkey. }
    now rewrite E.
Qed.

Lemma NoDup_filter_list {A} (f : A -> bool) (l : list A) :
  List.NoDup l -> List.NoDup (List.filter f l).
Proof.
  induction 1 as [|x l Hx _ IH]; [constructor|].
  cbn [List.filter]. destruct (f x); [|exact IH].
  constructor; [|exact IH]. intros Hin. apply filter_In in Hin as [Hin _]. contradiction.
Qed.

Lemma filter_length_le {A} (f : A -> bool) (l : list A) :
  (length (List.filter f l) <= length l)%nat.
Proof.
  induction l as [|x l IH]; [reflexivity|]. cbn [List.filter]. destruct (f x); simpl; lia.
Qed.

(** When no timestamp occurs twice within any of the four streams, the
    hourly table has at most one row per timestamp: its rows are the
    derivation of joined rows with pairwise distinct timestamps, no more
    than either the plan or the realized stream has, and each carries the
    plan row's day, hour and KGUP, the realized row's URETIM, and the two
    prices stored under its timestamp. *)
Theorem hourly_table_one_row_per_timestamp :
  forall (kgup_df uretim_df ptf_df smf_df : list TimedRow) (out : list HourlyRow),
    List.NoDup (map t_datetime kgup_df) -> List.NoDup (map t_datetime uretim_df) ->
    List.NoDup (map t_datetime ptf_df) -> List.NoDup (map t_datetime smf_df) ->
    build_plant_dataframe kgup_df uretim_df ptf_df smf_df = inr out ->
    exists priced : list JoinedRow,
      out = map derive priced
      /\ List.NoDup (map j_datetime priced)
      /\ (length out <= length kgup_df)%nat
      /\ (length out <= length uretim_df)%nat
      /\ (forall j, In j priced ->
            exists k u, In k kgup_df /\ In u uretim_df
              /\ t_datetime k = j_datetime j /\ t_datetime u = j_datetime j
              /\ j_Tarih j = t_Tarih k /\ j_Saat j = t_Saat k
              /\ j_KGUP j = t_value k /\ j_URETIM j = t_value u
              /\ j_PTF j = value_at ptf_df (j_datetime j)
              /\ j_SMF j = value_at smf_df (j_datetime j)).
Proof.
  intros kgup_df uretim_df ptf_df smf_df out Hk Hu Hp Hs Hout.
  destruct kgup_df as [|k0 kgup_df].
  { injection Hout as <-. exists [].
    split; [reflexivity|]. split; [constructor|]. split; [simpl; lia|].
    split; [simpl; lia|]. intros j []. }
  destruct uretim_df as [|u0 uretim_df].
  { injection Hout as <-. exists [].
    split; [reflexivity|]. split; [constructor|]. split; [simpl; lia|].
    split; [simpl; lia|]. intros j []. }
  destruct ptf_df as [|p0 ptf_df]; [destruct smf_df; discriminate Hout|].
  destruct smf_df as [|s0 smf_df]; [discriminate Hout|].
  set (K := k0 :: kgup_df) in *. set (U := u0 :: uretim_df) in *.
  set (P := p0 :: ptf_df) in *. set (S := s0 :: smf_df) in *.
  assert (Hout' : out = map derive (merge_left set_SMF (merge_left set_PTF (merge_inner K U) P) S))
    by (injection Hout as <-; reflexivity).
  clear Hout.
  destruct (left_join_is_lookup_aux set_PTF (merge_inner K U) P Hp) as [HP _].
  destruct (left_join_is_lookup_aux set_SMF (merge_left set_PTF (merge_inner K U) P) S Hs)
    as [HS _].
  set (priced := merge_left set_SMF (merge_left set_PTF (merge_inner K U) P) S) in *.
  assert (Hkeys : map j_datetime priced = map j_datetime (merge_inner K U)).
  { rewrite HS, HP, !map_map. apply map_ext. intros r. reflexivity. }
  assert (Hlen : length out = length (map j_datetime (merge_inner K U)))
    by (rewrite Hout', length_map, <- Hkeys, length_map; reflexivity).
  pose proof (merge_inner_keys K U Hu) as Hmk.
  exists priced. split; [exact Hout'|].
  split; [rewrite Hkeys, Hmk; now apply NoDup_filter_list|].
  split; [rewrite Hlen, Hmk; etransitivity; [apply filter_length_le | now rewrite length_map]|].
  split.
  { rewrite Hlen, <- (length_map t_datetime U).
    apply List.NoDup_incl_length; [rewrite Hmk; now apply NoDup_filter_list|].
    intros key Hin. rewrite Hmk in Hin. apply filter_In in Hin as [_ Hex].
    apply existsb_exists in Hex as (u & Hin & Hkey). apply key_eqb_eq in Hkey. subst key.
    now apply in_map. }
  intros j Hj. rewrite HS, HP, map_map in Hj.
  apply in_map_iff in Hj as (j0 & <- & Hj0).
  apply merge_inner_spec in Hj0 as (k & u & Hink & Hinu & Hkey & ->).
  apply key_eqb_eq in Hkey.
  exists k, u. cbn [set_SMF set_PTF j_datetime j_Tarih j_Saat j_KGUP j_URETIM j_PTF j_SMF].
  repeat split; try assumption; try reflexivity. now symmetry.
Qed.

Lemma hourly_table_one_row_per_timestamp_witness :
  exists priced : list JoinedRow,
    map derive (merge_left set_SMF
                  (merge_left set_PTF (merge_inner [example_hour] [example_hour]) [example_hour])
                  [example_hour])
    = map derive priced
    /\ List.NoDup (map j_datetime priced)
    /\ (length (map derive (merge_left set_SMF
                  (merge_left set_PTF (merge_inner [example_hour] [example_hour]) [example_hour])
                  [example_hour])) <= length [example_hour])%nat
    /\ (length (map derive (merge_left set_SMF
                  (merge_left set_PTF (merge_inner [example_hour] [example_hour]) [example_hour])
                  [example_hour])) <= length [example_hour])%nat
    /\ (forall j, In j priced ->
          exists k u, In k [example_hour] /\ In u [example_hour]
            /\ t_datetime k = j_datetime j /\ t_datetime u = j_datetime j
            /\ j_Tarih j = t_Tarih k /\ j_Saat j = t_Saat k
            /\ j_KGUP j = t_value k /\ j_URETIM j = t_value u
            /\ j_PTF j = value_at [example_hour] (j_datetime j)
            /\ j_SMF j = value_at [example_hour] (j_datetime j)).
Proof.
  apply (hourly_table_one_row_per_timestamp [example_hour] [example_hour] [example_hour]
           [example_hour]);
    [repeat constructor; cbn [In]; tauto .. | reflexivity].
Defined.

End JoinsUnique.
(** * ReportBuilder: the KPI columns of the comparison sheet *)

Section ReportKpi.
Import Calendar EpiasClient StreamlitApp Examples Totals Kpi.

(** The sum of integer cells, as rationals. *)
Lemma Qc_of_Z_plus (a b : Z) : Qc_of_Z (a + b) = (Qc_of_Z a + Qc_of_Z b)%Qc.
Proof.
  unfold Qc_of_Z. apply Qc_is_canon. unfold Qcplus, Q2Qc. cbn [this].
  rewrite !Qred_correct, inject_Z_plus. reflexivity.
Qed.

Lemma Qc_of_Z_sum (f : Z -> Z) (l : list Z) :
  Qc_sum (map (fun m => Qc_of_Z (f m)) l) = Qc_of_Z (Z_sum (map f l)).
Proof.
  induction l as [|m l IH]; [reflexivity|].
  cbn [map Qc_sum Z_sum fold_right]. fold (Qc_sum (map (fun m => Qc_of_Z (f m)) l)).
  fold (Z_sum (map f l)). now rewrite IH, Qc_of_Z_plus.
Qed.

(** The KPI cells of the month rows of both blocks hold the entries of the
    vectors handed in. *)
Lemma kpi_layout n1 n2 ex1 ex2 ws (i j : nat) :
  comparison_sheet n1 n2 ex1 ex2 = Some ws ->
  (i < 12)%nat -> (j < 11)%nat ->
  comp_cell ws (3 + i) (9 + j) = extra_cell ex1 (nth j extra_keys "") i
  /\ comp_cell ws (21 + i) (9 + j) = extra_cell ex2 (nth j extra_keys "") i.
Proof.
  intros Hws Hi Hj.
  do 12 (destruct i as [|i];
         [do 11 (destruct j as [|j];
                 [split; [apply (comp_cell_of _ _ _ _ ws (_, _) _ Hws); reflexivity
                         |apply (comp_cell_of _ _ _ _ ws (_, _) _ Hws); reflexivity]|]); lia|]).
  lia.
Qed.

Lemma comp_cell_unwritten n1 n2 ex1 ex2 ws key :
  comparison_sheet n1 n2 ex1 ex2 = Some ws ->
  comparison_cell n1 n2 ex1 ex2 key = Some None ->
  comp_cell ws (fst key) (snd key) = Blank.
Proof.
  intros Hws Hc. rewrite (comparison_sheet_cell _ _ _ _ _ key Hws) in Hc.
  injection Hc as Hc. unfold comp_cell. destruct key. cbn [fst snd]. now rewrite Hc.
Qed.

(** The KPI part of the two totals rows: sums under the top-5 and the
    production-hours columns, nothing under the others. *)
Lemma kpi_totals_layout n1 n2 ex1 ex2 ws :
  comparison_sheet n1 n2 ex1 ex2 = Some ws ->
  (comp_cell ws 15 12 = Formula (FSum "M" 4 15)
   /\ comp_cell ws 15 17 = Formula (FSum "R" 4 15)
   /\ comp_cell ws 33 12 = Formula (FSum "M" 22 33)
   /\ comp_cell ws 33 17 = Formula (FSum "R" 22 33))
  /\ (forall j, (9 <= j < 20)%nat -> j <> 12%nat -> j <> 17%nat ->
        comp_cell ws 15 j = Blank /\ comp_cell ws 33 j = Blank).
Proof.
  intros Hws. split.
  - repeat split; apply (comp_cell_of _ _ _ _ ws (_, _) _ Hws); reflexivity.
  - intros j Hj H12 H17.
    assert (Hcases : (j = 9 \/ j = 10 \/ j = 11 \/ j = 13 \/ j = 14 \/ j = 15 \/ j = 16
                      \/ j = 18 \/ j = 19)%nat) by lia.
    repeat destruct Hcases as [-> | Hcases]; try subst j;
      (split; apply (comp_cell_unwritten _ _ _ _ ws (_, _) Hws); reflexivity).
Qed.

(** An entry of the vectors of [compute_monthly_extras], as written. *)
Lemma extra_cell_value df (i j : nat) :
  (i < 12)%nat -> (j < 11)%nat ->
  extra_cell (compute_monthly_extras df) (nth j extra_keys "") i
  = nth j (kpi_cells df (Z.of_nat (S i))) Blank.
Proof.
  intros Hi Hj. unfold extra_cell.
  destruct (extras_lookup df) as (E0 & E1 & E2 & E3 & E4 & E5 & E6 & E7 & E8 & E9 & E10).
  cbv zeta in *.
  do 11 (destruct j as [|j];
         [cbn [nth extra_keys kpi_cells];
          first [rewrite E0 | rewrite E1 | rewrite E2 | rewrite E3 | rewrite E4 | rewrite E5
                | rewrite E6 | rewrite E7 | rewrite E8 | rewrite E9 | rewrite E10];
          rewrite nth_error_map, (months_nth i Hi); cbn [option_map kpi_cell opt_kpi];
          try reflexivity; now destruct (asym df _)|]).
  lia.
Qed.

Lemma eval_number k wb q : eval_cell k wb (Number q) = VNum q.
Proof. now destruct k. Qed.

Lemma sum_values_numbers (f : nat -> Qc) (l : list nat) :
  sum_values (map (fun r => VNum (f r)) l) = VNum (Qc_sum (map f l)).
Proof.
  unfold sum_values.
  assert (He : existsb is_error (map (fun r => VNum (f r)) l) = false)
    by (induction l; [reflexivity | exact IHl]).
  rewrite He, map_map. reflexivity.
Qed.

(** A SUM over the twelve month cells of a KPI column whose cells are
    numbers. *)
Lemma eval_kpi_total wb (col : string) (start : nat) (x : Z -> Qc) fuel :
  (forall i, (i < 12)%nat ->
     comp_cell (wsC wb) (start + 3 + i) (col_number col) = Number (x (Z.of_nat (S i)))) ->
  eval_cell (S fuel) wb (Formula (FSum col (start + 4) (start + 15)))
  = VNum (Qc_sum (map x months)).
Proof.
  intros Hcells. rewrite eval_sum.
  replace (S (start + 15) - (start + 4))%nat with 12%nat by lia.
  rewrite (seq_from (start + 4) 12), map_map.
  rewrite (map_ext_in _ (fun i => VNum (x (Z.of_nat (S i))))).
  - rewrite sum_values_numbers. reflexivity.
  - intros i Hi. apply in_seq in Hi.
    replace (start + 4 + i - 1)%nat with (start + 3 + i)%nat by lia.
    rewrite Hcells by lia. apply eval_number.
Qed.

(** The eleven KPI columns of the comparison sheet.  In the twelve month
    rows of each block they hold the values of [compute_monthly_extras] for
    that plant as plain numbers, the cost asymmetry of a month without a
    ratio as an empty cell.  In the totals rows only the top-5 cost column
    and the production-hours column carry a formula, a SUM over the twelve
    cells above, which recalculates to the sum of the twelve monthly
    values; the other nine KPI columns have no total. *)
Theorem kpi_columns_of_the_report :
  forall df1 df2 : list HourlyRow,
    exists wb,
      build_report df1 df2 = Some wb
      /\ (forall i j, (i < 12)%nat -> (j < 11)%nat ->
            comp_cell (wsC wb) (3 + i) (9 + j) = nth j (kpi_cells df1 (Z.of_nat (S i))) Blank
            /\ comp_cell (wsC wb) (21 + i) (9 + j)
               = nth j (kpi_cells df2 (Z.of_nat (S i))) Blank)
      /\ (comp_cell (wsC wb) 15 12 = Formula (FSum "M" 4 15)
          /\ comp_cell (wsC wb) 15 17 = Formula (FSum "R" 4 15)
          /\ comp_cell (wsC wb) 33 12 = Formula (FSum "M" 22 33)
          /\ comp_cell (wsC wb) 33 17 = Formula (FSum "R" 22 33))
      /\ (forall j, (9 <= j < 20)%nat -> j <> 12%nat -> j <> 17%nat ->
            comp_cell (wsC wb) 15 j = Blank /\ comp_cell (wsC wb) 33 j = Blank)
      /\ (forall fuel,
            eval_cell (S fuel) wb (comp_cell (wsC wb) 15 12)
            = VNum (Qc_sum (map (top5 df1) months))
            /\ eval_cell (S fuel) wb (comp_cell (wsC wb) 33 12)
               = VNum (Qc_sum (map (top5 df2) months))
            /\ eval_cell (S fuel) wb (comp_cell (wsC wb) 15 17)
               = VNum (Qc_of_Z (Z_sum (map (prod_h df1) months)))
            /\ eval_cell (S fuel) wb (comp_cell (wsC wb) 33 17)
               = VNum (Qc_of_Z (Z_sum (map (prod_h df2) months)))).
Proof.
  intros df1 df2. destruct (build_report_defined df1 df2) as [wb Hwb].
  exists wb. split; [exact Hwb|].
  destruct (build_report_inv _ _ _ Hwb) as (_ & _ & Hws).
  assert (Hcells : forall i j, (i < 12)%nat -> (j < 11)%nat ->
            comp_cell (wsC wb) (3 + i) (9 + j) = nth j (kpi_cells df1 (Z.of_nat (S i))) Blank
            /\ comp_cell (wsC wb) (21 + i) (9 + j)
               = nth j (kpi_cells df2 (Z.of_nat (S i))) Blank).
  { intros i j Hi Hj. destruct (kpi_layout _ _ _ _ _ i j Hws Hi Hj) as [H1 H2].
    rewrite H1, H2, !extra_cell_value by assumption. now split. }
  destruct (kpi_totals_layout _ _ _ _ _ Hws) as [(T1 & T2 & T3 & T4) Hblank].
  split; [exact Hcells|]. split; [now repeat split|]. split; [exact Hblank|].
  intros fuel. rewrite T1, T2, T3, T4.
  split; [|split; [|split]].
  - apply (eval_kpi_total wb "M" 0). intros i Hi.
    exact (proj1 (Hcells i 3%nat Hi ltac:(lia))).
  - apply (eval_kpi_total wb "M" 18). intros i Hi.
    exact (proj2 (Hcells i 3%nat Hi ltac:(lia))).
  - rewrite <- Qc_of_Z_sum.
    apply (eval_kpi_total wb "R" 0 (fun m => Qc_of_Z (prod_h df1 m))). intros i Hi.
    exact (proj1 (Hcells i 8%nat Hi ltac:(lia))).
  - rewrite <- Qc_of_Z_sum.
    apply (eval_kpi_total wb "R" 18 (fun m => Qc_of_Z (prod_h df2 m))). intros i Hi.
    exact (proj2 (Hcells i 8%nat Hi ltac:(lia))).
Qed.

Lemma kpi_columns_of_the_report_witness :
  exists wb,
    build_report two_month_table asymmetry_table = Some wb
    /\ comp_cell (wsC wb) 4 17 = Number (Qc_of_Z (prod_h two_month_table 2))
    /\ comp_cell (wsC wb) 22 10 = Number (Q2Qc 2).
Proof.
  destruct (kpi_columns_of_the_report two_month_table asymmetry_table)
    as (wb & Hwb & Hcells & _).
  exists wb. split; [exact Hwb|]. split.
  - exact (proj1 (Hcells 1%nat 8%nat ltac:(lia) ltac:(lia))).
  - pose proof (proj2 (Hcells 1%nat 1%nat ltac:(lia) ltac:(lia))) as H.
    cbn [Nat.add] in H. rewrite H. vm_compute. f_equal. now apply Qc_is_canon.
Defined.

End ReportKpi.
(** * RangePartitioner on calendar days *)

Section MidnightRanges.
Import Calendar EpiasClient Partition Examples Days.

Lemma midnight_ord dt : is_midnight dt = true -> ord dt = date_key dt * 86400.
Proof.
  unfold is_midnight, ord. intros H.
  apply andb_prop in H as [H Hs]. apply andb_prop in H as [Hh Hm].
  apply Z.eqb_eq in Hh, Hm, Hs. lia.
Qed.

Lemma period_midnight start_dt end_dt k :
  is_midnight start_dt = true -> is_midnight end_dt = true ->
  is_midnight (fst (period start_dt end_dt k)) = true
  /\ is_midnight (snd (period start_dt end_dt k)) = true.
Proof.
  intros Hs He. unfold period, dt_max, dt_min. cbn [fst snd].
  destruct (dt_ltb start_dt _), (dt_ltb _ end_dt); split; try assumption; reflexivity.
Qed.

(** For two calendar days [a <= b], [b] before December 9999, the ranges
    between the midnights [start_of_day a] and [end_of_day b] tile the days
    exactly: the first
    period starts at the first midnight, the last ends at the last, every
    period runs from a midnight to a midnight not before it, and each
    period starts on the day after the one the period before it ends on. *)
Theorem midnight_ranges_tile_the_days :
  forall a b : datetime,
    valid a = true -> valid b = true -> date_leb a b = true ->
    month_index b <= last_steppable_month ->
    exists s e periods,
      start_of_day a = Some s /\ end_of_day b = Some e
      /\ month_start_end_strings s e = Some (inr (map format_period periods))
      /\ option_map fst (hd_error periods) = Some s
      /\ option_map snd (last_error periods) = Some e
      /\ (forall p, In p periods ->
            dt_leb (fst p) (snd p) = true
            /\ is_midnight (fst p) = true /\ is_midnight (snd p) = true)
      /\ (forall i p q,
            nth_error periods i = Some p -> nth_error periods (S i) = Some q ->
            fst q = plus_one_day (snd p)).
Proof.
  intros a b Hva Hvb Hab Hlast.
  set (s := mk_datetime (year a) (month a) (day a) 0 0 0).
  set (e := mk_datetime (year b) (month b) (day b) 0 0 0).
  assert (Hda : valid_date (year a) (month a) (day a) = true)
    by (unfold valid in Hva; now apply andb_prop in Hva as [H _]).
  assert (Hdb : valid_date (year b) (month b) (day b) = true)
    by (unfold valid in Hvb; now apply andb_prop in Hvb as [H _]).
  assert (Hvs : valid s = true) by (unfold valid, s; cbn; now rewrite Hda).
  assert (Hve : valid e = true) by (unfold valid, e; cbn; now rewrite Hdb).
  assert (Hms : is_midnight s = true) by reflexivity.
  assert (Hme : is_midnight e = true) by reflexivity.
  assert (Hle : dt_leb s e = true).
  { unfold dt_leb, dt_compare. change (date_compare s e) with (date_compare a b).
    cbn [hour minute second s e lex Z.compare].
    unfold date_leb in Hab. now destruct (date_compare a b). }
  exists s, e.
  destruct (month_start_end_strings_closed s e Hvs Hve Hle Hlast) as [Hidx Hclosed].
  destruct (valid_in_range _ Hvs) as (Hrs & _ & _).
  destruct (valid_in_range _ Hve) as (Hre & _ & _).
  assert (Hord : ord s <= ord e)
    by (rewrite dt_leb_ord in Hle by assumption; now apply Z.leb_le).
  set (K0 := month_index s) in *. set (K1 := month_index e) in *.
  set (n := Z.to_nat (K1 - K0 + 1)) in *.
  exists (periods_from s e K0 n).
  split; [unfold start_of_day, make_datetime; now rewrite Hda|].
  split; [unfold end_of_day, make_datetime; now rewrite Hdb|].
  split; [exact Hclosed|].
  assert (Hp : forall k, K0 <= k <= K1 ->
               let p := period s e k in
               in_range (fst p) /\ in_range (snd p)
               /\ month_index (fst p) = k /\ month_index (snd p) = k
               /\ date_key s <= date_key (fst p)
               /\ date_key (fst p) <= date_key (snd p)
               /\ date_key (snd p) <= date_key e
               /\ date_key (fst p) = Z.max (date_key s) (k * 31)
               /\ date_key (snd p)
                  = Z.min (date_key e)
                      (k * 31 + (days_in_month (k / 12) (k mod 12 + 1) - 1)))
    by (intros k Hk; now apply period_of_range).
  split; [|split; [|split]].
  - assert (Hn : n = S (Nat.pred n)) by lia. rewrite Hn, periods_from_S.
    cbn [hd_error option_map fst period]. f_equal. unfold dt_max.
    destruct (first_of_month_facts K0) as (Hrf & _ & _ & Hof).
    rewrite dt_ltb_ord by assumption.
    pose proof (month_of_date_key _ Hrs). rewrite (midnight_ord s Hms).
    fold K0 in H. destruct (Z.ltb_spec (date_key s * 86400) (ord (first_of_month K0))); [lia|].
    reflexivity.
  - unfold last_error, periods_from. rewrite length_map, length_seq, nth_error_map, nth_error_seq.
    destruct (Nat.ltb_spec (n - 1) n) as [_|]; [|lia].
    cbn [option_map snd period]. f_equal.
    replace (K0 + Z.of_nat (0 + (n - 1))) with K1 by lia.
    unfold dt_min.
    destruct (last_of_month_facts K1) as (Hrl & _ & Hkl).
    assert (Hol : ord (last_of_month K1) = date_key (last_of_month K1) * 86400)
      by (apply midnight_ord; reflexivity).
    rewrite dt_ltb_ord by assumption. rewrite Hol, Hkl, (midnight_ord e Hme).
    pose proof (valid_day_in_month _ Hve) as Hday. cbv zeta in Hday. fold K1 in Hday.
    destruct (Z.ltb_spec ((K1 * 31 + (days_in_month (K1 / 12) (K1 mod 12 + 1) - 1)) * 86400)
                (date_key e * 86400)); [lia|reflexivity].
  - intros p Hin. apply periods_from_In in Hin as (k & Hk & ->).
    destruct (Hp k ltac:(lia)) as (Hrf & Hrl & _ & _ & _ & Hfl & _).
    destruct (period_midnight s e k Hms Hme) as [Hmf Hml].
    split; [|now split].
    rewrite dt_leb_ord by assumption. rewrite (midnight_ord _ Hmf), (midnight_ord _ Hml).
    apply Z.leb_le. lia.
  - intros i p q Hp1 Hq1.
    apply periods_from_nth in Hp1 as [Hi ->]. apply periods_from_nth in Hq1 as [Hj ->].
    destruct (consecutive_periods s e (K0 + Z.of_nat i) Hrs Hre) as [Hl Hf];
      [fold K0; lia | fold K1; lia |].
    replace (K0 + Z.of_nat (S i)) with (K0 + Z.of_nat i + 1) by lia.
    rewrite Hl, Hf. symmetry. apply plus_one_day_last.
Qed.

Lemma midnight_ranges_tile_the_days_witness :
  exists s e periods,
    start_of_day jan_15_0830 = Some s /\ end_of_day mar_10 = Some e
    /\ month_start_end_strings s e = Some (inr (map format_period periods))
    /\ option_map fst (hd_error periods) = Some s
    /\ option_map snd (last_error periods) = Some e
    /\ (forall p, In p periods ->
          dt_leb (fst p) (snd p) = true
          /\ is_midnight (fst p) = true /\ is_midnight (snd p) = true)
    /\ (forall i p q,
          nth_error periods i = Some p -> nth_error periods (S i) = Some q ->
          fst q = plus_one_day (snd p)).
Proof.
  apply (midnight_ranges_tile_the_days jan_15_0830 mar_10 eq_refl eq_refl eq_refl).
  vm_compute. discriminate.
Defined.

End MidnightRanges.
(** * MarketDataSource: the request loop *)

Section RequestLoop.
Import Calendar EpiasClient Partition Examples Py Requests.

Lemma request_loop_no_ticket c net w ranges rows sent :
  has_tgt c = false ->
  request_loop c net (w :: ranges) rows sent
  = (sent, inl (RuntimeError "TGT is not set. Please authenticate first.")).
Proof. intros H. cbn [request_loop]. unfold _post_json. now rewrite H. Qed.

Lemma request_loop_step c net w ranges rows sent items :
  has_tgt c = true -> items_of (net w) = Some items ->
  request_loop c net (w :: ranges) rows sent
  = request_loop c net ranges (rows ++ items) (sent ++ [w]).
Proof.
  intros Ht Hi. cbn [request_loop]. unfold _post_json. rewrite Ht. cbn [negb].
  destruct (net w) as [e|[[items'|]|]]; cbn [items_of] in Hi; try discriminate;
    injection Hi as <-; [reflexivity | now rewrite app_nil_r].
Qed.

Lemma request_loop_fail c net w ranges rows sent :
  has_tgt c = true -> items_of (net w) = None ->
  request_loop c net (w :: ranges) rows sent = (sent ++ [w], inl (failure_of (net w))).
Proof.
  intros Ht Hi. cbn [request_loop]. unfold _post_json. rewrite Ht. cbn [negb].
  destruct (net w) as [e|[[items'|]|]]; cbn [items_of] in Hi; try discriminate; reflexivity.
Qed.

Lemma request_loop_all c net ranges :
  has_tgt c = true ->
  forall rows sent,
    (forall w, In w ranges -> items_of (net w) <> None) ->
    request_loop c net ranges rows sent
    = (sent ++ ranges,
       inr (rows ++ flat_map (fun w => match items_of (net w) with
                                       | Some items => items
                                       | None => []
                                       end) ranges)).
Proof.
  intros Ht. induction ranges as [|w ranges IH]; intros rows sent Hall.
  - cbn [request_loop flat_map]. now rewrite !app_nil_r.
  - destruct (items_of (net w)) as [items|] eqn:Hi; [|now contradiction (Hall w (or_introl eq_refl))].
    rewrite (request_loop_step _ _ _ _ _ _ items Ht Hi), IH by (intros w' Hw'; apply Hall; now right).
    cbn [flat_map]. rewrite Hi, <- !app_assoc. reflexivity.
Qed.

Lemma request_loop_until c net pre w post :
  has_tgt c = true ->
  forall rows sent,
    (forall w', In w' pre -> items_of (net w') <> None) ->
    items_of (net w) = None ->
    request_loop c net (pre ++ w :: post) rows sent
    = (sent ++ pre ++ [w], inl (failure_of (net w))).
Proof.
  intros Ht. induction pre as [|p pre IH]; intros rows sent Hpre Hw.
  - now apply request_loop_fail.
  - destruct (items_of (net p)) as [items|] eqn:Hi; [|now contradiction (Hpre p (or_introl eq_refl))].
    cbn [app]. rewrite (request_loop_step _ _ _ _ _ _ items Ht Hi).
    rewrite IH by (try (intros w' Hw'; apply Hpre; now right); assumption).
    now rewrite <- !app_assoc.
Qed.

(** Without a ticket a fetcher raises [RuntimeError] on its first window
    and sends no request, for every range of valid timestamps with
    start <= end that ends before December 9999; for an inverted range the
    [ValueError] of the partitioner comes first, with or without a ticket, and again nothing is sent. *)
Theorem fetch_needs_a_ticket :
  (forall c net start_dt end_dt,
      has_tgt c = false ->
      valid start_dt = true -> valid end_dt = true -> dt_leb start_dt end_dt = true ->
      month_index end_dt <= last_steppable_month ->
      fetch c net start_dt end_dt
      = Some ([], inl (RuntimeError "TGT is not set. Please authenticate first.")))
  /\ (forall c net start_dt end_dt,
        dt_ltb end_dt start_dt = true ->
        fetch c net start_dt end_dt
        = Some ([], inl (Raised (ValueError "end_dt must be >= start_dt")))).
Proof.
  split.
  - intros c net start_dt end_dt Ht Hvs Hve Hle Hlast. unfold fetch.
    destruct (month_start_end_strings_closed _ _ Hvs Hve Hle Hlast) as [Hidx ->].
    replace (Z.to_nat (month_index end_dt - month_index start_dt + 1))
      with (S (Z.to_nat (month_index end_dt - month_index start_dt))) by lia.
    rewrite periods_from_S. cbn [map]. now rewrite request_loop_no_ticket.
  - intros c net start_dt end_dt Hlt. unfold fetch, month_start_end_strings. now rewrite Hlt.
Qed.

Lemma fetch_needs_a_ticket_witness :
  fetch (mk_client None) (fun _ => Body (Some (Some []))) jan_1 feb_29
  = Some ([], inl (RuntimeError "TGT is not set. Please authenticate first.")).
Proof.
  apply (proj1 fetch_needs_a_ticket (mk_client None) (fun _ => Body (Some (Some []))) jan_1 feb_29
           eq_refl eq_refl eq_refl eq_refl).
  vm_compute. discriminate.
Defined.

(** With a ticket a fetcher sends one request per window, in the order of
    the windows.  When every reply carries its items (or no ["items"] key),
    all windows are requested and the frame holds the items of all replies
    in that order.  Otherwise the first reply that fails, or whose items
    are [null], ends the loop: the requests sent are the windows up to that
    one, later windows are never requested, and the exception is raised
    with the rows of the earlier windows lost. *)
Theorem requests_follow_the_windows :
  forall c net start_dt end_dt ranges,
    has_tgt c = true ->
    month_start_end_strings start_dt end_dt = Some (inr ranges) ->
    ((forall w, In w ranges -> items_of (net w) <> None) ->
     fetch c net start_dt end_dt
     = Some (ranges,
             inr (frame_of_items
                    (flat_map (fun w => match items_of (net w) with
                                        | Some items => items
                                        | None => []
                                        end) ranges))))
    /\ (forall pre w post,
          ranges = pre ++ w :: post ->
          (forall w', In w' pre -> items_of (net w') <> None) ->
          items_of (net w) = None ->
          fetch c net start_dt end_dt = Some (pre ++ [w], inl (failure_of (net w)))).
Proof.
  intros c net start_dt end_dt ranges Ht Hranges. unfold fetch. rewrite Hranges. split.
  - intros Hall. now rewrite (request_loop_all c net ranges Ht [] [] Hall).
  - intros pre w post -> Hpre Hw.
    now rewrite (request_loop_until c net pre w post Ht [] [] Hpre Hw).
Qed.

Lemma requests_follow_the_windows_witness :
  fetch (mk_client (Some "TGT-1")) (fun _ => Body (Some (Some price_items))) jan_1 feb_29
  = Some (map format_period [(jan_1, jan_31); (feb_1, feb_29)],
          inr (frame_of_items
                 (flat_map (fun w => match items_of (Body (Some (Some price_items))) with
                                     | Some items => items
                                     | None => []
                                     end)
                           (map format_period [(jan_1, jan_31); (feb_1, feb_29)])))).
Proof.
  apply (proj1 (requests_follow_the_windows (mk_client (Some "TGT-1"))
                  (fun _ => Body (Some (Some price_items))) jan_1 feb_29
                  (map format_period [(jan_1, jan_31); (feb_1, feb_29)]) eq_refl eq_refl)).
  intros w _. discriminate.
Defined.

End RequestLoop.
(** * File names: [slugify] *)

Section SlugFacts.
Import Slug.

Variable isalnum isspace : N -> bool.
Hypothesis alnum_not_space : forall c, isalnum c = true -> isspace c = false.
Hypothesis blank_is_space : isspace 32%N = true.
Hypothesis underscore_not_space : isspace 95%N = false.
Hypothesis hyphen_not_space : isspace 45%N = false.

Lemma kept_not_space c : kept isalnum c = true -> isspace c = false /\ c <> 32%N.
Proof.
  unfold kept. intros H. apply orb_prop in H as [H|H]; [apply orb_prop in H as [H|H]|].
  - split; [now apply alnum_not_space|]. intros ->. apply alnum_not_space in H. congruence.
  - apply N.eqb_eq in H. subst c. split; [exact underscore_not_space | discriminate].
  - apply N.eqb_eq in H. subst c. split; [exact hyphen_not_space | discriminate].
Qed.

Lemma lstrip_id (s : text) : Forall (fun c => isspace c = false) s -> lstrip isspace s = s.
Proof. intros [|c s' Hc _]; [reflexivity|]. cbn [lstrip]. now rewrite Hc. Qed.

Lemma strip_id (s : text) : Forall (fun c => isspace c = false) s -> strip isspace s = s.
Proof.
  intros H. unfold strip. rewrite (lstrip_id s H), lstrip_id, rev_involutive; [reflexivity|].
  apply List.Forall_forall. intros c Hc. apply in_rev in Hc.
  exact (proj1 (List.Forall_forall _ _) H c Hc).
Qed.

Lemma replace_space_id (s : text) : Forall (fun c => c <> 32%N) s -> replace_space s = s.
Proof.
  induction 1 as [|c s Hc _ IH]; [reflexivity|].
  cbn [replace_space map]. fold (replace_space s). rewrite IH.
  destruct (N.eqb_spec c 32); [contradiction|reflexivity].
Qed.

Lemma filter_id {A} (f : A -> bool) (l : list A) :
  Forall (fun x => f x = true) l -> List.filter f l = l.
Proof.
  induction 1 as [|x l Hx _ IH]; [reflexivity|]. cbn [List.filter]. now rewrite Hx, IH.
Qed.

Lemma slugify_kept (value : text) :
  Forall (fun c => kept isalnum c = true) (slugify isalnum isspace value).
Proof.
  apply List.Forall_forall. intros c Hc. unfold slugify in Hc.
  now apply filter_In in Hc as [_ Hc].
Qed.

Lemma slugify_fixed (s : text) :
  Forall (fun c => kept isalnum c = true) s -> slugify isalnum isspace s = s.
Proof.
  intros H. unfold slugify.
  rewrite strip_id, replace_space_id, filter_id; try assumption; try reflexivity.
  - eapply List.Forall_impl; [|exact H]. intros c Hc. now apply kept_not_space.
  - eapply List.Forall_impl; [|exact H]. intros c Hc. now apply kept_not_space.
Qed.

End SlugFacts.

Section SlugTheorem.
Import Slug.

(** For every classification of code points in which an alphanumeric
    character is never whitespace, the blank is whitespace and the
    underscore and the hyphen are not (as in Unicode), [slugify] returns a
    text made only of alphanumeric characters, underscores and hyphens, free
    of whitespace, and leaves such a text as it is: slugifying twice is
    slugifying once. *)
Theorem slugify_is_idempotent :
  forall (isalnum isspace : N -> bool),
    (forall c, isalnum c = true -> isspace c = false) ->
    isspace 32%N = true -> isspace 95%N = false -> isspace 45%N = false ->
    forall value : text,
      Forall (fun c => isalnum c = true \/ c = 95%N \/ c = 45%N) (slugify isalnum isspace value)
      /\ Forall (fun c => isspace c = false) (slugify isalnum isspace value)
      /\ slugify isalnum isspace (slugify isalnum isspace value)
         = slugify isalnum isspace value.
Proof.
  intros isalnum isspace H1 H2 H3 H4 value.
  pose proof (slugify_kept isalnum isspace value) as Hk.
  split; [|split].
  - eapply List.Forall_impl; [|exact Hk]. intros c Hc. unfold kept in Hc.
    apply orb_prop in Hc as [Hc|Hc]; [apply orb_prop in Hc as [Hc|Hc]|].
    + now left.
    + right. left. now apply N.eqb_eq.
    + right. right. now apply N.eqb_eq.
  - eapply List.Forall_impl; [|exact Hk]. intros c Hc.
    now apply (kept_not_space isalnum isspace H1 H2 H3 H4).
  - now apply (slugify_fixed isalnum isspace H1 H2 H3 H4).
Qed.

Lemma ascii_classes_disjoint (c : N) : ascii_isalnum c = true -> ascii_isspace c = false.
Proof.
  unfold ascii_isalnum, ascii_isspace.
  repeat match goal with
         | |- context [(?a <=? ?b)%N] => destruct (N.leb_spec a b)
         end; cbn [andb orb]; intros Hc; try reflexivity; try discriminate Hc; lia.
Qed.

Lemma slugify_is_idempotent_witness :
  slugify ascii_isalnum ascii_isspace [32; 89; 101; 110; 105; 32; 72; 69; 83; 45; 50; 33; 32]%N
  = [89; 101; 110; 105; 95; 72; 69; 83; 45; 50]%N
  /\ slugify ascii_isalnum ascii_isspace
       (slugify ascii_isalnum ascii_isspace
          [32; 89; 101; 110; 105; 32; 72; 69; 83; 45; 50; 33; 32]%N)
     = slugify ascii_isalnum ascii_isspace
         [32; 89; 101; 110; 105; 32; 72; 69; 83; 45; 50; 33; 32]%N.
Proof.
  split; [reflexivity|].
  apply (slugify_is_idempotent ascii_isalnum ascii_isspace ascii_classes_disjoint
           eq_refl eq_refl eq_refl).
Defined.

End SlugTheorem.
(** * The plant list: [load_plants] *)

Section PlantList.
Import Calendar Py Plants.

Variable exists_path : string -> bool.
Variable content : string -> error + json.
Variable int_of_str : string -> option Z.

Lemma find_skips (pre : list string) (p : string) (post : list string) :
  (forall q, In q pre -> usable exists_path q = false) ->
  usable exists_path p = true ->
  find (usable exists_path) (pre ++ p :: post) = Some p.
Proof.
  induction pre as [|q pre IH]; intros Hpre Hp; cbn [app find].
  - now rewrite Hp.
  - rewrite (Hpre q (or_introl eq_refl)). apply IH; [|exact Hp].
    intros q' Hq'. apply Hpre. now right.
Qed.

Lemma unusable (q : string) : q = "" \/ exists_path q = false -> usable exists_path q = false.
Proof. unfold usable. intros [-> | ->]; [reflexivity | apply andb_false_r]. Qed.

Lemma norm_all_spec (l : list json) :
  forall plants,
    norm_all int_of_str l = inr plants
    <-> Forall2 (fun pp p => _norm int_of_str pp = inr p) l plants.
Proof.
  induction l as [|pp l IH]; intros plants; cbn [norm_all].
  - split; [intros [= <-]; constructor | intros H; now inversion H].
  - destruct (_norm int_of_str pp) as [e|p] eqn:Hp.
    + split; [discriminate|]. intros H. inversion H; subst. congruence.
    + destruct (norm_all int_of_str l) as [e|ps] eqn:Hl.
      * split; [discriminate|]. intros H. inversion H as [|? p' ? ps' Hp' Hall]; subst.
        apply IH in Hall. discriminate.
      * split.
        -- intros [= <-]. constructor; [exact Hp | now apply IH].
        -- intros H. inversion H as [|? p' ? ps' Hp' Hall]; subst.
           apply IH in Hall. congruence.
Qed.

Lemma norm_all_first_error (pre : list json) (pp : json) (post : list json) (e : error) :
  (forall q, In q pre -> exists p, _norm int_of_str q = inr p) ->
  _norm int_of_str pp = inl e ->
  norm_all int_of_str (pre ++ pp :: post) = inl e.
Proof.
  induction pre as [|q pre IH]; intros Hpre Hpp; cbn [app norm_all].
  - now rewrite Hpp.
  - destruct (Hpre q (or_introl eq_refl)) as [p ->].
    rewrite IH; [reflexivity | | exact Hpp]. intros q' Hq'. apply Hpre. now right.
Qed.

End PlantList.

Section PlantListTheorems.
Import Calendar Py Plants.

(** [load_plants] reads the first candidate path that is non-empty and
    exists, and only that one: the candidates after it have no influence on
    the result.  When no candidate is non-empty and exists it raises
    [FileNotFoundError]. *)
Theorem load_plants_reads_the_first_existing_candidate :
  forall (exists_path : string -> bool) (content : string -> error + json)
         (int_of_str : string -> option Z),
    (forall cands,
        (forall p, In p cands -> p = "" \/ exists_path p = false) ->
        load_plants exists_path content int_of_str cands
        = inl (FileNotFoundError "pp_list.json not found in provided locations"))
    /\ (forall pre p post,
          (forall q, In q pre -> q = "" \/ exists_path q = false) ->
          p <> "" -> exists_path p = true ->
          load_plants exists_path content int_of_str (pre ++ p :: post)
          = load_plants exists_path content int_of_str [p]).
Proof.
  intros exists_path content int_of_str. split.
  - intros cands Hnone. unfold load_plants.
    destruct (find (usable exists_path) cands) as [p|] eqn:F; [|reflexivity].
    apply find_some in F as [Hin Hu].
    rewrite (unusable exists_path p (Hnone p Hin)) in Hu. discriminate.
  - intros pre p post Hpre Hne Hex.
    assert (Hu : usable exists_path p = true).
    { unfold usable. rewrite Hex. destruct (String.eqb_spec p ""); [contradiction|reflexivity]. }
    unfold load_plants. rewrite (find_skips exists_path pre p post); [|  | exact Hu].
    + cbn [find]. now rewrite Hu.
    + intros q Hq. apply unusable. now apply Hpre.
Qed.

Lemma load_plants_reads_the_first_existing_candidate_witness :
  load_plants (String.eqb "pp_list.json") (fun _ => inr (JArr [])) (fun _ => None)
    ([""; "GAIN ENERGY/pp_list.json"] ++ "pp_list.json" :: ["old/pp_list.json"])
  = load_plants (String.eqb "pp_list.json") (fun _ => inr (JArr [])) (fun _ => None)
      ["pp_list.json"].
Proof.
  apply (proj2 (load_plants_reads_the_first_existing_candidate
                  (String.eqb "pp_list.json") (fun _ => inr (JArr [])) (fun _ => None))
           [""; "GAIN ENERGY/pp_list.json"] "pp_list.json" ["old/pp_list.json"]).
  - intros q [<- | [<- | []]]; [now left | now right].
  - discriminate.
  - reflexivity.
Defined.

(** When the file read holds a JSON array, the load is all or nothing: it
    returns a list exactly when every element normalises, and then the list
    has one plant per element, in order; otherwise it raises what the first
    element that does not normalise raises, and no plant is returned. *)
Theorem load_plants_is_all_or_nothing :
  forall (exists_path : string -> bool) (content : string -> error + json)
         (int_of_str : string -> option Z) (cands : list string) (path : string)
         (l : list json),
    find (usable exists_path) cands = Some path ->
    content path = inr (JArr l) ->
    (forall plants,
        load_plants exists_path content int_of_str cands = inr plants
        <-> Forall2 (fun pp p => _norm int_of_str pp = inr p) l plants)
    /\ (forall pre pp post e,
          l = pre ++ pp :: post ->
          (forall q, In q pre -> exists p, _norm int_of_str q = inr p) ->
          _norm int_of_str pp = inl e ->
          load_plants exists_path content int_of_str cands = inl e).
Proof.
  intros exists_path content int_of_str cands path l Hfind Hcontent.
  unfold load_plants. rewrite Hfind, Hcontent. cbn [elements_of]. split.
  - intros plants. apply norm_all_spec.
  - intros pre pp post e -> Hpre Hpp. now apply norm_all_first_error.
Qed.

Lemma load_plants_is_all_or_nothing_witness :
  load_plants (String.eqb "pp_list.json")
    (fun _ => inr (JArr [JObj [("powerPlantName", JStr "A HES"); ("organizationId", JInt 1);
                               ("powerPlantId", JInt 2); ("uevcbId", JInt 3)];
                         JObj [("powerPlantName", JStr "B HES"); ("powerPlantId", JInt 5);
                               ("uevcbId", JInt 6)]]))
    (fun _ => None) ["pp_list.json"]
  = inl (TypeError "int() argument must be a string, a bytes-like object or a real number, not 'NoneType'").
Proof.
  apply (proj2 (load_plants_is_all_or_nothing (String.eqb "pp_list.json")
                  (fun _ => inr (JArr [JObj [("powerPlantName", JStr "A HES");
                                             ("organizationId", JInt 1);
                                             ("powerPlantId", JInt 2); ("uevcbId", JInt 3)];
                                       JObj [("powerPlantName", JStr "B HES");
                                             ("powerPlantId", JInt 5); ("uevcbId", JInt 6)]]))
                  (fun _ => None) ["pp_list.json"] "pp_list.json" _ eq_refl eq_refl)
           [JObj [("powerPlantName", JStr "A HES"); ("organizationId", JInt 1);
                  ("powerPlantId", JInt 2); ("uevcbId", JInt 3)]]
           (JObj [("powerPlantName", JStr "B HES"); ("powerPlantId", JInt 5);
                  ("uevcbId", JInt 6)]) [] _ eq_refl).
  - intros q [<- | []]. eexists. reflexivity.
  - reflexivity.
Defined.

(** The keys of a plant object.  The name and the plant id are read under
    the canonical key when that holds a true value and else under the
    lower-case spelling; so a plant id of 0 under [powerPlantId] is passed
    over, and without a [powerplantId] the object does not load.  An object
    without [organizationId] or without [uevcbId] does not load either, and
    neither does an element that is not an object. *)
Theorem plant_keys_fall_back :
  forall (int_of_str : string -> option Z) (m : list (string * json)),
    (forall p, _norm int_of_str (JObj m) = inr p ->
       py_int int_of_str (get "organizationId" m) = inr (organizationId p)
       /\ py_int int_of_str (get "uevcbId" m) = inr (uevcbId p)
       /\ (truthy (get "powerPlantId" m) = true ->
           py_int int_of_str (get "powerPlantId" m) = inr (powerPlantId p))
       /\ (truthy (get "powerPlantId" m) = false ->
           py_int int_of_str (get "powerplantId" m) = inr (powerPlantId p))
       /\ (truthy (get "powerPlantName" m) = true ->
           powerPlantName p = get "powerPlantName" m)
       /\ (truthy (get "powerPlantName" m) = false ->
           powerPlantName p = get "powerplantName" m))
    /\ (get "powerPlantId" m = JInt 0 -> get "powerplantId" m = JNull ->
        exists e, _norm int_of_str (JObj m) = inl e)
    /\ (get "organizationId" m = JNull -> exists e, _norm int_of_str (JObj m) = inl e)
    /\ (get "uevcbId" m = JNull -> exists e, _norm int_of_str (JObj m) = inl e)
    /\ (forall v, (forall m', v <> JObj m') -> exists e, _norm int_of_str v = inl e).
Proof.
  intros int_of_str m. split; [|split; [|split; [|split]]].
  - intros p. cbn [_norm]. unfold or_else.
    destruct (py_int int_of_str (get "organizationId" m)) as [e|org]; [discriminate|].
    destruct (truthy (get "powerPlantId" m)) eqn:Tid;
      destruct (truthy (get "powerPlantName" m)) eqn:Tname;
      match goal with
      | |- match py_int _ ?v with _ => _ end = _ -> _ =>
          destruct (py_int int_of_str v) as [e|pid] eqn:Hpid; [discriminate|]
      end;
      (destruct (py_int int_of_str (get "uevcbId" m)) as [e|uev]; [discriminate|]);
      intros [= <-]; cbn [organizationId powerPlantId uevcbId powerPlantName];
      repeat split; try assumption; try reflexivity; intros; congruence.
  - intros H0 Hnull. cbn [_norm]. unfold or_else. rewrite H0, Hnull. cbn [truthy Z.eqb negb py_int].
    destruct (py_int int_of_str (get "organizationId" m)); eexists; reflexivity.
  - intros Hnull. cbn [_norm]. rewrite Hnull. cbn [py_int]. eexists; reflexivity.
  - intros Hnull. cbn [_norm]. rewrite Hnull. cbn [py_int].
    destruct (py_int int_of_str (get "organizationId" m)); [eexists; reflexivity|].
    destruct (py_int int_of_str (or_else _ _)); eexists; reflexivity.
  - intros v Hv. destruct v; try (eexists; reflexivity). now contradiction (Hv members).
Qed.

Lemma plant_keys_fall_back_witness :
  exists e,
    _norm (fun _ => None)
      (JObj [("powerPlantName", JStr "A HES"); ("organizationId", JInt 1);
             ("powerPlantId", JInt 0); ("uevcbId", JInt 3)]) = inl e.
Proof.
  apply (proj1 (proj2 (plant_keys_fall_back (fun _ => None)
                         [("powerPlantName", JStr "A HES"); ("organizationId", JInt 1);
                          ("powerPlantId", JInt 0); ("uevcbId", JInt 3)])));
    reflexivity.
Defined.

End PlantListTheorems.
(** * The detail sheets: [style_detailed] *)

Section DetailStyle.
Import StreamlitApp Style.

Lemma month_only_is_plain (name : string) :
  is_one_of ["Ay"] name = true -> is_one_of ["Tarih"; "Ay"; "Saat"] name = true.
Proof.
  unfold is_one_of. cbn [existsb]. intros H. apply orb_prop in H as [H|H]; [|discriminate].
  rewrite H. now rewrite orb_true_r.
Qed.

Lemma nth_error_enumerate_from {A} (l : list A) :
  forall (a i : nat) (x : A),
    nth_error l i = Some x -> nth_error (combine (seq a (length l)) l) i = Some ((a + i)%nat, x).
Proof.
  induction l as [|y l IH]; intros a [|i] x H; cbn [nth_error] in H; try discriminate.
  - injection H as <-. cbn. now rewrite Nat.add_0_r.
  - cbn [length seq combine nth_error]. rewrite (IH (S a) i x H). f_equal. f_equal. lia.
Qed.

(** [style_detailed] formats one column per call, in order, with the width
    of that column's name.  The columns Tarih, Ay and Saat get no number
    format and every other column gets the two-decimals format; the integer
    format is never applied, whatever the columns are, because the branch
    that would give it to Ay comes after the branch that already took Ay. *)
Theorem detail_sheets_never_use_the_integer_format :
  forall cols : list string,
    length (style_columns cols) = length cols
    /\ Forall (fun call => cell_format call <> Some int_fmt) (style_columns cols)
    /\ (forall i name,
          nth_error cols i = Some name ->
          nth_error (style_columns cols) i
          = Some (mk_set_column i i (width_of name)
                    (if is_one_of ["Tarih"; "Ay"; "Saat"] name then None else Some num_fmt))).
Proof.
  intros cols. unfold style_columns, enumerate. split; [|split].
  - now rewrite length_map, length_combine, length_seq, Nat.min_id.
  - apply List.Forall_forall. intros call Hin. apply in_map_iff in Hin as ([idx name] & <- & _).
    cbn [fst snd]. destruct (is_one_of ["Tarih"; "Ay"; "Saat"] name) eqn:E1; [discriminate|].
    destruct (is_one_of ["Ay"] name) eqn:E2; [|discriminate].
    apply month_only_is_plain in E2. congruence.
  - intros i name Hi. rewrite nth_error_map, (nth_error_enumerate_from cols 0 i name Hi).
    cbn [option_map fst snd Nat.add].
    destruct (is_one_of ["Tarih"; "Ay"; "Saat"] name) eqn:E1; [reflexivity|].
    destruct (is_one_of ["Ay"] name) eqn:E2; [|reflexivity].
    apply month_only_is_plain in E2. congruence.
Qed.

Lemma detail_sheets_never_use_the_integer_format_witness :
  nth_error (style_columns order) 1 = Some (mk_set_column 1 1 6 None).
Proof.
  apply (proj2 (proj2 (detail_sheets_never_use_the_integer_format order)) 1%nat "Ay").
  reflexivity.
Defined.

End DetailStyle.
(** * The ticket cache *)

Section TicketCache.
Import Calendar EpiasClient Partition Py TgtCache.

Lemma number_of_6 (a b c d e f : Z) :
  0 <= a <= 9 -> 0 <= b <= 9 -> 0 <= c <= 9 -> 0 <= d <= 9 -> 0 <= e <= 9 -> 0 <= f <= 9 ->
  number_of (String (digit_char a) (String (digit_char b) (String (digit_char c)
              (String (digit_char d) (String (digit_char e) (String (digit_char f)
                 EmptyString))))))
  = ((((a * 10 + b) * 10 + c) * 10 + d) * 10 + e) * 10 + f.
Proof.
  intros Ha Hb Hc Hd He Hf. unfold number_of. cbn [list_ascii_of_string fold_left].
  rewrite !digit_val_digit_char by assumption. lia.
Qed.

Lemma plus_one_day_valid (dt : datetime) :
  valid_date (year dt) (month dt) (day dt) = true ->
  year (plus_one_day dt) <= MAXYEAR ->
  valid_date (year (plus_one_day dt)) (month (plus_one_day dt)) (day (plus_one_day dt)) = true.
Proof.
  unfold plus_one_day, valid_date, MINYEAR, MAXYEAR. intros Hv.
  pose proof (days_in_month_bounds (year dt) (month dt)).
  destruct (Z.ltb_spec (day dt) (days_in_month (year dt) (month dt))).
  - cbn [year month day]. lia.
  - destruct (Z.ltb_spec (month dt) 12); cbn [year month day]; intros Hy.
    + pose proof (days_in_month_bounds (year dt) (month dt + 1)). lia.
    + pose proof (days_in_month_bounds (year dt + 1) 1). lia.
Qed.

Lemma plus_two_hours_valid (t e : stamp) :
  valid_stamp t = true -> plus_two_hours t = Some e -> valid_stamp e = true.
Proof.
  unfold valid_stamp, plus_two_hours, valid. intros Hv.
  apply andb_prop in Hv as [Hv Hus2]. apply andb_prop in Hv as [Hv Hus1].
  apply andb_prop in Hv as [Hd Ht].
  destruct (Z.ltb_spec (hour (at_second t) + 2) 24).
  - intros [= <-]. cbn [at_second microsecond year month day hour minute second].
    rewrite Hd, Hus1, Hus2. unfold valid_time in *. lia.
  - destruct (Z.leb_spec (year (plus_one_day (at_second t))) MAXYEAR); [|discriminate].
    intros [= <-]. cbn [at_second microsecond year month day hour minute second].
    rewrite (plus_one_day_valid _ Hd) by assumption. rewrite Hus1, Hus2.
    unfold valid_time in *. lia.
Qed.

(** What [isoformat] writes is read back as written. *)
Lemma fromisoformat_isoformat (other : string -> option stamp) (t : stamp) :
  valid_stamp t = true -> fromisoformat other (isoformat t) = Some t.
Proof.
  destruct t as [[y mo d h mi sec] us]. unfold valid_stamp, valid.
  cbn [at_second microsecond year month day hour minute second]. intros Hv.
  apply andb_prop in Hv as [Hv Hus2]. apply andb_prop in Hv as [Hvalid Hus1].
  assert (Hr : 1 <= y <= 9999 /\ 1 <= mo <= 12 /\ 1 <= d <= 31
               /\ 0 <= h <= 23 /\ 0 <= mi <= 59 /\ 0 <= sec <= 59 /\ 0 <= us <= 999999).
  { pose proof (days_in_month_bounds y mo).
    unfold valid_date, valid_time, MINYEAR, MAXYEAR in Hvalid. lia. }
  destruct Hr as (Hy & Hmo & Hd & Hh & Hmi & Hsec & Hus).
  assert (Hdig : forall n, 0 <= n mod 10 <= 9) by (intros n; Z.div_mod_to_equations; lia).
  assert (Ey : ((y / 10 / 10 / 10 mod 10 * 10 + y / 10 / 10 mod 10) * 10 + y / 10 mod 10) * 10
               + y mod 10 = y) by (Z.div_mod_to_equations; lia).
  assert (E2 : forall n, 0 <= n <= 99 -> n / 10 mod 10 * 10 + n mod 10 = n)
    by (intros n Hn; Z.div_mod_to_equations; lia).
  unfold fromisoformat, isoformat, stamp_of_fields.
  cbn [at_second microsecond year month day hour minute second].
  destruct (Z.eqb_spec us 0) as [->|Hne].
  - cbn [pad String.append].
    cbn [has_shape app seconds_pattern day_pattern hm_pattern accepts].
    rewrite !is_digit_digit_char by apply Hdig.
    cbn [Ascii.eqb Bool.eqb andb]. cbn [substring].
    rewrite number_of_4, !number_of_2 by apply Hdig.
    rewrite Ey, !E2 by lia. now rewrite Hvalid.
  - cbn [pad String.append].
    cbn [has_shape app seconds_pattern micro_pattern day_pattern hm_pattern accepts].
    rewrite !is_digit_digit_char by apply Hdig.
    cbn [Ascii.eqb Bool.eqb andb]. cbn [substring].
    rewrite number_of_4, !number_of_2, number_of_6 by apply Hdig.
    rewrite Ey, !E2 by lia. rewrite Hvalid. cbn [andb]. do 2 f_equal.
    Z.div_mod_to_equations; lia.
Qed.

Lemma ticket_of_saved tgt username a b :
  ticket_of [("tgt", JStr tgt); ("username", JStr username); ("saved_at", JStr a);
             ("expires_at", JStr b)]
  = if String.eqb tgt "" then None else Some (JStr tgt).
Proof. unfold ticket_of. cbn. now destruct (String.eqb tgt ""). Qed.

Lemma isoformat_not_empty (t : stamp) : String.eqb (isoformat t) "" = false.
Proof. unfold isoformat. cbn [pad String.append]. reflexivity. Qed.

Lemma plus_two_hours_later (t e : stamp) :
  valid_stamp t = true -> plus_two_hours t = Some e -> stamp_ltb t e = true.
Proof.
  intros Hv He. pose proof (plus_two_hours_valid t e Hv He) as Hve.
  unfold valid_stamp in Hv, Hve.
  apply andb_prop in Hv as [Hv _]. apply andb_prop in Hv as [Hv _].
  apply andb_prop in Hve as [Hve _]. apply andb_prop in Hve as [Hve _].
  destruct (valid_in_range _ Hv) as (Hr & Hy & Hd).
  destruct (valid_in_range _ Hve) as (Hre & _ & _).
  unfold stamp_ltb. rewrite (dt_compare_ord _ _ Hr Hre).
  assert (Hlt : ord (at_second t) < ord (at_second e)).
  { unfold plus_two_hours in He. unfold in_range in Hr.
    destruct (Z.ltb_spec (hour (at_second t) + 2) 24).
    - injection He as <-. unfold ord, date_key, month_index.
      cbn [at_second year month day hour minute second]. lia.
    - destruct (Z.leb_spec (year (plus_one_day (at_second t))) MAXYEAR); [|discriminate].
      injection He as <-. unfold ord, date_key, month_index, plus_one_day.
      destruct (Z.ltb_spec (day (at_second t))
                  (days_in_month (year (at_second t)) (month (at_second t))));
        [|destruct (Z.ltb_spec (month (at_second t)) 12)];
        cbn [at_second year month day hour minute second]; lia. }
  apply Z.compare_lt_iff in Hlt. now rewrite Hlt.
Qed.

Lemma stamp_ltb_asym (a b : stamp) : stamp_ltb a b = true -> stamp_ltb b a = false.
Proof.
  unfold stamp_ltb, dt_compare, date_compare, lex.
  destruct a as [[ya ma da ha mia sa] ua], b as [[yb mb db hb mib sb] ub].
  cbn [at_second microsecond year month day hour minute second].
  rewrite (Z.compare_antisym ya yb), (Z.compare_antisym ma mb), (Z.compare_antisym da db),
    (Z.compare_antisym ha hb), (Z.compare_antisym mia mib), (Z.compare_antisym sa sb),
    (Z.compare_antisym ua ub).
  destruct (ya ?= yb), (ma ?= mb), (da ?= db), (ha ?= hb), (mia ?= mib), (sa ?= sb), (ua ?= ub);
    cbn [CompOpp]; congruence.
Qed.

(** The cache round trip.  A ticket saved at a valid clock reading is
    loaded again at every time up to two hours after that reading and at no
    later time; an empty ticket is never loaded.  When the file cannot be
    written, or the expiry would lie beyond the year 9999, saving changes
    nothing and raises nothing. *)
Theorem saved_ticket_is_loaded_for_two_hours :
  forall (other : string -> option stamp) (now1 now2 : stamp) (tgt username : string)
         (file : cache_file),
    valid_stamp now1 = true ->
    (forall exp, plus_two_hours now1 = Some exp ->
       stamp_ltb now1 exp = true
       /\ stamp_ltb exp now1 = false
       /\ forall t,
           load_cached_tgt other t (save_cached_tgt now1 now2 true tgt username file)
           = if stamp_ltb exp t then None
             else if String.eqb tgt "" then None else Some (JStr tgt))
    /\ save_cached_tgt now1 now2 false tgt username file = file
    /\ (plus_two_hours now1 = None ->
        forall writable, save_cached_tgt now1 now2 writable tgt username file = file).
Proof.
  intros other now1 now2 tgt username file Hv. split; [|split].
  - intros exp Hexp. pose proof (plus_two_hours_later _ _ Hv Hexp) as Hlater.
    split; [exact Hlater|]. split; [now apply stamp_ltb_asym|].
    intros t. unfold save_cached_tgt. rewrite Hexp.
    cbn [load_cached_tgt].
    assert (Hget : get "expires_at"
                     [("tgt", JStr tgt); ("username", JStr username);
                      ("saved_at", JStr (isoformat now2)); ("expires_at", JStr (isoformat exp))]
                   = JStr (isoformat exp)) by reflexivity.
    rewrite Hget. cbn [truthy]. rewrite isoformat_not_empty. cbn [negb].
    rewrite (fromisoformat_isoformat other exp (plus_two_hours_valid _ _ Hv Hexp)).
    now rewrite ticket_of_saved.
  - unfold save_cached_tgt. now destruct (plus_two_hours now1).
  - intros Hnone writable. unfold save_cached_tgt. now rewrite Hnone.
Qed.

Lemma saved_ticket_is_loaded_for_two_hours_witness :
  load_cached_tgt (fun _ => None)
    (mk_stamp (mk_datetime 2024 3 6 1 30 15) 250)
    (save_cached_tgt (mk_stamp (mk_datetime 2024 3 5 23 30 15) 250)
       (mk_stamp (mk_datetime 2024 3 5 23 30 15) 260) true "TGT-1" "user" Missing)
  = Some (JStr "TGT-1")
  /\ load_cached_tgt (fun _ => None)
       (mk_stamp (mk_datetime 2024 3 6 1 30 15) 251)
       (save_cached_tgt (mk_stamp (mk_datetime 2024 3 5 23 30 15) 250)
          (mk_stamp (mk_datetime 2024 3 5 23 30 15) 260) true "TGT-1" "user" Missing)
     = None.
Proof.
  split.
  - exact (proj2 (proj2 (proj1 (saved_ticket_is_loaded_for_two_hours (fun _ => None)
                          (mk_stamp (mk_datetime 2024 3 5 23 30 15) 250)
                          (mk_stamp (mk_datetime 2024 3 5 23 30 15) 260) "TGT-1" "user" Missing
                          eq_refl)
                   (mk_stamp (mk_datetime 2024 3 6 1 30 15) 250) eq_refl))
             (mk_stamp (mk_datetime 2024 3 6 1 30 15) 250)).
  - exact (proj2 (proj2 (proj1 (saved_ticket_is_loaded_for_two_hours (fun _ => None)
                          (mk_stamp (mk_datetime 2024 3 5 23 30 15) 250)
                          (mk_stamp (mk_datetime 2024 3 5 23 30 15) 260) "TGT-1" "user" Missing
                          eq_refl)
                   (mk_stamp (mk_datetime 2024 3 6 1 30 15) 250) eq_refl))
             (mk_stamp (mk_datetime 2024 3 6 1 30 15) 251)).
Defined.

End TicketCache.
(** * ReportBuilder: the cells of the comparison sheet *)

Section ReportCells.
Import Calendar EpiasClient StreamlitApp Examples Kpi.

Lemma same_cell_eq (a b : nat * nat) : same_cell a b = true <-> a = b.
Proof.
  destruct a as [r c], b as [r' c']. unfold same_cell. cbn [fst snd].
  rewrite andb_true_iff, !Nat.eqb_eq. split; [intros [-> ->]; reflexivity | intros [= -> ->]; now split].
Qed.

Lemma distinct_cells_NoDup (l : list (nat * nat)) : distinct_cells l = true -> List.NoDup l.
Proof.
  induction l as [|k l IH]; [constructor|].
  cbn [distinct_cells]. intros H. apply andb_prop in H as [Hk Hl].
  constructor; [|now apply IH]. intros Hin.
  assert (existsb (same_cell k) l = true)
    by (apply existsb_exists; exists k; split; [exact Hin | now apply same_cell_eq]).
  destruct (existsb (same_cell k) l); discriminate.
Qed.

(** A write that no later write overwrites is what the position holds. *)
Lemma last_write_of_distinct (cells : list (nat * nat * cell)) :
  forall before key c,
    List.NoDup (map fst cells) -> In (key, c) cells ->
    last_write key cells before = Some c.
Proof.
  induction cells as [|[k v] cells IH]; intros before key c Hnd Hin; [destruct Hin|].
  cbn [map fst] in Hnd. apply List.NoDup_cons_iff in Hnd as [Hk Hnd].
  cbn [last_write fst snd]. destruct Hin as [[= -> ->] | Hin].
  - fold (same_cell key key). rewrite (proj2 (same_cell_eq key key) eq_refl).
    clear IH Hnd. revert Hk. generalize (Some c). induction cells as [|[k' v'] cells IH];
      intros o Hk; [reflexivity|].
    cbn [last_write fst snd]. fold (same_cell k' key).
    destruct (same_cell k' key) eqn:E.
    + apply same_cell_eq in E. subst k'. contradiction Hk. now left.
    + apply IH. intros H. apply Hk. now right.
  - now apply IH.
Qed.

Lemma block_cells_of n1 n2 sheet title ex start b :
  start = 0%nat \/ start = 18%nat ->
  block_writes n1 n2 sheet title ex start = Some b -> map fst b = block_cells start.
Proof.
  intros Hstart Hb.
  assert (H : option_map (map fst) (block_writes n1 n2 sheet title ex start)
              = Some (block_cells start))
    by (destruct Hstart as [-> | ->]; reflexivity).
  rewrite Hb in H. now injection H.
Qed.

Lemma last_write_app key (cells1 cells2 : list (nat * nat * cell)) :
  forall before,
    last_write key (cells1 ++ cells2) before
    = last_write key cells2 (last_write key cells1 before).
Proof.
  induction cells1 as [|w cells1 IH]; intros before; [reflexivity|].
  cbn [app last_write]. apply IH.
Qed.

(** The comparison sheet is written without overwriting: the writes of the
    two plant blocks go to pairwise distinct cells, 272 per block, those of
    the first block within rows 1 to 16 and those of the second within rows
    19 to 34 of the columns A to T; so every cell holds exactly what the one
    write to it wrote, whatever the tables and the KPI vectors are. *)
Theorem comparison_sheet_writes_each_cell_once :
  forall (n1 n2 : nat) (ex1 ex2 : gmap string (list kpi)),
    exists b1 b2 ws,
      block_writes n1 n2 sheet1 "Santral 1" ex1 0 = Some b1
      /\ block_writes n1 n2 sheet2 "Santral 2" ex2 18 = Some b2
      /\ comparison_sheet n1 n2 ex1 ex2 = Some ws
      /\ List.NoDup (map fst (b1 ++ b2))
      /\ length b1 = 272%nat /\ length b2 = 272%nat
      /\ forallb (within_rows 0 15) (map fst b1) = true
      /\ forallb (within_rows 18 33) (map fst b2) = true
      /\ (forall row col c, In (row, col, c) (b1 ++ b2) -> comp_cell ws row col = c).
Proof.
  intros n1 n2 ex1 ex2.
  assert (H1 : exists b, block_writes n1 n2 sheet1 "Santral 1" ex1 0 = Some b)
    by (eexists; reflexivity).
  assert (H2 : exists b, block_writes n1 n2 sheet2 "Santral 2" ex2 18 = Some b)
    by (eexists; reflexivity).
  destruct H1 as [b1 Hb1], H2 as [b2 Hb2].
  destruct (comparison_sheet_defined n1 n2 ex1 ex2) as [ws Hws].
  exists b1, b2, ws. split; [exact Hb1|]. split; [exact Hb2|]. split; [exact Hws|].
  pose proof (block_cells_of _ _ _ _ _ _ _ (or_introl eq_refl) Hb1) as Hk1.
  pose proof (block_cells_of _ _ _ _ _ _ _ (or_intror eq_refl) Hb2) as Hk2.
  assert (Hnd : List.NoDup (map fst (b1 ++ b2))).
  { rewrite map_app, Hk1, Hk2. apply distinct_cells_NoDup. vm_compute. reflexivity. }
  split; [exact Hnd|].
  split; [rewrite <- (length_map fst b1), Hk1; reflexivity|].
  split; [rewrite <- (length_map fst b2), Hk2; reflexivity|].
  split; [rewrite Hk1; vm_compute; reflexivity|].
  split; [rewrite Hk2; vm_compute; reflexivity|].
  intros row col c Hin.
  pose proof (comparison_sheet_cell _ _ _ _ _ (row, col) Hws) as Hcell.
  unfold comparison_cell in Hcell. rewrite Hb1, Hb2 in Hcell.
  rewrite <- last_write_app, (last_write_of_distinct _ None (row, col) c Hnd Hin) in Hcell.
  injection Hcell as Hcell. unfold comp_cell. now rewrite <- Hcell.
Qed.

Lemma comparison_sheet_writes_each_cell_once_witness :
  exists ws,
    comparison_sheet 3 4 (compute_monthly_extras two_month_table)
      (compute_monthly_extras asymmetry_table) = Some ws
    /\ comp_cell ws 0 0 = Text "Santral 1".
Proof.
  destruct (comparison_sheet_writes_each_cell_once 3 4 (compute_monthly_extras two_month_table)
              (compute_monthly_extras asymmetry_table))
    as (b1 & b2 & ws & Hb1 & _ & Hws & _ & _ & _ & _ & _ & Hcell).
  exists ws. split; [exact Hws|]. apply Hcell. apply in_or_app. left.
  unfold block_writes in Hb1. cbn [concat_writes] in Hb1.
  destruct (concat_writes _) as [rest|]; [|discriminate Hb1].
  injection Hb1 as <-. now left.
Defined.

End ReportCells.
(** * TimeKeyNormalizer: the texts of the client and the month of an hour *)

Section TimeKeyMore.
Import Calendar EpiasClient StreamlitApp Examples Totals.

Lemma digit_not_T (c : ascii) : is_digit c = true -> Ascii.eqb c "T" = false.
Proof.
  intros H. destruct (Ascii.eqb_spec c "T") as [->|]; [discriminate H | reflexivity].
Qed.

(** The client reads back the timestamps it writes.  A date field holding
    the ISO text of a valid timestamp (as the request windows are written,
    and as the upstream answers), without a dedicated hour field, is
    normalised to that timestamp cut to the minute, with its day as Tarih and
    its HH:MM as Saat (years 1678 to 2261). *)
Theorem iso_text_is_read_back :
  forall (dt : datetime) (value : Num.num),
    valid dt = true -> 1678 <= year dt <= 2261 ->
    _build_datetime_row (mk_item (Some (strftime_ISO_FMT dt)) None value)
    = mk_timed (Some (mk_datetime (year dt) (month dt) (day dt) (hour dt) (minute dt) 0))
               (Some (pad 4 (year dt) ++ "-" ++ pad 2 (month dt) ++ "-" ++ pad 2 (day dt))%string)
               (pad 2 (hour dt) ++ ":" ++ pad 2 (minute dt))%string
               value.
Proof.
  intros [y mo d h mi sec] value Hvalid Hy. cbn [year] in Hy.
  assert (Hdig : forall n, 0 <= n mod 10 <= 9) by (intros n; Z.div_mod_to_equations; lia).
  assert (HdigT : forall n, Ascii.eqb (digit_char (n mod 10)) "T" = false)
    by (intros n; apply digit_not_T, is_digit_digit_char, Hdig).
  assert (Hv0 : valid (mk_datetime y mo d h mi 0) = true).
  { unfold valid in *. cbn [year month day hour minute second] in *.
    apply andb_prop in Hvalid as [Hd Ht]. rewrite Hd. unfold valid_time in *. lia. }
  pose proof (to_datetime_strftime (mk_datetime y mo d h mi 0) Hv0 eq_refl) as Hread.
  unfold strftime_minute in Hread. cbn [year month day hour minute second] in Hread.
  assert (HN : extract_hm "None" = None) by reflexivity.
  unfold _build_datetime_row, strftime_ISO_FMT, extract_day.
  cbn [it_date it_hour it_value astype_str year month day hour minute second].
  rewrite HN, year_text_pad by lia.
  cbn [pad String.append] in *.
  cbn [match_prefix day_pattern hm_pattern accepts extract_T_hm].
  rewrite !is_digit_digit_char by apply Hdig. rewrite !HdigT.
  cbn [Ascii.eqb Bool.eqb option_map fillna is_digit andb].
  cbn [match_prefix day_pattern hm_pattern accepts option_map fillna String.append].
  rewrite ?is_digit_digit_char by apply Hdig.
  cbn [Ascii.eqb Bool.eqb option_map fillna String.append].
  rewrite Hread. reflexivity.
Qed.

Lemma iso_text_is_read_back_witness :
  _build_datetime_row (mk_item (Some "2024-01-15T08:30:00+03:00") None (Some (Q2Qc 7)))
  = mk_timed (Some (mk_datetime 2024 1 15 8 30 0)) (Some "2024-01-15") "08:30" (Some (Q2Qc 7)).
Proof.
  apply (iso_text_is_read_back jan_15_0830 (Some (Q2Qc 7)) eq_refl).
  unfold jan_15_0830. cbn [year]. lia.
Defined.

(** A timestamp the normaliser accepts has a month 1..12. *)
Lemma normalised_month (it : RawItem) (dt : datetime) :
  t_datetime (_build_datetime_row it) = Some dt -> 1 <= month dt <= 12.
Proof.
  unfold _build_datetime_row. cbn [t_datetime]. intros H.
  destruct (extract_day (astype_str (it_date it))) as [d|]; [|discriminate].
  cbn [option_map] in H. apply to_datetime_some in H as (Hv & _ & _).
  destruct (valid_in_range _ Hv) as (Hr & _ & _). unfold Partition.in_range in Hr. lia.
Qed.

Lemma frame_of_items_rows (items : list RawItem) (k : TimedRow) :
  In k (frame_of_items items) -> exists it, k = _build_datetime_row it.
Proof.
  destruct items as [|it0 items]; [intros []|].
  unfold frame_of_items, _build_datetime. intros H.
  apply in_map_iff in H as (it & <- & _). now exists it.
Qed.

(** The month column of the hourly table.  For plan rows that come from
    the fetcher, every hour of the table has either no month (its timestamp
    is invalid) or a month 1..12; when every plan row has a valid
    timestamp, every hour has a month 1..12, which is what the monthly
    shares need to add up to 100. *)
Theorem hourly_rows_have_a_month :
  forall (plan : list RawItem) (uretim_df ptf_df smf_df : list TimedRow)
         (out : list HourlyRow),
    build_plant_dataframe (frame_of_items plan) uretim_df ptf_df smf_df = inr out ->
    Forall (fun r => Ay r = None \/ has_month r) out
    /\ ((forall k, In k (frame_of_items plan) -> t_datetime k <> None) ->
        Forall has_month out).
Proof.
  intros plan uretim_df ptf_df smf_df out Hout.
  assert (Hrows : forall r, In r out ->
            exists k, In k (frame_of_items plan) /\ Ay r = option_map month (t_datetime k)).
  { intros r Hr. destruct (frame_of_items plan) as [|k0 K] eqn:EK.
    { injection Hout as <-. destruct Hr. }
    destruct uretim_df as [|u0 U]; [injection Hout as <-; destruct Hr|].
    destruct ptf_df as [|p0 P]; [destruct smf_df; discriminate Hout|].
    destruct smf_df as [|s0 S]; [discriminate Hout|].
    assert (Hout' : out = map derive
                            (merge_left set_SMF
                               (merge_left set_PTF (merge_inner (k0 :: K) (u0 :: U)) (p0 :: P))
                               (s0 :: S)))
      by (injection Hout as <-; reflexivity).
    clear Hout. subst out. apply in_map_iff in Hr as (j2 & <- & Hj2).
    apply merge_left_spec in Hj2 as (j1 & Hj1 & Hcase2).
    apply merge_left_spec in Hj1 as (j0 & Hj0 & Hcase1).
    apply merge_inner_spec in Hj0 as (k & u & Hk & _ & _ & ->).
    exists k. split; [exact Hk|].
    assert (E1 : j_datetime j1 = t_datetime k)
      by (destruct Hcase1 as [(p & _ & _ & ->) | (_ & ->)]; reflexivity).
    assert (E2 : j_datetime j2 = j_datetime j1)
      by (destruct Hcase2 as [(p & _ & _ & ->) | (_ & ->)]; reflexivity).
    unfold derive. cbn [Ay]. now rewrite E2, E1. }
  assert (Hmonth : forall r, In r out -> Ay r = None \/ has_month r).
  { intros r Hr. destruct (Hrows r Hr) as (k & Hk & Hay).
    destruct (frame_of_items_rows _ _ Hk) as [it ->].
    destruct (t_datetime (_build_datetime_row it)) as [dt|] eqn:E; [|now left].
    right. exists (month dt). split; [exact Hay | now apply (normalised_month it)]. }
  split.
  - apply List.Forall_forall. exact Hmonth.
  - intros Hvalid. apply List.Forall_forall. intros r Hr.
    destruct (Hmonth r Hr) as [Hnone | H]; [|exact H].
    destruct (Hrows r Hr) as (k & Hk & Hay). rewrite Hay in Hnone.
    specialize (Hvalid k Hk). now destruct (t_datetime k).
Qed.

Lemma hourly_rows_have_a_month_witness :
  exists out,
    build_plant_dataframe (frame_of_items plan_items) (frame_of_items realized_items)
      (frame_of_items price_items) (frame_of_items smp_items) = inr out
    /\ Forall (fun r => Ay r = None \/ has_month r) out.
Proof.
  eexists. split; [reflexivity|].
  apply (proj1 (hourly_rows_have_a_month plan_items (frame_of_items realized_items)
                  (frame_of_items price_items) (frame_of_items smp_items) _ eq_refl)).
Defined.

End TimeKeyMore.
